(** * mufx-site: the daily price fetcher and the publication verifier

    A shallow embedding of [tools/fetch_prices.py] ([fetch_all]) and of
    [verify.py] ([verify]), with the properties of the price pipeline and
    of the integrity check stated over it.

    Conventions of the embedding.
    - Prices are IEEE-754 binary64 values: the close columns of the frames
      returned by the provider have dtype float64, [iloc] yields a
      numpy.float64, and numpy scalar arithmetic follows IEEE-754 (a division
      by zero yields an infinity or a NaN together with a RuntimeWarning; it
      raises nothing).  They are modelled by Rocq's primitive [float].
    - A missing value of a float64 column is a NaN; [dropna] removes them.
    - Python exceptions are values of [PyExc]; fallible code returns a
      [PyResult]; the loop body runs in a state-and-exception monad whose
      state holds the [results] dict and the log of provider queries.
    - Python dicts are association lists in insertion order. *)

From Stdlib Require Import Floats ZArith List String Ascii Bool Lia.
From Stdlib Require Import DecimalString.
Import ListNotations.

#[local] Set Warnings "-inexact-float".

Local Open Scope string_scope.
Local Open Scope Z_scope.

(* ================================================================== *)
(** * Python runtime pieces used by both programs *)
(* ================================================================== *)

Module Py.

(** Exceptions that the modelled code can meet.  [fetch_all] tells
    [KeyError] and [TypeError] from every other [Exception]. *)
Inductive PyExc : Type :=
| KeyError (key : string)
| TypeError (msg : string)
| IndexError (msg : string)
| OtherException (cls : string) (msg : string).

(** [str(e)]: a [KeyError] prints the repr of its key (for a key without
    quotes or escapes, the key between single quotes). *)
Definition str_exc (e : PyExc) : string :=
  match e with
  | KeyError key => "'" ++ key ++ "'"
  | TypeError msg => msg
  | IndexError msg => msg
  | OtherException _ msg => msg
  end.

Inductive PyResult (A : Type) : Type :=
| Ok (a : A)
| Raise (e : PyExc).
Arguments Ok {A} a.
Arguments Raise {A} e.

(** Python dicts: insertion-ordered, assignment to an existing key keeps
    its position. *)
Definition dict (V : Type) : Type := list (string * V).

Fixpoint dict_set {V : Type} (k : string) (v : V) (d : dict V) : dict V :=
  match d with
  | [] => [(k, v)]
  | (k', v') :: d' =>
      if String.eqb k k' then (k', v) :: d'
      else (k', v') :: dict_set k v d'
  end.

Fixpoint dict_get {V : Type} (k : string) (d : dict V) : option V :=
  match d with
  | [] => None
  | (k', v') :: d' => if String.eqb k k' then Some v' else dict_get k d'
  end.

Definition keys {V : Type} (d : dict V) : list string := map fst d.

(** A dict literal has distinct keys; this is the check on a key list. *)
Fixpoint distinct (l : list string) : bool :=
  match l with
  | [] => true
  | k :: rest => negb (existsb (String.eqb k) rest) && distinct rest
  end.

(** ** Floats: [round(x, ndigits)] and [format(x, ".2f")] *)

(** [num / den] rounded to the nearest integer, ties to even ([den > 0]). *)
Definition round_half_even_div (num den : Z) : Z :=
  let q := num / den in
  let r := num mod den in
  match 2 * r ?= den with
  | Lt => q
  | Gt => q + 1
  | Eq => if Z.even q then q else q + 1
  end.

(** The integer nearest to [m * 2^e * 10^ndigits] (ties to even): the
    digits that dtoa produces in mode 3 for the exact binary value. *)
Definition scaled_digits (m : positive) (e : Z) (ndigits : Z) : Z :=
  if 0 <=? e then Zpos m * 2 ^ e * 10 ^ ndigits
  else round_half_even_div (Zpos m * 10 ^ ndigits) (2 ^ (- e)).

(** [round(x, ndigits)] for a float and [ndigits >= 0] (CPython's
    [double_round]): infinities, NaNs and zeros round to themselves, as does
    every float when [ndigits] exceeds 323; otherwise the exact value is
    rounded half-even to [ndigits] decimals and the decimal is converted back
    to the nearest double. *)
Definition py_round (x : float) (ndigits : Z) : float :=
  match Prim2SF x with
  | S754_finite s m e =>
      if 323 <? ndigits then x
      else
        match scaled_digits m e ndigits with
        | Zpos n =>
            SF2Prim (SF64div (S754_finite s n 0)
                             (S754_finite false (Z.to_pos (10 ^ ndigits)) 0))
        | _ => SF2Prim (S754_zero s)
        end
  | _ => x
  end.

Definition string_of_Z (n : Z) : string :=
  NilZero.string_of_uint (N.to_uint (Z.to_N n)).

Fixpoint zeros (n : nat) : string :=
  match n with
  | O => ""
  | S n' => "0" ++ zeros n'
  end.

(** [n] written with at least [width] digits. *)
Definition zero_pad (width : nat) (n : Z) : string :=
  let s := string_of_Z n in
  zeros (width - String.length s) ++ s.

(** The digits of [n / 10^p] as a fixed-point literal. *)
Definition fixed_digits (n : Z) (p : nat) : string :=
  let scale := 10 ^ Z.of_nat p in
  string_of_Z (n / scale) ++
  match p with
  | O => ""
  | _ => "." ++ zero_pad p (n mod scale)
  end.

(** [format(x, ".<p>f")]. *)
Definition format_f (x : float) (p : nat) : string :=
  match Prim2SF x with
  | S754_nan => "nan"
  | S754_infinity s => (if s then "-" else "") ++ "inf"
  | S754_zero s => (if s then "-" else "") ++ fixed_digits 0 p
  | S754_finite s m e =>
      (if s then "-" else "") ++ fixed_digits (scaled_digits m e (Z.of_nat p)) p
  end.

End Py.

(* ================================================================== *)
(** * tools/fetch_prices.py *)
(* ================================================================== *)

Module FetchPrices.
Import Py.

(** ** The instrument map *)

Inductive Category : Type := primary | secondary | supplementary.

Record InstrumentSpec : Type := mkInstrument {
  ticker : string;
  decimals : nat;
  category : Category;
  note : option string
}.

Definition Catalog : Type := dict InstrumentSpec.

Definition INSTRUMENTS : Catalog :=
  [ ("DXY",     mkInstrument "DX-Y.NYB" 2 primary None);
    ("EUR/USD", mkInstrument "EURUSD=X" 4 primary None);
    ("XAU/USD", mkInstrument "GC=F" 0 primary (Some "Gold futures front month"));
    ("USD/JPY", mkInstrument "JPY=X" 2 primary None);
    ("GBP/USD", mkInstrument "GBPUSD=X" 4 secondary None);
    ("AUD/USD", mkInstrument "AUDUSD=X" 4 secondary None);
    ("USD/CHF", mkInstrument "CHF=X" 4 secondary None);
    ("US10Y",   mkInstrument "^TNX" 3 secondary
                  (Some "10Y yield, divide by 1 (already %)"));
    ("Brent",   mkInstrument "BZ=F" 2 secondary (Some "Brent front month"));
    ("S&P500",  mkInstrument "^GSPC" 2 supplementary None);
    ("VIX",     mkInstrument "^VIX" 2 supplementary None);
    ("BTC/USD", mkInstrument "BTC-USD" 0 supplementary None) ].

(** ** Frames returned by the provider *)

(** A float64 series indexed by trading day: rows of (ISO date of the index
    timestamp, value), oldest first as the provider sends them. *)
Definition Series : Type := list (string * float).

Definition dropna (s : Series) : Series :=
  filter (fun row => negb (PrimFloat.is_nan (snd row))) s.

(** What a subscript yields: a series, or one value of a series. *)
Inductive Item : Type :=
| ItemSeries (s : Series)
| ItemValue (x : float).

(** [x.dropna()]; a float64 value has no such method. *)
Definition dropna_of (x : Item) : PyResult Series :=
  match x with
  | ItemSeries s => Ok (dropna s)
  | ItemValue _ =>
      Raise (OtherException "AttributeError"
               "'numpy.float64' object has no attribute 'dropna'")
  end.

(** A frame has either two-level columns (field, ticker), the shape of a
    batch answer, or one-level columns (field), the shape of an answer for
    one instrument.  Column labels are taken to be distinct.

    The rows of a frame are labelled by dates.  A string subscript on one
    of its columns, [s[label]], is resolved by pandas, which reads the label
    as a date: for instance, a label that reads as a year selects the rows
    of that year, one that reads as a day of the index yields the value of
    that day, one that does not read as a date raises [KeyError], and one
    that reads as a date no timestamp can hold raises
    [OutOfBoundsDatetime].  That reading is pandas's and is not described
    here: a one-level frame carries it as [at_label], about which nothing is
    assumed. *)
Inductive DataFrame : Type :=
| MultiFrame (cols : list ((string * string) * Series))
| FlatFrame (cols : dict Series)
            (at_label : Series -> string -> PyResult Item).

(** [data.columns] and the two classes it can have; a MultiIndex is an
    Index. *)
Inductive PyType : Type := Index | MultiIndex.

Inductive Columns : Type :=
| IndexCols (labels : list string)
| MultiIndexCols (labels : list (string * string)).

Definition columns (data : DataFrame) : Columns :=
  match data with
  | MultiFrame cols => MultiIndexCols (map fst cols)
  | FlatFrame cols _ => IndexCols (map fst cols)
  end.

Definition type_of (c : Columns) : PyType :=
  match c with
  | IndexCols _ => Index
  | MultiIndexCols _ => MultiIndex
  end.

Definition issubclass (c t : PyType) : bool :=
  match c, t with
  | Index, Index => true
  | Index, MultiIndex => false
  | MultiIndex, _ => true
  end.

Definition isinstance (c : Columns) (t : PyType) : bool :=
  issubclass (type_of c) t.

(** The value bound to [close_col]. *)
Inductive CloseCol : Type :=
| ColPair (field tick : string)
| ColName (field : string).

(** [frame[label]] on one-level columns. *)
Definition getitem (cols : dict Series) (label : string) : PyResult Series :=
  match dict_get label cols with
  | Some s => Ok s
  | None => Raise (KeyError label)
  end.

(** [data["Close"][ticker]].  On two-level columns the first subscript
    selects the columns of the field and the second the ticker's series; on
    one-level columns the first subscript yields the close series, and the
    second looks the ticker up among the dates of its index. *)
Definition select_field (field : string)
    (cols : list ((string * string) * Series)) : dict Series :=
  map (fun c => (snd (fst c), snd c))
      (filter (fun c => String.eqb field (fst (fst c))) cols).

Definition getitem_close_ticker (data : DataFrame) (tick : string)
  : PyResult Item :=
  match data with
  | MultiFrame cols =>
      match select_field "Close" cols with
      | [] => Raise (KeyError "Close")
      | sub =>
          match getitem sub tick with
          | Ok s => Ok (ItemSeries s)
          | Raise e => Raise e
          end
      end
  | FlatFrame cols at_label =>
      match getitem cols "Close" with
      | Ok s => at_label s tick
      | Raise e => Raise e
      end
  end.

(** [s.iloc[-k]] for [k >= 1]. *)
Definition iloc_neg (s : Series) (k : nat) : PyResult (string * float) :=
  match nth_error (rev s) (k - 1) with
  | Some row => Ok row
  | None => Raise (IndexError "single positional indexer is out-of-bounds")
  end.

(** ** The provider and the queries sent to it *)

Inductive Query : Type :=
| Download (tickers : list string)
| History (tick : string).

(** [yf.download] and [yf.Ticker(t).history]; the answer to a single query
    may depend on the queries sent before it. *)
Record Provider : Type := mkProvider {
  download : list string -> PyResult DataFrame;
  history : list Query -> string -> PyResult (dict Series)
}.

(** ** Result records *)

Inductive Direction : Type := up | down | flat.

Record PriceObservation : Type := mkObservation {
  price : float;
  prev_close : float;
  change_pct : float;
  change_str : string;
  direction : Direction;
  arrow : string;
  obs_category : Category;
  date : string
}.

(** A result is either the eight-key dict of line 98 or an error dict, whose
    ["category"] key is present or not. *)
Inductive Record_ : Type :=
| Observation (o : PriceObservation)
| Failure (error : string) (cat : option Category).

Definition Results : Type := dict Record_.

(** ** The state-and-exception monad of the loop body *)

Record State : Type := mkState {
  results : Results;
  queries : list Query
}.

Definition M (A : Type) : Type := State -> PyResult A * State.

Definition ret {A : Type} (a : A) : M A := fun st => (Ok a, st).

Definition bind {A B : Type} (c : M A) (k : A -> M B) : M B :=
  fun st =>
    match c st with
    | (Ok a, st') => k a st'
    | (Raise e, st') => (Raise e, st')
    end.

Notation "x <- c ;; k" := (bind c (fun x => k))
  (at level 61, c at next level, right associativity).
Notation "c ;;; k" := (bind c (fun _ => k))
  (at level 61, right associativity).

Definition lift {A : Type} (r : PyResult A) : M A := fun st => (r, st).

(** [try: body except <classes matched by handler>: ...]; a handler that
    answers [None] does not match and the exception propagates.  Effects of
    the body before the exception stay. *)
Definition try_except {A : Type} (body : M A)
    (handler : PyExc -> option (M A)) : M A :=
  fun st =>
    match body st with
    | (Ok a, st') => (Ok a, st')
    | (Raise e, st') =>
        match handler e with
        | Some h => h st'
        | None => (Raise e, st')
        end
    end.

(** [results[name] = r] *)
Definition set_result (name : string) (r : Record_) : M unit :=
  fun st => (Ok tt, mkState (dict_set name r (results st)) (queries st)).

(** [yf.Ticker(ticker).history(period="5d")] *)
Definition call_history (prov : Provider) (tick : string)
  : M (dict Series) :=
  fun st =>
    (history prov (queries st) tick,
     mkState (results st) (queries st ++ [History tick])).

(** ** fetch_all *)

Definition pct (current previous : float) : float :=
  (((current - previous) / previous) * 100)%float.

(** Lines 88-96. *)
Definition classify (change : float) : Direction * string :=
  if (abs change <? 0.01)%float then (flat, "●")
  else if (0 <? change)%float then (up, "▲")
  else (down, "▼").

(** Line 102. *)
Definition format_change (change : float) : string :=
  (if (0 <=? change)%float then "+" else "") ++ format_f change 2 ++ "%".

(** Lines 72-77: the series of closes, from the batch frame or, when the
    subscripts raise [KeyError] or [TypeError], from a single query. *)
Definition get_closes (prov : Provider) (data : DataFrame) (tick : string)
  : M Series :=
  try_except
    (x <- lift (getitem_close_ticker data tick) ;; lift (dropna_of x))
    (fun e =>
       match e with
       | KeyError _ | TypeError _ =>
           Some (single <- call_history prov tick ;;
                 s <- lift (getitem single "Close") ;;
                 ret (dropna s))
       | _ => None
       end).

(** Lines 72-110: the body of the loop for one catalog item, after
    [close_col] has been bound at line 70. *)
Definition loop_body_with (close_col : CloseCol) (prov : Provider)
    (data : DataFrame) (name : string) (info : InstrumentSpec) : M unit :=
  let tick := ticker info in
  let ndec := decimals info in
  try_except
    (closes <- get_closes prov data tick ;;
     if (List.length closes <? 2)%nat then
       set_result name (Failure "Insufficient data" None)
     else
       cur <- lift (iloc_neg closes 1) ;;
       prev <- lift (iloc_neg closes 2) ;;
       let current := snd cur in
       let previous := snd prev in
       let change := pct current previous in
       let '(dir, arr) := classify change in
       set_result name
         (Observation
            (mkObservation
               (py_round current (Z.of_nat ndec))
               (py_round previous (Z.of_nat ndec))
               (py_round change 2)
               (format_change change)
               dir arr (category info)
               (fst cur))))
    (fun e =>
       Some (set_result name (Failure (str_exc e) (Some (category info))))).

(** Line 70: the shape check that selects [close_col]. *)
Definition shape_check (data : DataFrame) : bool :=
  isinstance (columns data) (type_of (columns data)).

(** Lines 65-110. *)
Definition loop_body (prov : Provider) (data : DataFrame)
    (name : string) (info : InstrumentSpec) : M unit :=
  loop_body_with
    (if shape_check data then ColPair "Close" (ticker info)
     else ColName "Close")
    prov data name info.

(** Line 64: [for name, info in INSTRUMENTS.items()]. *)
Fixpoint for_items (prov : Provider) (data : DataFrame) (items : Catalog)
  : M unit :=
  match items with
  | [] => ret tt
  | (name, info) :: rest =>
      loop_body prov data name info ;;; for_items prov data rest
  end.

(** [fetch_all] over a catalog: the batch query, then the loop.  A batch
    query that raises ends the run. *)
Definition fetch_all_with (catalog : Catalog) (prov : Provider)
  : PyResult Results * list Query :=
  let tickers := map (fun item => (fst item, ticker (snd item))) catalog in
  let request := map snd tickers in
  match download prov request with
  | Raise e => (Raise e, [Download request])
  | Ok data =>
      match for_items prov data catalog (mkState [] [Download request]) with
      | (Ok _, st) => (Ok (results st), queries st)
      | (Raise e, st) => (Raise e, queries st)
      end
  end.

Definition fetch_all : Provider -> PyResult Results * list Query :=
  fetch_all_with INSTRUMENTS.

(** ** The loop body read as a function

    What one item contributes: its record and the single queries it sends.
    [loop_body_run] proves that [loop_body] computes exactly this. *)

(** The dict of lines 98-107 for the last two rows of the series. *)
Definition observe (info : InstrumentSpec) (cur prev : string * float)
  : PriceObservation :=
  let change := pct (snd cur) (snd prev) in
  mkObservation
    (py_round (snd cur) (Z.of_nat (decimals info)))
    (py_round (snd prev) (Z.of_nat (decimals info)))
    (py_round change 2)
    (format_change change)
    (fst (classify change)) (snd (classify change))
    (category info) (fst cur).

Definition record_of_closes (info : InstrumentSpec) (closes : Series)
  : Record_ :=
  if (List.length closes <? 2)%nat then Failure "Insufficient data" None
  else
    match rev closes with
    | cur :: prev :: _ => Observation (observe info cur prev)
    | _ => Failure "single positional indexer is out-of-bounds"
             (Some (category info))
    end.

Definition record_of (info : InstrumentSpec) (r : PyResult Series)
  : Record_ :=
  match r with
  | Ok closes => record_of_closes info closes
  | Raise e => Failure (str_exc e) (Some (category info))
  end.

(** The exceptions caught at line 74. *)
Definition caught (e : PyExc) : bool :=
  match e with
  | KeyError _ | TypeError _ => true
  | _ => false
  end.

(** Line 73: [data["Close"][ticker].dropna()]. *)
Definition batch_closes (data : DataFrame) (tick : string)
  : PyResult Series :=
  match getitem_close_ticker data tick with
  | Ok x => dropna_of x
  | Raise e => Raise e
  end.

(** Does the batch extraction for this ticker end in the handler of
    line 74? *)
Definition needs_fallback (data : DataFrame) (tick : string) : bool :=
  match batch_closes data tick with
  | Ok _ => false
  | Raise e => caught e
  end.

(** The series a single query yields: [single["Close"].dropna()]. *)
Definition fallback_closes (prov : Provider) (qs : list Query)
    (tick : string) : PyResult Series :=
  match history prov qs tick with
  | Ok single =>
      match getitem single "Close" with
      | Ok s => Ok (dropna s)
      | Raise e => Raise e
      end
  | Raise e => Raise e
  end.

(** The series of one item, given the queries sent so far. *)
Definition closes_of (prov : Provider) (data : DataFrame)
    (qs : list Query) (tick : string) : PyResult Series :=
  match batch_closes data tick with
  | Ok s => Ok s
  | Raise e => if caught e then fallback_closes prov qs tick else Raise e
  end.

Definition fallback_queries (data : DataFrame) (items : Catalog)
  : list Query :=
  map (fun item => History (ticker (snd item)))
      (filter (fun item => needs_fallback data (ticker (snd item))) items).

(** Records of the items in order, the first one processed after the
    queries [qs]. *)
Fixpoint records_of (prov : Provider) (data : DataFrame) (qs : list Query)
    (items : Catalog) : Results :=
  match items with
  | [] => []
  | (name, info) :: rest =>
      (name, record_of info (closes_of prov data qs (ticker info)))
      :: records_of prov data
           (qs ++ (if needs_fallback data (ticker info)
                   then [History (ticker info)] else []))
           rest
  end.

Definition request_of (catalog : Catalog) : list string :=
  map snd (map (fun item => (fst item, ticker (snd item))) catalog).

End FetchPrices.

(** Sample data for the worked runs below. *)
Module FetchExamples.
Import Py FetchPrices.

Definition two_days (a b : float) : Series :=
  [("2026-02-26", a); ("2026-02-27", b)].

(** A batch answer that has closes for three instruments (one of them with
    a missing day) and only an open column for a fourth. *)
Definition sample_frame : DataFrame :=
  MultiFrame
    [ (("Close", "DX-Y.NYB"), two_days 97.5 97.9);
      (("Close", "EURUSD=X"), two_days 1.1812 1.1799);
      (("Close", "GC=F"), [("2026-02-26", nan); ("2026-02-27", 5230.5)]);
      (("Open", "JPY=X"), two_days 150 151) ]%float.

(** Single queries answer for one ticker and fail for the others. *)
Definition sample_provider : Provider :=
  mkProvider
    (fun _ => Ok sample_frame)
    (fun _ tick =>
       if String.eqb tick "JPY=X"
       then Ok [("Close", two_days 155.9 156.05)]%float
       else Raise (OtherException "ConnectionError" "no route to host")).

Definition instrument_A : InstrumentSpec := mkInstrument "A" 2 primary None.
Definition catalog_A : Catalog := [("A", instrument_A)].

(** A provider whose batch answer has the given close series for "A" and
    whose single queries return an empty frame. *)
Definition provider_A (closes : Series) : Provider :=
  mkProvider
    (fun _ => Ok (MultiFrame [(("Close", "A"), closes)]))
    (fun _ _ => Ok []).

Definition catalog_AB : Catalog :=
  [("A", instrument_A); ("B", mkInstrument "B" 4 secondary None)].

(** The batch answer lacks "B"; the single query answers. *)
Definition provider_AB : Provider :=
  mkProvider
    (fun _ => Ok (MultiFrame [(("Close", "A"), two_days 100 102)]))%float
    (fun _ _ => Ok [("Close", two_days 1.25 1.2501)])%float.

(** The observation of lines 98-107 for closes 100.00 then 102.00. *)
Definition observation_A : PriceObservation :=
  mkObservation 102 100 2 "+2.00%" up "▲" primary "2026-02-27".

(** How pandas reads the labels of the runs below on an index of days:
    "2026" is a year and selects the rows of that year; "MAR" is the month of
    March of the year 1, which no timestamp can hold; the other labels used
    are not dates. *)
Definition sample_at_label (s : Series) (label : string) : PyResult Item :=
  if String.eqb label "2026" then
    Ok (ItemSeries (filter (fun row => String.prefix "2026-" (fst row)) s))
  else if String.eqb label "MAR" then
    Raise (OtherException "OutOfBoundsDatetime"
             "Out of bounds nanosecond timestamp: 1-03-01 00:00:00")
  else Raise (KeyError label).

(** A batch answer with one-level columns, the shape of a response for a
    single instrument. *)
Definition flat_frame : DataFrame :=
  FlatFrame [("Close", two_days 100 102)]%float sample_at_label.

Definition provider_flat : Provider :=
  mkProvider
    (fun _ => Ok flat_frame)
    (fun _ _ => Ok [("Close", two_days 1.25 1.2501)])%float.

(** Instruments whose tickers read as dates. *)
Definition instrument_2026 : InstrumentSpec :=
  mkInstrument "2026" 2 primary None.
Definition instrument_MAR : InstrumentSpec :=
  mkInstrument "MAR" 2 secondary None.
Definition catalog_dates : Catalog :=
  [("Y", instrument_2026); ("M", instrument_MAR)].

End FetchExamples.

(* ================================================================== *)
(** * verify.py *)
(* ================================================================== *)

Module Verify.
Import Py.
Local Open Scope list_scope.

(** A Python [str] is a sequence of code points; bytes are integers below
    256. *)
Definition Text : Type := list Z.
Definition Bytes : Type := list Z.

(** An ASCII literal as text. *)
Definition txt (s : string) : Text :=
  map (fun a => Z.of_N (N_of_ascii a)) (list_ascii_of_string s).

Definition LT : Z := 60.   (* '<' *)
Definition GT : Z := 62.   (* '>' *)
Definition QUOTE : Z := 34.
Definition SPACE : Z := 32.

Fixpoint text_eqb (a b : Text) : bool :=
  match a, b with
  | [], [] => true
  | x :: a', y :: b' => (x =? y) && text_eqb a' b'
  | _, _ => false
  end.

(** The class [\s] of a str pattern, which is also what [str.strip]
    removes: the code points for which [str.isspace] holds. *)
Definition is_space (c : Z) : bool :=
  ((9 <=? c) && (c <=? 13)) || ((28 <=? c) && (c <=? 32)) ||
  (c =? 133) || (c =? 160) || (c =? 5760) ||
  ((8192 <=? c) && (c <=? 8202)) ||
  (c =? 8232) || (c =? 8233) || (c =? 8239) || (c =? 8287) || (c =? 12288).

(** ** Matching the three patterns *)

(** If [pat] is a prefix of [s], what follows it. *)
Fixpoint after_prefix (pat s : Text) : option Text :=
  match pat, s with
  | [], _ => Some s
  | p :: pat', c :: s' => if p =? c then after_prefix pat' s' else None
  | _ :: _, [] => None
  end.

(** [s] cut at its first ['>']: what precedes it and what follows it. *)
Fixpoint split_gt (s : Text) : option (Text * Text) :=
  match s with
  | [] => None
  | c :: s' =>
      if c =? GT then Some ([], s')
      else
        match split_gt s' with
        | Some (t, rest) => Some (c :: t, rest)
        | None => None
        end
  end.

(** [s] cut at the first occurrence of [pat]. *)
Fixpoint split_at (pat s : Text) : option (Text * Text) :=
  match after_prefix pat s with
  | Some rest => Some ([], rest)
  | None =>
      match s with
      | [] => None
      | c :: s' =>
          match split_at pat s' with
          | Some (before, rest) => Some (c :: before, rest)
          | None => None
          end
      end
  end.

(** [<article[^>]*>(.*?)</article>] with DOTALL, tried at the start of [s]:
    group 1.  [[^>]*] can only end at the first ['>'], and the lazy [.*?]
    ends at the first closing tag after it. *)
Definition match_article (s : Text) : option Text :=
  match after_prefix (txt "<article") s with
  | None => None
  | Some rest =>
      match split_gt rest with
      | None => None
      | Some (_, inner) =>
          match split_at (txt "</article>") inner with
          | None => None
          | Some (body, _) => Some body
          end
      end
  end.

(** [re.search]: the match at the leftmost position that has one. *)
Fixpoint search_article (s : Text) : option Text :=
  match match_article s with
  | Some body => Some body
  | None =>
      match s with
      | [] => None
      | _ :: s' => search_article s'
      end
  end.

(** [<[^>]+>] tried at the start of [s]: what follows the match.  The
    class needs one character at least, so ["<>"] is no match. *)
Definition match_tag (s : Text) : option Text :=
  match s with
  | c :: rest =>
      if c =? LT then
        match split_gt rest with
        | Some (_ :: _, after) => Some after
        | _ => None
        end
      else None
  | [] => None
  end.

(** [re.sub(r'<[^>]+>', '', s)]: matches are found from left to right, each
    search starting where the previous match ended.  [fuel] bounds the
    number of steps; [length s] is enough. *)
Fixpoint sub_tags (fuel : nat) (s : Text) : Text :=
  match fuel with
  | O => s
  | S fuel' =>
      match match_tag s with
      | Some after => sub_tags fuel' after
      | None =>
          match s with
          | [] => []
          | c :: s' => c :: sub_tags fuel' s'
          end
      end
  end.

Definition strip_tags (s : Text) : Text := sub_tags (List.length s) s.

(** [re.sub(r'\s+', ' ', s)]: every maximal run of white space becomes one
    space.  [in_run] tells that the previous character was white space. *)
Fixpoint collapse_from (in_run : bool) (s : Text) : Text :=
  match s with
  | [] => []
  | c :: s' =>
      if is_space c then
        if in_run then collapse_from true s'
        else SPACE :: collapse_from true s'
      else c :: collapse_from false s'
  end.

Definition collapse (s : Text) : Text := collapse_from false s.

Fixpoint lstrip (s : Text) : Text :=
  match s with
  | [] => []
  | c :: s' => if is_space c then lstrip s' else s
  end.

Definition rstrip (s : Text) : Text := rev (lstrip (rev s)).

(** [str.strip()] *)
Definition strip (s : Text) : Text := rstrip (lstrip s).

(** Lines 21-22: the text that is hashed. *)
Definition normalize (body : Text) : Text :=
  strip (collapse (strip_tags body)).

(** [[a-f0-9]] *)
Definition is_hex (c : Z) : bool :=
  ((48 <=? c) && (c <=? 57)) || ((97 <=? c) && (c <=? 102)).

(** [data-hash="([a-f0-9]{64})"] tried at the start of [s]: group 1. *)
Definition match_hash (s : Text) : option Text :=
  match after_prefix (txt "data-hash=" ++ [QUOTE]) s with
  | None => None
  | Some rest =>
      let digits := firstn 64 rest in
      if (List.length digits =? 64)%nat && forallb is_hex digits then
        match skipn 64 rest with
        | c :: _ => if c =? QUOTE then Some digits else None
        | [] => None
        end
      else None
  end.

Fixpoint search_hash (s : Text) : option Text :=
  match match_hash s with
  | Some h => Some h
  | None =>
      match s with
      | [] => None
      | _ :: s' => search_hash s'
      end
  end.

(** ** UTF-8 and SHA-256 *)

(** [text.encode('utf-8')], for text read from a UTF-8 file (no
    surrogates). *)
Definition utf8_char (c : Z) : Bytes :=
  if c <? 128 then [c]
  else if c <? 2048 then
    [Z.lor 192 (Z.shiftr c 6); Z.lor 128 (Z.land c 63)]
  else if c <? 65536 then
    [Z.lor 224 (Z.shiftr c 12);
     Z.lor 128 (Z.land (Z.shiftr c 6) 63);
     Z.lor 128 (Z.land c 63)]
  else
    [Z.lor 240 (Z.shiftr c 18);
     Z.lor 128 (Z.land (Z.shiftr c 12) 63);
     Z.lor 128 (Z.land (Z.shiftr c 6) 63);
     Z.lor 128 (Z.land c 63)].

Definition utf8 (s : Text) : Bytes := flat_map utf8_char s.

Module SHA256.

Definition w32 (x : Z) : Z := Z.land x 0xffffffff.
Definition add32 (x y : Z) : Z := w32 (x + y).
Definition rotr (n x : Z) : Z :=
  w32 (Z.lor (Z.shiftr x n) (Z.shiftl x (32 - n))).
Definition shr (n x : Z) : Z := Z.shiftr x n.
Definition not32 (x : Z) : Z := Z.lxor x 0xffffffff.

Definition Ch (x y z : Z) : Z :=
  Z.lxor (Z.land x y) (Z.land (not32 x) z).
Definition Maj (x y z : Z) : Z :=
  Z.lxor (Z.lxor (Z.land x y) (Z.land x z)) (Z.land y z).
Definition Sigma0 (x : Z) : Z :=
  Z.lxor (Z.lxor (rotr 2 x) (rotr 13 x)) (rotr 22 x).
Definition Sigma1 (x : Z) : Z :=
  Z.lxor (Z.lxor (rotr 6 x) (rotr 11 x)) (rotr 25 x).
Definition sigma0 (x : Z) : Z :=
  Z.lxor (Z.lxor (rotr 7 x) (rotr 18 x)) (shr 3 x).
Definition sigma1 (x : Z) : Z :=
  Z.lxor (Z.lxor (rotr 17 x) (rotr 19 x)) (shr 10 x).

(** The round constants are the first 32 bits of the fractional parts of
    the cube roots of the first 64 primes, and the initial hash value those
    of the square roots of the first 8 primes (FIPS 180-4, 4.2.2, 5.3.3). *)
Definition is_prime (n : Z) : bool :=
  (2 <=? n) &&
  forallb (fun d => negb (n mod d =? 0))
          (map Z.of_nat (seq 2 (Z.to_nat n - 2))).

Definition first_primes (count : nat) : list Z :=
  firstn count (filter is_prime (map Z.of_nat (seq 2 400))).

(** The integer cube root, bit by bit from bit [bits - 1] down. *)
Fixpoint cbrt_bits (bits : nat) (n r : Z) : Z :=
  match bits with
  | O => r
  | S b =>
      let r' := r + 2 ^ Z.of_nat b in
      cbrt_bits b n (if r' ^ 3 <=? n then r' else r)
  end.

Definition K : list Z :=
  Eval vm_compute in
    map (fun p => w32 (cbrt_bits 48 (p * 2 ^ 96) 0)) (first_primes 64).

Definition H0 : list Z :=
  Eval vm_compute in
    map (fun p => w32 (Z.sqrt (p * 2 ^ 64))) (first_primes 8).

(** Big-endian bytes of [x], [n] of them. *)
Fixpoint be_bytes (n : nat) (x : Z) : Bytes :=
  match n with
  | O => []
  | S n' => Z.land (Z.shiftr x (8 * Z.of_nat n')) 255 :: be_bytes n' x
  end.

(** The message followed by 0x80, zeros up to 56 modulo 64, and its length
    in bits on 8 bytes. *)
Definition pad (msg : Bytes) : Bytes :=
  let len := Z.of_nat (List.length msg) in
  let fill := Z.to_nat ((55 - len) mod 64) in
  msg ++ [128] ++ repeat 0 fill ++ be_bytes 8 (8 * len).

(** Big-endian 32-bit words of a byte string whose length is a multiple
    of 4. *)
Fixpoint words (fuel : nat) (b : Bytes) : list Z :=
  match fuel with
  | O => []
  | S fuel' =>
      match b with
      | b0 :: b1 :: b2 :: b3 :: rest =>
          (Z.shiftl b0 24 + Z.shiftl b1 16 + Z.shiftl b2 8 + b3)
          :: words fuel' rest
      | _ => []
      end
  end.

(** The schedule, latest word first: [n] more words. *)
Fixpoint extend (n : nat) (w : list Z) : list Z :=
  match n with
  | O => w
  | S n' =>
      let next :=
        add32 (add32 (sigma1 (nth 1 w 0)) (nth 6 w 0))
              (add32 (sigma0 (nth 14 w 0)) (nth 15 w 0)) in
      extend n' (next :: w)
  end.

Definition schedule (block : list Z) : list Z :=
  rev (extend 48 (rev block)).

Record Regs : Type := mkRegs { ra : Z; rb : Z; rc : Z; rd : Z;
                               re : Z; rf : Z; rg : Z; rh : Z }.

Definition round (r : Regs) (kw : Z * Z) : Regs :=
  let t1 := add32 (add32 (add32 (rh r) (Sigma1 (re r)))
                         (add32 (Ch (re r) (rf r) (rg r)) (fst kw)))
                  (snd kw) in
  let t2 := add32 (Sigma0 (ra r)) (Maj (ra r) (rb r) (rc r)) in
  mkRegs (add32 t1 t2) (ra r) (rb r) (rc r)
         (add32 (rd r) t1) (re r) (rf r) (rg r).

Definition regs_of (h : list Z) : Regs :=
  mkRegs (nth 0 h 0) (nth 1 h 0) (nth 2 h 0) (nth 3 h 0)
         (nth 4 h 0) (nth 5 h 0) (nth 6 h 0) (nth 7 h 0).

Definition compress (h : list Z) (block : list Z) : list Z :=
  let r := fold_left round (combine K (schedule block)) (regs_of h) in
  map (fun p => add32 (fst p) (snd p))
      (combine h [ra r; rb r; rc r; rd r; re r; rf r; rg r; rh r]).

(** The words of the padded message, 16 per block. *)
Fixpoint blocks (fuel : nat) (h : list Z) (w : list Z) : list Z :=
  match fuel with
  | O => h
  | S fuel' =>
      match w with
      | [] => h
      | _ => blocks fuel' (compress h (firstn 16 w)) (skipn 16 w)
      end
  end.

Definition digest (msg : Bytes) : Bytes :=
  let p := pad msg in
  let w := words (List.length p) p in
  flat_map (be_bytes 4) (blocks (List.length w) H0 w).

Definition hex_digit (n : Z) : Z := if n <? 10 then 48 + n else 87 + n.

(** [hexdigest()]: two lowercase hex digits per byte. *)
Definition hexdigest (msg : Bytes) : Text :=
  flat_map (fun b => [hex_digit (Z.shiftr b 4); hex_digit (Z.land b 15)])
           (digest msg).

End SHA256.

(** ** verify *)

(** Line 23. *)
Definition computed_hash (body : Text) : Text :=
  SHA256.hexdigest (utf8 (normalize body)).

(** [verify(filename)] for a file with the given content: the returned
    tuple (filename, published, computed, status). *)
Definition verify (filename : string) (content : Text)
  : string * option Text * option Text * string :=
  match search_article content with
  | None => (filename, None, None, "No <article> tag found")
  | Some body =>
      let computed := computed_hash body in
      match search_hash content with
      | None => (filename, None, Some computed, "No published hash found")
      | Some published =>
          (filename, Some published, Some computed,
           if text_eqb computed published then "VERIFIED" else "MISMATCH")
      end
  end.

Definition computed_of (r : string * option Text * option Text * string)
  : option Text := snd (fst r).
Definition status_of (r : string * option Text * option Text * string)
  : string := snd r.

(** ** Edits of an article body *)

Definition all_space (u : Text) : bool := forallb is_space u.

(** Is the last ['<'] of [a] left without a ['>'] after it?  [opened]
    answers for what precedes [a]. *)
Fixpoint pending_from (opened : bool) (a : Text) : bool :=
  match a with
  | [] => opened
  | c :: a' =>
      if c =? LT then pending_from true a'
      else if c =? GT then pending_from false a'
      else pending_from opened a'
  end.

(** Every ['<'] of [a] has a ['>'] after it in [a]. *)
Definition closed (a : Text) : bool := negb (pending_from false a).

(** Bodies that differ by a sequence of edits, each of which
    - replaces a non-empty run of white space by another one,
    - adds white space in front or at the end,
    - inserts a tag ['<' t '>'], where [t] is not empty and has no ['>'],
      at a place where no ['<'] is pending,
    or undoes one of these. *)
Inductive body_edit : Text -> Text -> Prop :=
| edit_space (a u v b : Text) :
    u <> [] -> v <> [] -> all_space u = true -> all_space v = true ->
    body_edit (a ++ u ++ b) (a ++ v ++ b)
| edit_lead (u b : Text) :
    all_space u = true -> body_edit b (u ++ b)
| edit_trail (u b : Text) :
    all_space u = true -> body_edit b (b ++ u)
| edit_tag (a t b : Text) :
    t <> [] -> ~ In GT t -> closed a = true ->
    body_edit (a ++ b) (a ++ LT :: t ++ GT :: b)
| edit_sym (x y : Text) : body_edit y x -> body_edit x y
| edit_trans (x y z : Text) : body_edit x y -> body_edit y z -> body_edit x z.

End Verify.

(** Sample files for the worked runs below. *)
Module VerifyExamples.
Import Verify.
Local Open Scope list_scope.

(** sha256("hello") *)
Definition hello_hash : Text :=
  txt "2cf24dba5fb0a30e26e83b2ac5b9e29e1b161e5c1fa7425e73043362938b9824".

Definition footer : Text :=
  txt "<footer data-hash=" ++ [QUOTE] ++ hello_hash ++ [QUOTE] ++
  txt "></footer>".

Definition page (body : Text) : Text :=
  txt "<article class='signal'>" ++ body ++ txt "</article>" ++ footer.

Definition plain_body : Text := txt "hello".

(** The same text inside a span whose attribute value holds a ['>']. *)
Definition span_body : Text := txt "<span title='a>b'>hello</span>".

(** A body with a bare ['<'] in its text, and the same body with its last
    word set in bold. *)
Definition compare_body : Text := txt "1 < 2 ok".
Definition compare_bold_body : Text := txt "1 < 2 <b>ok</b>".

(** The same text, emphasised, on lines of its own. *)
Definition spaced_body : Text :=
  [10; 32; 32] ++ txt "<em>hello</em>" ++ [10].

End VerifyExamples.

From Stdlib Require Import Sorted Permutation.

(* ================================================================== *)
(** * Notions used to describe the searches of verify.py *)
(* ================================================================== *)

Module VerifyNotions.
Import Verify.
Local Open Scope list_scope.

(** In [a ++ pat], the first place where [pat] starts is the end of [a]:
    no occurrence of [pat] begins inside [a]. *)
Definition first_at (pat a : Text) : Prop :=
  forall a1 a2, a = a1 ++ a2 -> a2 <> [] -> after_prefix pat (a2 ++ pat) = None.

(** [pat] occurs somewhere in [s]. *)
Definition occurs (pat s : Text) : Prop :=
  exists x y, s = x ++ pat ++ y.

Definition OPEN : Text := txt "<article".
Definition CLOSE : Text := txt "</article>".
Definition HASH_ATTR : Text := txt "data-hash=" ++ [QUOTE].

(** No place of [o] starts a tag, as [<[^>]+>] understands tags. *)
Definition tag_free (o : Text) : Prop :=
  forall s1 s2, o = s1 ++ s2 -> match_tag s2 = None.

End VerifyNotions.

(* ================================================================== *)
(** * verify.py: the command line *)
(* ================================================================== *)

Module VerifyMain.
Import Py Verify.
Local Open Scope list_scope.

(** What a name refers to.  A name of a directory need not be a text
    file: the patterns of line 36 also list directories and symbolic links
    whose target is missing, and a file may be unreadable or hold bytes that
    are not UTF-8. *)
Inductive Node : Type :=
| TextFile (content : Text)
    (* opens and decodes; [content] is what [f.read()] returns *)
| NoRead (e : PyExc)
    (* exists, but [open] or [read] raises [e]: a directory
       (IsADirectoryError), a file without read permission
       (PermissionError), bytes that are not UTF-8 (UnicodeDecodeError) *)
| Dangling.
    (* a symbolic link to nothing: listed in its directory, but
       [os.path.exists] is false *)

(** The names of the working directory, in the order in which the directory
    lists them, and the other paths that can be named. *)
Definition FileSystem : Type := dict Node.

(** [os.path.exists] *)
Definition path_exists (fs : FileSystem) (f : string) : bool :=
  match dict_get f fs with
  | Some (TextFile _) | Some (NoRead _) => true
  | Some Dangling | None => false
  end.

(** Lines 14-15: [open(filename, "r", encoding="utf-8")] and [f.read()]. *)
Definition read_text (fs : FileSystem) (f : string) : PyResult Text :=
  match dict_get f fs with
  | Some (TextFile content) => Ok content
  | Some (NoRead e) => Raise e
  | Some Dangling | None =>
      Raise (OtherException "FileNotFoundError"
               ("[Errno 2] No such file or directory: '" ++ f ++ "'"))
  end.

(** Lines 13-32: [verify(filename)], which handles no exception. *)
Definition verify_file (fs : FileSystem) (f : string)
  : PyResult (string * option Text * option Text * string) :=
  match read_text fs f with
  | Ok content => Ok (verify f content)
  | Raise e => Raise e
  end.

Fixpoint has_slash (s : string) : bool :=
  match s with
  | EmptyString => false
  | String a s' => Ascii.eqb a "/" || has_slash s'
  end.

Definition suffix (s1 s2 : string) : bool :=
  (String.length s1 <=? String.length s2)%nat &&
  String.eqb s1
    (substring (String.length s2 - String.length s1) (String.length s1) s2).

(** [fnmatch(name, prefix + "*" + suffix)] for a name of the working
    directory. *)
Definition glob_match (pre suf name : string) : bool :=
  negb (has_slash name) &&
  String.prefix pre name && suffix suf name &&
  (String.length pre + String.length suf <=? String.length name)%nat.

(** [glob.glob(prefix + "*" + suffix)], in the order of the directory: the
    names that match, whatever they refer to. *)
Definition glob (fs : FileSystem) (pre suf : string) : list string :=
  filter (glob_match pre suf) (keys fs).

(** The order of [sorted] on strings. *)
Definition le_str (a b : string) : Prop := String.leb a b = true.

(** [sorted] on strings. *)
Fixpoint insert_sorted (x : string) (l : list string) : list string :=
  match l with
  | [] => [x]
  | y :: l' => if String.leb x y then x :: l else y :: insert_sorted x l'
  end.

Fixpoint sorted (l : list string) : list string :=
  match l with
  | [] => []
  | x :: l' => insert_sorted x (sorted l')
  end.

(** Line 36. *)
Definition all_files (fs : FileSystem) : list string :=
  sorted (glob fs "signal-" ".html" ++ glob fs "weekly-" ".html" ++
          glob fs "q2-" ".html").

(** A hash as it is printed. *)
Definition show (t : Text) : string :=
  string_of_list_ascii (map (fun b => ascii_of_N (Z.to_N b)) (utf8 t)).

Definition truthy (t : option Text) : bool :=
  match t with
  | Some (_ :: _) => true
  | _ => false
  end.

Definition show_opt (t : option Text) : string :=
  match t with
  | Some h => show h
  | None => "None"
  end.

(** Lines 48-53: what is printed for the tuple that [verify] returned. *)
Definition report_lines (r : string * option Text * option Text * string)
  : list string :=
  let '(name, pub, comp, status) := r in
  let icon := if String.eqb status "VERIFIED" then "✅" else "❌" in
  ("  " ++ icon ++ " " ++ name ++ ": " ++ status)%string ::
  (if truthy pub && truthy comp && String.eqb status "MISMATCH"
   then [("     Published: " ++ show_opt pub)%string;
         ("     Computed:  " ++ show_opt comp)%string]
   else []).

(** How the process ends: by reaching the end of the script, by [sys.exit],
    or by an exception that nothing handles (a traceback). *)
Inductive Ending : Type :=
| Returned
| SysExit (code : Z)
| Traceback (e : PyExc).

Definition exit_status (x : Ending) : Z :=
  match x with
  | Returned => 0
  | SysExit code => code
  | Traceback _ => 1
  end.

(** Lines 44-53: the loop over the files; what was printed, and how the
    loop ended.  An exception raised by [verify] ends it. *)
Fixpoint for_files (fs : FileSystem) (files : list string)
  : list string * Ending :=
  match files with
  | [] => ([], Returned)
  | f :: rest =>
      if negb (path_exists fs f) then
        let '(out, x) := for_files fs rest in
        (("  File not found: " ++ f)%string :: out, x)
      else
        match verify_file fs f with
        | Raise e => ([], Traceback e)
        | Ok r =>
            let '(out, x) := for_files fs rest in
            (report_lines r ++ out, x)
        end
  end.

Definition usage : list string :=
  ["Usage: python3 verify.py <filename.html>";
   "       python3 verify.py --all"].

(** Lines 34-53: the printed lines and the end of the process. *)
Definition main (argv : list string) (fs : FileSystem)
  : list string * Ending :=
  match argv with
  | _ :: arg :: _ =>
      for_files fs (if String.eqb arg "--all" then all_files fs else [arg])
  | _ => (usage, SysExit 1)
  end.

(** The lines that the loop prints for one file, when [verify] raises
    nothing for it. *)
Definition report (fs : FileSystem) (f : string) : list string :=
  if negb (path_exists fs f) then ["  File not found: " ++ f]%string
  else
    match verify_file fs f with
    | Ok r => report_lines r
    | Raise _ => []
    end.

(** [open] or [read] raises for this name. *)
Definition unreadable (fs : FileSystem) (f : string) : bool :=
  match dict_get f fs with
  | Some (NoRead _) => true
  | _ => false
  end.

End VerifyMain.

Module VerifyMainExamples.
Import Py Verify VerifyExamples VerifyMain.
Local Open Scope list_scope.

(** A working directory with two signals, a weekly note whose article was
    changed after publication, a quarterly page without a hash, a link to a
    weekly note that was removed, and files that the patterns leave out. *)
Definition site : FileSystem :=
  [ ("weekly-09.html", TextFile (page span_body));
    ("signal-20260227.html", TextFile (page plain_body));
    ("index.html", TextFile (page plain_body));
    ("q2-outlook.html", TextFile (txt "<article>soon</article>"));
    ("weekly-08.html", Dangling);
    ("signal-20260226.html", TextFile (page spaced_body));
    ("signal-draft.htm", TextFile (page plain_body)) ].

(** The same directory with a sub-directory whose name matches a pattern. *)
Definition site_with_directory : FileSystem :=
  site ++
  [("signal-20260301.html",
    NoRead (OtherException "IsADirectoryError"
              "[Errno 21] Is a directory: 'signal-20260301.html'"))].

End VerifyMainExamples.

(* ================================================================== *)
(** * [str] of a float *)
(* ================================================================== *)

Module PyFloatStr.
Import Py.

(** A positive finite float [m * 2^e] as a fraction. *)
Definition fraction_of (m : positive) (e : Z) : Z * Z :=
  if 0 <=? e then (Zpos m * 2 ^ e, 1) else (Zpos m, 2 ^ (- e)).

(** [num / den < 10^k] *)
Definition below_pow10 (num den k : Z) : bool :=
  if 0 <=? k then num <? den * 10 ^ k else num * 10 ^ (- k) <? den.

(** The least [k] from [k] on with [num / den < 10^k]. *)
Fixpoint decimal_point (fuel : nat) (num den k : Z) : Z :=
  match fuel with
  | O => k
  | S fuel' =>
      if below_pow10 num den k then k
      else decimal_point fuel' num den (k + 1)
  end.

(** The [k] with [10^(k-1) <= num / den < 10^k], searched from an
    estimate by the binary logarithm that is at most 2 too low. *)
Definition decpt_of (num den : Z) : Z :=
  let l := Z.log2 num - Z.log2 den in
  decimal_point 6 num den ((l - 1) * 30103 / 100000 - 1).

(** Does the decimal [c * 10^(-s)] read back as the float [m * 2^e]? *)
Definition reads_back (m : positive) (e : Z) (c s : Z) : bool :=
  match c * 10 ^ Z.max (- s) 0 with
  | Zpos n =>
      SFeqb (SF64div (S754_finite false n 0)
                     (S754_finite false (Z.to_pos (10 ^ Z.max s 0)) 0))
            (S754_finite false m e)
  | _ => false
  end.

(** The shortest decimal that reads back as the float, and the nearest one
    when two of that length do: its digits as a number, and how many were
    asked for.  [nd] runs up to 17, which always reads back. *)
Fixpoint shortest (fuel : nat) (m : positive) (e : Z) (num den k nd : Z)
  : Z * Z :=
  match fuel with
  | O => (0, nd)
  | S fuel' =>
      let s := nd - k in
      let n := num * 10 ^ Z.max s 0 in
      let d := den * 10 ^ Z.max (- s) 0 in
      let lo := n / d in
      let r := n mod d in
      let ok_lo := reads_back m e lo s in
      let ok_hi := negb (r =? 0) && reads_back m e (lo + 1) s in
      if ok_lo && ok_hi then
        match 2 * r ?= d with
        | Lt => (lo, nd)
        | Gt => (lo + 1, nd)
        | Eq => (if Z.even lo then lo else lo + 1, nd)
        end
      else if ok_lo then (lo, nd)
      else if ok_hi then (lo + 1, nd)
      else shortest fuel' m e num den k (nd + 1)
  end.

(** Trailing zeros are not digits of the result. *)
Fixpoint strip_zeros (fuel : nat) (c : Z) : Z :=
  match fuel with
  | O => c
  | S fuel' =>
      if (0 <? c) && (c mod 10 =? 0) then strip_zeros fuel' (c / 10) else c
  end.

(** dtoa in mode 0: the digits [ds] and the position [decpt] of the
    decimal point, the value being [0.ds * 10^decpt]. *)
Definition shortest_digits (m : positive) (e : Z) : string * Z :=
  let '(num, den) := fraction_of m e in
  let k := decpt_of num den in
  let '(c, nd) := shortest 17 m e num den k 1 in
  (string_of_Z (strip_zeros 18 c),
   if c =? 10 ^ nd then k + 1 else k).

(** Exponents are written with a sign and two digits at least. *)
Definition exponent_str (x : Z) : string :=
  ((if (x <? 0)%Z then "-" else "+") ++ zero_pad 2 (Z.abs x))%string.

(** [repr(x)], which is also [str(x)] and [format(x, "")]: fixed notation
    when the decimal point falls within -4 < decpt <= 16, with ".0" added
    to an integer; otherwise exponent notation. *)
Definition float_str (x : float) : string :=
  match Prim2SF x with
  | S754_nan => "nan"
  | S754_infinity s => ((if s then "-" else "") ++ "inf")%string
  | S754_zero s => ((if s then "-" else "") ++ "0.0")%string
  | S754_finite s m e =>
      let '(ds, decpt) := shortest_digits m e in
      let n := Z.of_nat (String.length ds) in
      ((if s then "-" else "") ++
       (if ((decpt <=? -4) || (16 <? decpt))%Z then
          substring 0 1 ds ++
          (if (1 <? n)%Z then "." ++ substring 1 (String.length ds - 1) ds
           else "") ++
          "e" ++ exponent_str (decpt - 1)%Z
        else if (decpt <=? 0)%Z then
          "0." ++ zeros (Z.to_nat (- decpt)) ++ ds
        else if (decpt <? n)%Z then
          substring 0 (Z.to_nat decpt) ds ++ "." ++
          substring (Z.to_nat decpt) (String.length ds - Z.to_nat decpt) ds
        else
          ds ++ zeros (Z.to_nat (decpt - n)) ++ ".0"))%string
  end.

End PyFloatStr.

(* ================================================================== *)
(** * tools/fetch_prices.py: the table and the CSV *)
(* ================================================================== *)

Module Printing.
Import Py FetchPrices PyFloatStr.
Local Open Scope list_scope.

(** What [print] was called with, call by call; [print()] is [""]. *)
Definition Output : Type := list string.

Definition nl : string := String (ascii_of_nat 10) EmptyString.

(** [len] of a str held as UTF-8: the bytes that start a character. *)
Fixpoint py_len (s : string) : nat :=
  match s with
  | EmptyString => O
  | String a s' =>
      let b := N_of_ascii a in
      ((if (128 <=? b)%N && (b <? 192)%N then 0 else 1) + py_len s')%nat
  end.

Fixpoint repeat_str (s : string) (n : nat) : string :=
  match n with
  | O => EmptyString
  | S n' => (s ++ repeat_str s n')%string
  end.

(** [format(s, "<w")] and [format(s, ">w")] *)
Definition ljust (w : nat) (s : string) : string :=
  (s ++ repeat_str " " (w - py_len s))%string.
Definition rjust (w : nat) (s : string) : string :=
  (repeat_str " " (w - py_len s) ++ s)%string.

Definition category_str (c : Category) : string :=
  match c with
  | primary => "primary"
  | secondary => "secondary"
  | supplementary => "supplementary"
  end.

Definition direction_str (d : Direction) : string :=
  match d with
  | up => "up"
  | down => "down"
  | flat => "flat"
  end.

(** [data.get("category")] *)
Definition record_category (r : Record_) : option Category :=
  match r with
  | Observation o => Some (obs_category o)
  | Failure _ cat => cat
  end.

Definition category_eqb (a b : Category) : bool :=
  match a, b with
  | primary, primary | secondary, secondary
  | supplementary, supplementary => true
  | _, _ => false
  end.

Definition in_category (c : Category) (r : Record_) : bool :=
  match record_category r with
  | Some c' => category_eqb c' c
  | None => false
  end.

Definition label (c : Category) : string :=
  match c with
  | primary => "▌ PRIMARY (Price Strip)"
  | secondary => "▌ SECONDARY (Extended Table)"
  | supplementary => "▌ SUPPLEMENTARY"
  end.

Definition indicator (d : Direction) : string :=
  match d with
  | up => "🟢"
  | down => "🔴"
  | flat => "🟡"
  end.

(** Lines 132-140: the line of one record. *)
Definition table_row (name : string) (r : Record_) : string :=
  match r with
  | Failure e _ => ("  " ++ ljust 12 name ++ " ERROR: " ++ e)%string
  | Observation o =>
      let price_str := rjust 12 (float_str (price o)) in
      let chg_str := (arrow o ++ " " ++ rjust 8 (change_str o))%string in
      ("  " ++ ljust 12 name ++ " " ++ price_str ++ "   " ++ chg_str ++
       "  " ++ indicator (direction o) ++ "   (prev: " ++
       float_str (prev_close o) ++ ")")%string
  end.

(** Lines 123-142: one category. *)
Definition table_section (c : Category) (results : Results) : Output :=
  [("  " ++ label c)%string; ("  " ++ repeat_str "─" 66)%string] ++
  flat_map (fun item =>
              if in_category c (snd item)
              then [table_row (fst item) (snd item)] else [])
           results ++
  [""%string].

(** Lines 122-142. *)
Definition table_sections (results : Results) : Output :=
  flat_map (fun c => table_section c results)
           [primary; secondary; supplementary].

Definition table_header (now : string) : Output :=
  [ (nl ++ repeat_str "═" 72)%string;
    "  muFX SIGNAL CHECK — PRICE DATA"%string;
    ("  Generated: " ++ now)%string;
    (repeat_str "═" 72 ++ nl)%string ].

(** [.get('date', 'N/A')] *)
Definition record_date (r : Record_) : string :=
  match r with
  | Observation o => date o
  | Failure _ _ => "N/A"
  end.

(** [print_table]: what is printed, and the exception that ends it, if
    any.  [now] is the formatted clock. *)
Definition print_table (now : string) (results : Results)
  : Output * option PyExc :=
  let top := table_header now ++ table_sections results ++
             [repeat_str "═" 72] in
  match results with
  | [] => (top, Some (OtherException "StopIteration" ""))
  | (_, first) :: _ =>
      (top ++
       [ ("  Data date: " ++ record_date first)%string;
         "  Source: Yahoo Finance via yfinance"%string;
         (repeat_str "═" 72 ++ nl)%string ],
       None)
  end.

(** Lines 163-167: the row of one record. *)
Definition csv_row (name : string) (r : Record_) : string :=
  match r with
  | Failure _ _ => (name ++ ",ERROR,,,,,")%string
  | Observation o =>
      (name ++ "," ++ float_str (price o) ++ "," ++
       float_str (prev_close o) ++ "," ++ float_str (change_pct o) ++ "," ++
       direction_str (direction o) ++ "," ++
       category_str (obs_category o) ++ "," ++ date o)%string
  end.

(** The number of commas of a line. *)
Fixpoint commas (s : string) : nat :=
  match s with
  | EmptyString => O
  | String a s' => ((if Ascii.eqb a "," then 1 else 0) + commas s')%nat
  end.

(** Records that have a ["category"] key. *)
Definition categorized (item : string * Record_) : bool :=
  match record_category (snd item) with
  | Some _ => true
  | None => false
  end.

Definition print_csv (results : Results) : Output :=
  "instrument,price,prev_close,change_pct,direction,category,date"%string ::
  map (fun item => csv_row (fst item) (snd item)) results.

End Printing.

(* ================================================================== *)
(** * Properties of fetch_all *)
(* ================================================================== *)

Module FetchPricesProofs.
Import Py FetchPrices.
Local Open Scope list_scope.

(** ** Dicts *)

Lemma dict_set_fresh {V : Type} (k : string) (v : V) (d : dict V) :
  ~ In k (keys d) -> dict_set k v d = d ++ [(k, v)].
Proof.
  induction d as [| [k' v'] d IH]; simpl; intros Hk.
  - reflexivity.
  - destruct (String.eqb_spec k k') as [-> | Hne].
    + exfalso. apply Hk. now left.
    + f_equal. apply IH. intros Hin. apply Hk. now right.
Qed.

Lemma dict_get_app_fresh {V : Type} (k : string) (d1 d2 : dict V) :
  ~ In k (keys d1) -> dict_get k (d1 ++ d2) = dict_get k d2.
Proof.
  induction d1 as [| [k' v'] d1 IH]; simpl; intros Hk.
  - reflexivity.
  - destruct (String.eqb_spec k k') as [-> | Hne].
    + exfalso. apply Hk. now left.
    + apply IH. intros Hin. apply Hk. now right.
Qed.

Lemma dict_get_In {V : Type} (k : string) (v : V) (d : dict V) :
  dict_get k d = Some v -> In (k, v) d.
Proof.
  induction d as [| [k' v'] d IH]; simpl; [discriminate |].
  destruct (String.eqb_spec k k') as [-> | Hne].
  - intros [= ->]. now left.
  - intros H. right. now apply IH.
Qed.

Lemma In_dict_get {V : Type} (k : string) (v : V) (d : dict V) :
  NoDup (keys d) -> In (k, v) d -> dict_get k d = Some v.
Proof.
  induction d as [| [k' v'] d IH]; simpl; intros Hnd Hin; [easy |].
  inversion Hnd as [| ? ? Hk' Hnd']; subst.
  destruct Hin as [[= -> ->] | Hin].
  - now rewrite String.eqb_refl.
  - destruct (String.eqb_spec k k') as [-> | Hne].
    + exfalso. apply Hk'. change k' with (fst (k', v)). now apply in_map.
    + now apply IH.
Qed.

(** ** The loop body *)

Section Body.
Variable prov : Provider.
Variable data : DataFrame.

Lemma get_closes_run (tick : string) (st : State) :
  get_closes prov data tick st =
  (closes_of prov data (queries st) tick,
   mkState (results st)
     (queries st ++
      (if needs_fallback data tick then [History tick] else []))).
Proof.
  unfold get_closes, try_except, bind, lift, ret, closes_of, needs_fallback,
    batch_closes, fallback_closes, call_history.
  destruct st as [res qs]; simpl.
  destruct (getitem_close_ticker data tick) as [x | e]; simpl.
  - destruct x; simpl; now rewrite app_nil_r.
  - destruct e; simpl; try now rewrite app_nil_r.
    + destruct (history prov qs tick) as [single | e']; simpl; [| reflexivity].
      now destruct (getitem single "Close").
    + destruct (history prov qs tick) as [single | e']; simpl; [| reflexivity].
      now destruct (getitem single "Close").
Qed.

Lemma tail_run (name : string) (info : InstrumentSpec) (closes : Series)
    (st : State) :
  (if (List.length closes <? 2)%nat then
     set_result name (Failure "Insufficient data" None)
   else
     cur <- lift (iloc_neg closes 1) ;;
     prev <- lift (iloc_neg closes 2) ;;
     let current := snd cur in
     let previous := snd prev in
     let change := pct current previous in
     let '(dir, arr) := classify change in
     set_result name
       (Observation
          (mkObservation
             (py_round current (Z.of_nat (decimals info)))
             (py_round previous (Z.of_nat (decimals info)))
             (py_round change 2)
             (format_change change)
             dir arr (category info)
             (fst cur)))) st =
  (Ok tt,
   mkState (dict_set name (record_of_closes info closes) (results st))
           (queries st)).
Proof.
  unfold record_of_closes.
  destruct (List.length closes <? 2)%nat eqn:Hlen; [reflexivity |].
  apply Nat.ltb_ge in Hlen. rewrite <- length_rev in Hlen.
  unfold iloc_neg, bind, lift. simpl.
  destruct (rev closes) as [| cur [| prev rest]]; simpl in Hlen; try lia.
  simpl. unfold observe.
  destruct (classify (pct (snd cur) (snd prev))) as [dir arr].
  reflexivity.
Qed.

Lemma loop_body_run (name : string) (info : InstrumentSpec) (st : State) :
  loop_body prov data name info st =
  (Ok tt,
   mkState
     (dict_set name
        (record_of info (closes_of prov data (queries st) (ticker info)))
        (results st))
     (queries st ++
      (if needs_fallback data (ticker info)
       then [History (ticker info)] else []))).
Proof.
  unfold loop_body, loop_body_with, try_except.
  unfold bind at 1. rewrite get_closes_run.
  destruct (closes_of prov data (queries st) (ticker info)) as [closes | e].
  - rewrite tail_run. reflexivity.
  - reflexivity.
Qed.

Lemma records_of_keys (items : Catalog) (qs : list Query) :
  keys (records_of prov data qs items) = keys items.
Proof.
  revert qs. induction items as [| [name info] rest IH]; intros qs; simpl.
  - reflexivity.
  - f_equal. apply IH.
Qed.

Lemma for_items_run (items : Catalog) (st : State) :
  NoDup (keys items) ->
  (forall k, In k (keys items) -> ~ In k (keys (results st))) ->
  for_items prov data items st =
  (Ok tt,
   mkState (results st ++ records_of prov data (queries st) items)
           (queries st ++ fallback_queries data items)).
Proof.
  revert st. induction items as [| [name info] rest IH]; intros st Hnd Hfresh.
  - simpl. unfold ret, fallback_queries. simpl. rewrite !app_nil_r.
    now destruct st.
  - simpl. unfold bind. rewrite loop_body_run.
    inversion Hnd as [| ? ? Hname Hnd']; subst.
    rewrite dict_set_fresh by (apply Hfresh; now left).
    rewrite IH; simpl.
    + rewrite <- !app_assoc. simpl. unfold fallback_queries. simpl.
      destruct (needs_fallback data (ticker info)); reflexivity.
    + exact Hnd'.
    + intros k Hk. unfold keys. rewrite map_app, in_app_iff. simpl.
      intros [Hin | [<- | []]].
      * revert Hin. apply Hfresh. now right.
      * now apply Hname.
Qed.

End Body.

(** The whole run, when the batch query answers. *)
Lemma fetch_all_run (catalog : Catalog) (prov : Provider)
    (data : DataFrame) :
  NoDup (keys catalog) ->
  download prov (request_of catalog) = Ok data ->
  fetch_all_with catalog prov =
  (Ok (records_of prov data [Download (request_of catalog)] catalog),
   Download (request_of catalog) :: fallback_queries data catalog).
Proof.
  intros Hnd Hdl. unfold fetch_all_with.
  fold (request_of catalog). rewrite Hdl.
  rewrite for_items_run; simpl; auto.
Qed.

Lemma fetch_all_fatal (catalog : Catalog) (prov : Provider) (e : PyExc) :
  download prov (request_of catalog) = Raise e ->
  fetch_all_with catalog prov = (Raise e, [Download (request_of catalog)]).
Proof.
  intros Hdl. unfold fetch_all_with. fold (request_of catalog).
  now rewrite Hdl.
Qed.

(** ** Shared facts about a run *)

Lemma distinct_NoDup (l : list string) : distinct l = true -> NoDup l.
Proof.
  induction l as [| k rest IH]; simpl; intros H.
  - constructor.
  - apply andb_true_iff in H as [Hk Hrest].
    constructor; [| now apply IH].
    intros Hin. apply negb_true_iff in Hk.
    assert (existsb (String.eqb k) rest = true) as Hex.
    { apply existsb_exists. exists k. split; [exact Hin | apply String.eqb_refl]. }
    congruence.
Qed.

Lemma fallback_queries_app (data : DataFrame) (a b : Catalog) :
  fallback_queries data (a ++ b) =
  fallback_queries data a ++ fallback_queries data b.
Proof.
  unfold fallback_queries. now rewrite filter_app, map_app.
Qed.

Lemma records_of_app (prov : Provider) (data : DataFrame)
    (a b : Catalog) (qs : list Query) :
  records_of prov data qs (a ++ b) =
  records_of prov data qs a ++
  records_of prov data (qs ++ fallback_queries data a) b.
Proof.
  revert qs. induction a as [| [name info] a IH]; intros qs; simpl.
  - unfold fallback_queries. simpl. now rewrite app_nil_r.
  - f_equal. rewrite IH. f_equal. f_equal.
    unfold fallback_queries. simpl.
    destruct (needs_fallback data (ticker info)); simpl;
      now rewrite <- app_assoc.
Qed.

Lemma keys_app {V : Type} (a b : dict V) : keys (a ++ b) = keys a ++ keys b.
Proof. apply map_app. Qed.

(** The record of the item that follows [pre] in the catalog. *)
Lemma records_of_lookup (prov : Provider) (data : DataFrame)
    (pre post : Catalog) (name : string) (info : InstrumentSpec)
    (qs : list Query) :
  NoDup (keys (pre ++ (name, info) :: post)) ->
  dict_get name (records_of prov data qs (pre ++ (name, info) :: post)) =
  Some (record_of info
          (closes_of prov data (qs ++ fallback_queries data pre)
             (ticker info))).
Proof.
  intros Hnd. rewrite records_of_app.
  rewrite dict_get_app_fresh.
  - simpl. now rewrite String.eqb_refl.
  - rewrite records_of_keys. rewrite keys_app in Hnd. simpl in Hnd.
    apply NoDup_remove_2 in Hnd. intros Hin. apply Hnd.
    apply in_or_app. now left.
Qed.

(** An item whose series comes out of the batch frame: its record is a
    function of the frame alone. *)
Lemma closes_of_batch (prov : Provider) (data : DataFrame)
    (qs : list Query) (tick : string) (s : Series) :
  getitem_close_ticker data tick = Ok (ItemSeries s) ->
  closes_of prov data qs tick = Ok (dropna s).
Proof. unfold closes_of, batch_closes. now intros ->. Qed.

Lemma needs_fallback_batch (data : DataFrame) (tick : string) (s : Series) :
  getitem_close_ticker data tick = Ok (ItemSeries s) ->
  needs_fallback data tick = false.
Proof. unfold needs_fallback, batch_closes. now intros ->. Qed.

Lemma closes_of_fallback (prov : Provider) (data : DataFrame)
    (qs : list Query) (tick : string) :
  needs_fallback data tick = true ->
  closes_of prov data qs tick = fallback_closes prov qs tick.
Proof.
  unfold needs_fallback, closes_of.
  destruct (batch_closes data tick) as [s | e]; [discriminate |].
  now intros ->.
Qed.

Lemma In_split_item (catalog : Catalog) (name : string)
    (info : InstrumentSpec) :
  In (name, info) catalog ->
  exists pre post, catalog = pre ++ (name, info) :: post.
Proof. apply in_split. Qed.

Lemma records_of_lookup_batch (prov : Provider) (data : DataFrame)
    (catalog : Catalog) (name : string) (info : InstrumentSpec)
    (qs : list Query) (s : Series) :
  NoDup (keys catalog) ->
  In (name, info) catalog ->
  getitem_close_ticker data (ticker info) = Ok (ItemSeries s) ->
  dict_get name (records_of prov data qs catalog) =
  Some (record_of_closes info (dropna s)).
Proof.
  intros Hnd Hin Hs.
  destruct (In_split_item _ _ _ Hin) as (pre & post & ->).
  rewrite records_of_lookup by exact Hnd.
  now rewrite (closes_of_batch _ _ _ _ _ Hs).
Qed.

(** Every record of a run is the record of a catalog item for the series
    obtained at its turn. *)
Lemma records_of_inv (prov : Provider) (data : DataFrame)
    (catalog : Catalog) (qs : list Query) (name : string) (r : Record_) :
  dict_get name (records_of prov data qs catalog) = Some r ->
  exists pre info post,
    catalog = pre ++ (name, info) :: post /\
    r = record_of info
          (closes_of prov data (qs ++ fallback_queries data pre)
             (ticker info)).
Proof.
  revert qs. induction catalog as [| [n i] rest IH]; intros qs; simpl.
  - discriminate.
  - destruct (String.eqb_spec name n) as [-> | Hne].
    + intros [= <-]. exists [], i, rest. split; [reflexivity |].
      unfold fallback_queries. simpl. now rewrite app_nil_r.
    + intros H. destruct (IH _ H) as (pre & info & post & -> & ->).
      exists ((n, i) :: pre), info, post. split; [reflexivity |].
      unfold fallback_queries. simpl.
      destruct (needs_fallback data (ticker i)); simpl;
        now rewrite <- app_assoc.
Qed.

(** What line 73 can raise besides the exceptions of the subscripts is
    the [AttributeError] of [dropna], which line 74 does not catch. *)
Lemma batch_closes_caught (data : DataFrame) (tick : string) (e : PyExc) :
  caught e = true ->
  batch_closes data tick = Raise e <-> getitem_close_ticker data tick = Raise e.
Proof.
  intros He. unfold batch_closes.
  destruct (getitem_close_ticker data tick) as [[s | x] | e']; simpl.
  - split; discriminate.
  - split; [| discriminate]. intros [= <-]. discriminate.
  - split; now intros [= ->].
Qed.

Lemma caught_spec (e : PyExc) :
  caught e = true <->
  (exists key, e = KeyError key) \/ (exists msg, e = TypeError msg).
Proof.
  split.
  - destruct e; simpl; try discriminate; intros _;
      [left | right]; now eexists.
  - intros [[key ->] | [msg ->]]; reflexivity.
Qed.

Lemma record_of_closes_two (info : InstrumentSpec) (front : Series)
    (prev cur : string * float) :
  record_of_closes info (front ++ [prev; cur]) =
  Observation (observe info cur prev).
Proof.
  unfold record_of_closes.
  rewrite length_app. simpl.
  replace (List.length front + 2 <? 2)%nat with false
    by (symmetry; apply Nat.ltb_ge; lia).
  rewrite rev_app_distr. reflexivity.
Qed.

(** A record that is an observation was built from the last two rows of a
    series of at least two closes. *)
Lemma record_of_observation (info : InstrumentSpec) (r : PyResult Series)
    (o : PriceObservation) :
  record_of info r = Observation o ->
  exists front prev cur,
    r = Ok (front ++ [prev; cur]) /\ o = observe info cur prev.
Proof.
  destruct r as [closes | e]; simpl; [| discriminate].
  unfold record_of_closes.
  destruct (List.length closes <? 2)%nat; [discriminate |].
  destruct (rev closes) as [| cur [| prev rest]] eqn:Hrev; try discriminate.
  intros [= <-]. exists (rev rest), prev, cur. split; [| reflexivity].
  f_equal. rewrite <- (rev_involutive closes), Hrev. simpl.
  now rewrite <- app_assoc.
Qed.

(** ** Float facts used for the zero-previous case *)

Lemma eqb_zero_inv (x : float) :
  (x =? 0)%float = true -> exists s, Prim2SF x = S754_zero s.
Proof.
  rewrite FloatAxioms.eqb_spec.
  change (Prim2SF 0%float) with (S754_zero false).
  unfold SFeqb, SFcompare.
  destruct (Prim2SF x) as [s | s | | s m e]; try discriminate.
  - intros _. now exists s.
  - destruct s; discriminate.
  - destruct s; discriminate.
Qed.

Lemma pct_zero_previous (cur prev : float) :
  (prev =? 0)%float = true ->
  Prim2SF (pct cur prev) = S754_nan \/
  exists s, Prim2SF (pct cur prev) = S754_infinity s.
Proof.
  intros Hz. destruct (eqb_zero_inv _ Hz) as [sz Hprev].
  unfold pct. rewrite mul_spec, div_spec, sub_spec, Hprev.
  change (Prim2SF 100%float) with (S754_finite false 7036874417766400 (-46)).
  unfold SF64mul, SF64div, SF64sub.
  destruct (Prim2SF cur) as [s | s | | s m e]; simpl.
  - left. destruct s, sz; reflexivity.
  - right. eexists. reflexivity.
  - left. reflexivity.
  - right. eexists. reflexivity.
Qed.

Lemma py_round_not_finite (x : float) (n : Z) :
  (Prim2SF x = S754_nan \/ exists s, Prim2SF x = S754_infinity s) ->
  py_round x n = x.
Proof.
  unfold py_round. intros [-> | [s ->]]; reflexivity.
Qed.

Lemma not_finite_spec (x : float) :
  (Prim2SF x = S754_nan \/ exists s, Prim2SF x = S754_infinity s) ->
  PrimFloat.is_finite x = false.
Proof.
  unfold PrimFloat.is_finite, PrimFloat.is_nan, PrimFloat.is_infinity.
  rewrite !FloatAxioms.eqb_spec, abs_spec.
  change (Prim2SF infinity) with (S754_infinity false).
  intros [-> | [s ->]]; simpl; [reflexivity |].
  now destruct s.
Qed.

(** ** Properties of a run of fetch_all *)

Import FetchExamples.

(** C1: when the batch query answers, [fetch_all] returns a mapping whose
    keys are exactly the catalog's names in catalog order, so that every
    catalog entry has one record (a price observation or a failure record),
    whatever the single queries of any instrument do. *)
Theorem C1_one_record_per_entry_in_catalog_order
    (catalog : Catalog) (prov : Provider) (data : DataFrame) :
  NoDup (keys catalog) ->
  download prov (request_of catalog) = Ok data ->
  exists res qs,
    fetch_all_with catalog prov = (Ok res, qs) /\
    keys res = keys catalog /\
    forall name info, In (name, info) catalog ->
      exists r, dict_get name res = Some r /\
                ((exists o, r = Observation o) \/
                 (exists msg cat, r = Failure msg cat)).
Proof.
  intros Hnd Hdl. eexists. eexists.
  split; [apply fetch_all_run; eassumption |].
  split; [apply records_of_keys |].
  intros name info Hin.
  destruct (In_split_item _ _ _ Hin) as (pre & post & ->).
  rewrite records_of_lookup by exact Hnd.
  eexists. split; [reflexivity |].
  match goal with |- context [record_of ?i ?c] => destruct (record_of i c) end.
  - left. now eexists.
  - right. now do 2 eexists.
Qed.

Lemma C1_witness :
  exists res qs,
    fetch_all_with INSTRUMENTS sample_provider = (Ok res, qs) /\
    keys res = keys INSTRUMENTS /\
    forall name info, In (name, info) INSTRUMENTS ->
      exists r, dict_get name res = Some r /\
                ((exists o, r = Observation o) \/
                 (exists msg cat, r = Failure msg cat)).
Proof.
  apply (C1_one_record_per_entry_in_catalog_order INSTRUMENTS sample_provider
           sample_frame).
  - apply distinct_NoDup. reflexivity.
  - reflexivity.
Defined.

(** The direction follows the unrounded change, not the recorded one: for
    closes 1 and 1.0000991 the change is about 0.0099, hence flat, and it is
    recorded as 0.01. *)
Example flat_with_recorded_change_one_hundredth :
  let o := observe instrument_A ("2026-02-27", 1.0000991%float)
                   ("2026-02-26", 1%float) in
  direction o = flat /\ change_pct o = 0.01%float /\
  change_str o = "+0.01%".
Proof. vm_compute. repeat split. Qed.

(** What [classify] answers, case by case. *)
Lemma classify_cases (c : float) :
  (fst (classify c) = flat <-> (abs c <? 0.01)%float = true) /\
  (fst (classify c) = up <->
     (abs c <? 0.01)%float = false /\ (0 <? c)%float = true) /\
  (fst (classify c) = down <->
     (abs c <? 0.01)%float = false /\ (0 <? c)%float = false).
Proof.
  unfold classify.
  destruct (abs c <? 0.01)%float; [| destruct (0 <? c)%float]; simpl;
    repeat split; intros; try discriminate; try reflexivity;
    match goal with H : _ /\ _ |- _ => destruct H; discriminate end.
Qed.

(** C2, corrected: every price observation of a run was built from the
    last two closes of the series of its instrument, and its direction is
    that of the change [c] computed from them before rounding: flat iff
    |c| < 0.01, up iff not flat and c > 0, and down iff neither.  The
    recorded [change_pct] is [c] rounded to two decimals, which the
    direction does not look at. *)
Theorem C2_direction_classification
    (catalog : Catalog) (prov : Provider) (res : Results)
    (qs : list Query) (name : string) (o : PriceObservation) :
  NoDup (keys catalog) ->
  fetch_all_with catalog prov = (Ok res, qs) ->
  dict_get name res = Some (Observation o) ->
  exists data pre info post front prev cur,
    download prov (request_of catalog) = Ok data /\
    catalog = pre ++ (name, info) :: post /\
    closes_of prov data
      (Download (request_of catalog) :: fallback_queries data pre)
      (ticker info) = Ok (front ++ [prev; cur]) /\
    o = observe info cur prev /\
    let c := pct (snd cur) (snd prev) in
    change_pct o = py_round c 2 /\
    (direction o = flat <-> (abs c <? 0.01)%float = true) /\
    (direction o = up <->
       (abs c <? 0.01)%float = false /\ (0 <? c)%float = true) /\
    (direction o = down <->
       (abs c <? 0.01)%float = false /\ (0 <? c)%float = false).
Proof.
  intros Hnd Hrun Hget.
  destruct (download prov (request_of catalog)) as [data | e] eqn:Hdl.
  - rewrite (fetch_all_run _ _ _ Hnd Hdl) in Hrun.
    injection Hrun as <- <-.
    destruct (records_of_inv _ _ _ _ _ _ Hget)
      as (pre & info & post & Hcat & Hrec).
    symmetry in Hrec.
    destruct (record_of_observation _ _ _ Hrec)
      as (front & prev & cur & Hcloses & ->).
    exists data, pre, info, post, front, prev, cur.
    split; [reflexivity |]. split; [exact Hcat |].
    split; [exact Hcloses |]. split; [reflexivity |].
    split; [reflexivity |]. apply classify_cases.
  - rewrite (fetch_all_fatal _ _ _ Hdl) in Hrun. discriminate.
Qed.

Lemma C2_witness :
  exists data pre info post front prev cur,
    download (provider_A (two_days 100 102)) (request_of catalog_A) =
      Ok data /\
    catalog_A = pre ++ ("A", info) :: post /\
    closes_of (provider_A (two_days 100 102)) data
      (Download (request_of catalog_A) :: fallback_queries data pre)
      (ticker info) = Ok (front ++ [prev; cur]) /\
    observation_A = observe info cur prev /\
    let c := pct (snd cur) (snd prev) in
    change_pct observation_A = py_round c 2 /\
    (direction observation_A = flat <-> (abs c <? 0.01)%float = true) /\
    (direction observation_A = up <->
       (abs c <? 0.01)%float = false /\ (0 <? c)%float = true) /\
    (direction observation_A = down <->
       (abs c <? 0.01)%float = false /\ (0 <? c)%float = false).
Proof.
  apply (C2_direction_classification catalog_A
           (provider_A (two_days 100 102))
           [("A", Observation observation_A)] [Download ["A"]] "A"
           observation_A).
  - apply distinct_NoDup. reflexivity.
  - vm_compute. reflexivity.
  - reflexivity.
Defined.

(** C2, counterexample to the classification of the recorded change: for
    closes 1 and 1.0000991 the change is about 0.0099, hence flat, and it
    is recorded as 0.01, which is not below 0.01. *)
Lemma C2_flat_with_recorded_change_counterexample :
  exists o,
    fetch_all_with catalog_A (provider_A (two_days 1 1.0000991)) =
      (Ok [("A", Observation o)], [Download ["A"]]) /\
    direction o = flat /\
    change_pct o = 0.01%float /\
    (abs (change_pct o) <? 0.01)%float = false /\
    (abs (pct 1.0000991 1) <? 0.01)%float = true.
Proof. eexists. repeat split; vm_compute; reflexivity. Qed.

(** The record of the item after [pre], in a run whose batch query
    answered. *)
Lemma run_lookup (catalog : Catalog) (prov : Provider) (data : DataFrame)
    (pre post : Catalog) (name : string) (info : InstrumentSpec) :
  catalog = pre ++ (name, info) :: post ->
  NoDup (keys catalog) ->
  download prov (request_of catalog) = Ok data ->
  exists res,
    fetch_all_with catalog prov =
      (Ok res, Download (request_of catalog) :: fallback_queries data catalog)
    /\
    dict_get name res =
      Some (record_of info
              (closes_of prov data
                 (Download (request_of catalog) :: fallback_queries data pre)
                 (ticker info))).
Proof.
  intros Hcat Hnd Hdl. eexists.
  split; [apply fetch_all_run; eassumption |].
  rewrite Hcat at 2. rewrite Hcat in Hnd.
  now rewrite records_of_lookup by exact Hnd.
Qed.

(** C3, corrected: an instrument whose previous close is zero gets a
    price observation, not a failure record: the float64 division raises
    nothing, and the recorded change is the unrounded quotient, which is an
    infinity or a NaN. *)
Theorem C3_zero_previous_gives_nonfinite_observation
    (catalog : Catalog) (prov : Provider) (data : DataFrame)
    (pre post : Catalog) (name : string) (info : InstrumentSpec)
    (front : Series) (prev cur : string * float) :
  catalog = pre ++ (name, info) :: post ->
  NoDup (keys catalog) ->
  download prov (request_of catalog) = Ok data ->
  closes_of prov data
    (Download (request_of catalog) :: fallback_queries data pre)
    (ticker info) = Ok (front ++ [prev; cur]) ->
  (snd prev =? 0)%float = true ->
  exists res qs o,
    fetch_all_with catalog prov = (Ok res, qs) /\
    dict_get name res = Some (Observation o) /\
    o = observe info cur prev /\
    change_pct o = pct (snd cur) (snd prev) /\
    PrimFloat.is_finite (change_pct o) = false.
Proof.
  intros Hcat Hnd Hdl Hcloses Hzero.
  destruct (run_lookup _ _ _ _ _ _ _ Hcat Hnd Hdl) as (res & Hrun & Hget).
  rewrite Hcloses in Hget. simpl in Hget. rewrite record_of_closes_two in Hget.
  exists res. eexists. exists (observe info cur prev).
  repeat split; try eassumption.
  - simpl. apply py_round_not_finite. now apply pct_zero_previous.
  - simpl. rewrite py_round_not_finite by now apply pct_zero_previous.
    apply not_finite_spec. now apply pct_zero_previous.
Qed.

Lemma C3_witness :
  exists res qs o,
    fetch_all_with catalog_A (provider_A (two_days 0 5)) = (Ok res, qs) /\
    dict_get "A" res = Some (Observation o) /\
    o = observe instrument_A ("2026-02-27", 5%float) ("2026-02-26", 0%float) /\
    change_pct o = pct 5 0 /\
    PrimFloat.is_finite (change_pct o) = false.
Proof.
  apply (C3_zero_previous_gives_nonfinite_observation catalog_A
           (provider_A (two_days 0 5))
           (MultiFrame [(("Close", "A"), two_days 0 5)])
           [] [] "A" instrument_A [] ("2026-02-26", 0%float)
           ("2026-02-27", 5%float)).
  - reflexivity.
  - apply distinct_NoDup. reflexivity.
  - reflexivity.
  - vm_compute. reflexivity.
  - reflexivity.
Defined.

(** C3, counterexample to the zero-previous guard: closes 0 then 5 give
    an observation whose change is +inf, direction up, and no failure
    record. *)
Lemma C3_zero_previous_counterexample :
  fetch_all_with catalog_A (provider_A (two_days 0 5)) =
  (Ok [("A", Observation
               (mkObservation 5 0 infinity "+inf%" up "▲" primary
                  "2026-02-27"))],
   [Download ["A"]]).
Proof. vm_compute. reflexivity. Qed.

(** C4, what the code does: an instrument left with
    fewer than two closes gets the error dict of line 80, which has no
    ["category"] key, unlike the error dict of line 110. *)
Theorem C4_insufficient_data_record_has_no_category
    (catalog : Catalog) (prov : Provider) (data : DataFrame)
    (pre post : Catalog) (name : string) (info : InstrumentSpec)
    (closes : Series) :
  catalog = pre ++ (name, info) :: post ->
  NoDup (keys catalog) ->
  download prov (request_of catalog) = Ok data ->
  closes_of prov data
    (Download (request_of catalog) :: fallback_queries data pre)
    (ticker info) = Ok closes ->
  (List.length closes < 2)%nat ->
  exists res qs,
    fetch_all_with catalog prov = (Ok res, qs) /\
    dict_get name res = Some (Failure "Insufficient data" None).
Proof.
  intros Hcat Hnd Hdl Hcloses Hlen.
  destruct (run_lookup _ _ _ _ _ _ _ Hcat Hnd Hdl) as (res & Hrun & Hget).
  rewrite Hcloses in Hget. simpl in Hget. unfold record_of_closes in Hget.
  apply Nat.ltb_lt in Hlen. rewrite Hlen in Hget.
  exists res. eexists. split; eassumption.
Qed.

Lemma C4_witness :
  exists res qs,
    fetch_all_with catalog_A (provider_A [("2026-02-27", 97.5%float)]) =
      (Ok res, qs) /\
    dict_get "A" res = Some (Failure "Insufficient data" None).
Proof.
  apply (C4_insufficient_data_record_has_no_category catalog_A
           (provider_A [("2026-02-27", 97.5%float)])
           (MultiFrame [(("Close", "A"), [("2026-02-27", 97.5%float)])])
           [] [] "A" instrument_A [("2026-02-27", 97.5%float)]).
  - reflexivity.
  - apply distinct_NoDup. reflexivity.
  - reflexivity.
  - vm_compute. reflexivity.
  - simpl. lia.
Defined.

Lemma needs_fallback_spec (data : DataFrame) (tick : string) :
  needs_fallback data tick = true <->
  exists e, getitem_close_ticker data tick = Raise e /\
            ((exists key, e = KeyError key) \/ (exists msg, e = TypeError msg)).
Proof.
  unfold needs_fallback. split.
  - destruct (batch_closes data tick) as [s | e] eqn:Hb; [discriminate |].
    intros He. exists e. split; [now apply batch_closes_caught |].
    now apply caught_spec.
  - intros (e & He & Hc). apply caught_spec in Hc.
    apply (batch_closes_caught _ _ _ Hc) in He. now rewrite He.
Qed.

(** C5, corrected: the single queries of a run are exactly those of the
    catalog entries whose batch subscripts raise [KeyError] or [TypeError],
    one per such entry and in catalog order (an empty series raises nothing
    and sends none); for such an entry the series of the single query is the
    one that reaches the length check. *)
Theorem C5_fallback_exactly_on_lookup_error
    (catalog : Catalog) (prov : Provider) (data : DataFrame) :
  NoDup (keys catalog) ->
  download prov (request_of catalog) = Ok data ->
  exists res,
    fetch_all_with catalog prov =
      (Ok res,
       Download (request_of catalog) ::
       map (fun item => History (ticker (snd item)))
           (filter (fun item => needs_fallback data (ticker (snd item)))
                   catalog)) /\
    (forall tick,
       needs_fallback data tick = true <->
       exists e, getitem_close_ticker data tick = Raise e /\
                 ((exists key, e = KeyError key) \/
                  (exists msg, e = TypeError msg))) /\
    (forall pre name info post,
       catalog = pre ++ (name, info) :: post ->
       needs_fallback data (ticker info) = true ->
       dict_get name res =
       Some (record_of info
               (fallback_closes prov
                  (Download (request_of catalog) :: fallback_queries data pre)
                  (ticker info)))).
Proof.
  intros Hnd Hdl. eexists.
  split; [apply fetch_all_run; eassumption |].
  split; [intros tick; apply needs_fallback_spec |].
  intros pre name info post Hcat Hfb.
  rewrite Hcat at 2. rewrite Hcat in Hnd.
  rewrite records_of_lookup by exact Hnd.
  now rewrite closes_of_fallback by exact Hfb.
Qed.

Lemma C5_witness :
  exists res,
    fetch_all_with catalog_AB provider_AB =
      (Ok res,
       Download (request_of catalog_AB) ::
       map (fun item => History (ticker (snd item)))
           (filter (fun item =>
                      needs_fallback (MultiFrame
                                        [(("Close", "A"), two_days 100 102)])
                        (ticker (snd item)))
                   catalog_AB)) /\
    (forall tick,
       needs_fallback (MultiFrame [(("Close", "A"), two_days 100 102)]) tick
         = true <->
       exists e,
         getitem_close_ticker
           (MultiFrame [(("Close", "A"), two_days 100 102)]) tick = Raise e /\
         ((exists key, e = KeyError key) \/
          (exists msg, e = TypeError msg))) /\
    (forall pre name info post,
       catalog_AB = pre ++ (name, info) :: post ->
       needs_fallback (MultiFrame [(("Close", "A"), two_days 100 102)])
         (ticker info) = true ->
       dict_get name res =
       Some (record_of info
               (fallback_closes provider_AB
                  (Download (request_of catalog_AB) ::
                   fallback_queries
                     (MultiFrame [(("Close", "A"), two_days 100 102)]) pre)
                  (ticker info)))).
Proof.
  apply (C5_fallback_exactly_on_lookup_error catalog_AB provider_AB
           (MultiFrame [(("Close", "A"), two_days 100 102)])).
  - apply distinct_NoDup. reflexivity.
  - reflexivity.
Defined.

(** C5, counterexample to the fallback on an empty series: the batch
    frame has the column of "A" but no row in it (or only a missing value);
    the extracted series is empty, no single query is sent, and the record
    is "Insufficient data". *)
Lemma C5_empty_series_counterexample :
  getitem_close_ticker (MultiFrame [(("Close", "A"), [])]) "A" =
    Ok (ItemSeries []) /\
  fetch_all_with catalog_A (provider_A []) =
    (Ok [("A", Failure "Insufficient data" None)], [Download ["A"]]) /\
  fetch_all_with catalog_A (provider_A [("2026-02-27", nan)]) =
    (Ok [("A", Failure "Insufficient data" None)], [Download ["A"]]).
Proof. repeat split; vm_compute; reflexivity. Qed.

(** C6: the change is computed from the unrounded last two closes; the
    recorded price and previous close are those closes rounded to the
    instrument's decimals and the recorded change is the unrounded change
    rounded to 2 decimals, while the direction is that of the unrounded
    change.  For 2 decimals, 104.8276 is recorded as 104.83; a change of
    0.0049 is recorded as 0.00 and is flat. *)
Theorem C6_rounding_after_arithmetic
    (catalog : Catalog) (prov : Provider) (data : DataFrame)
    (pre post : Catalog) (name : string) (info : InstrumentSpec)
    (front : Series) (prev cur : string * float) :
  catalog = pre ++ (name, info) :: post ->
  NoDup (keys catalog) ->
  download prov (request_of catalog) = Ok data ->
  closes_of prov data
    (Download (request_of catalog) :: fallback_queries data pre)
    (ticker info) = Ok (front ++ [prev; cur]) ->
  (exists res qs o,
     fetch_all_with catalog prov = (Ok res, qs) /\
     dict_get name res = Some (Observation o) /\
     let change := pct (snd cur) (snd prev) in
     price o = py_round (snd cur) (Z.of_nat (decimals info)) /\
     prev_close o = py_round (snd prev) (Z.of_nat (decimals info)) /\
     change_pct o = py_round change 2 /\
     direction o = fst (classify change) /\
     change_str o = format_change change) /\
  py_round 104.8276 2 = 104.83%float /\
  py_round 0.0049 2 = 0%float /\
  format_change 0.0049 = "+0.00%" /\
  fst (classify 0.0049) = flat.
Proof.
  intros Hcat Hnd Hdl Hcloses.
  split; [| repeat split; vm_compute; reflexivity].
  destruct (run_lookup _ _ _ _ _ _ _ Hcat Hnd Hdl) as (res & Hrun & Hget).
  rewrite Hcloses in Hget. simpl in Hget. rewrite record_of_closes_two in Hget.
  exists res. eexists. exists (observe info cur prev).
  split; [eassumption |]. split; [assumption |].
  simpl. repeat split.
Qed.

Lemma C6_witness :
  (exists res qs o,
     fetch_all_with catalog_A (provider_A (two_days 100 104.8276)) =
       (Ok res, qs) /\
     dict_get "A" res = Some (Observation o) /\
     let change := pct 104.8276 100 in
     price o = py_round 104.8276 2 /\
     prev_close o = py_round 100 2 /\
     change_pct o = py_round change 2 /\
     direction o = fst (classify change) /\
     change_str o = format_change change) /\
  py_round 104.8276 2 = 104.83%float /\
  py_round 0.0049 2 = 0%float /\
  format_change 0.0049 = "+0.00%" /\
  fst (classify 0.0049) = flat.
Proof.
  apply (C6_rounding_after_arithmetic catalog_A
           (provider_A (two_days 100 104.8276))
           (MultiFrame [(("Close", "A"), two_days 100 104.8276)])
           [] [] "A" instrument_A []
           ("2026-02-26", 100%float) ("2026-02-27", 104.8276%float)).
  - reflexivity.
  - apply distinct_NoDup. reflexivity.
  - reflexivity.
  - vm_compute. reflexivity.
Defined.

(** C7: a catalog entry with 2 decimals whose batch series is 100.00 then
    102.00 gets the observation previous 100.00, current 102.00, change
    2.00, direction up, change string "+2.00%". *)
Theorem C7_end_to_end_two_percent
    (catalog : Catalog) (prov : Provider) (data : DataFrame)
    (name : string) (info : InstrumentSpec) (d1 d2 : string) :
  NoDup (keys catalog) ->
  download prov (request_of catalog) = Ok data ->
  In (name, info) catalog ->
  decimals info = 2%nat ->
  getitem_close_ticker data (ticker info) =
    Ok (ItemSeries [(d1, 100%float); (d2, 102%float)]) ->
  exists res qs,
    fetch_all_with catalog prov = (Ok res, qs) /\
    dict_get name res =
      Some (Observation
              (mkObservation 102 100 2 "+2.00%" up "▲" (category info) d2)).
Proof.
  intros Hnd Hdl Hin Hdec Hs. eexists. eexists.
  split; [apply fetch_all_run; eassumption |].
  rewrite (records_of_lookup_batch _ _ _ _ _ _ _ Hnd Hin Hs).
  unfold record_of_closes, observe, dropna. simpl. rewrite Hdec.
  vm_compute. reflexivity.
Qed.

Lemma C7_witness :
  exists res qs,
    fetch_all_with catalog_A (provider_A (two_days 100 102)) = (Ok res, qs) /\
    dict_get "A" res =
      Some (Observation
              (mkObservation 102 100 2 "+2.00%" up "▲"
                 (category instrument_A) "2026-02-27")).
Proof.
  apply (C7_end_to_end_two_percent catalog_A (provider_A (two_days 100 102))
           (MultiFrame [(("Close", "A"), two_days 100 102)])
           "A" instrument_A "2026-02-26" "2026-02-27").
  - apply distinct_NoDup. reflexivity.
  - reflexivity.
  - left. reflexivity.
  - reflexivity.
  - reflexivity.
Defined.

Lemma fallback_queries_all_batch (data : DataFrame) (items : Catalog) :
  Forall (fun item =>
            exists s,
              getitem_close_ticker data (ticker (snd item)) =
              Ok (ItemSeries s))
         items ->
  fallback_queries data items = [].
Proof.
  unfold fallback_queries.
  induction 1 as [| item items [s Hs] _ IH]; simpl; [reflexivity |].
  now rewrite (needs_fallback_batch _ _ _ Hs).
Qed.

(** C8, corrected: when line 73 raises for one catalog entry and yields a
    series for all the others, the run sends a single query for that entry
    exactly when the exception is a [KeyError] or a [TypeError]; any other
    exception sends none and becomes the entry's failure record.  Either
    way no single query is sent for another entry, the record of every other
    entry is computed from its batch series alone, and is the same under
    any other provider that gives the same batch answer, whatever its single
    queries do. *)
Theorem C8_fallback_isolation
    (prov : Provider) (data : DataFrame)
    (pre post : Catalog) (name : string) (info : InstrumentSpec)
    (e : PyExc) :
  let catalog := pre ++ (name, info) :: post in
  NoDup (keys catalog) ->
  download prov (request_of catalog) = Ok data ->
  batch_closes data (ticker info) = Raise e ->
  Forall (fun item =>
            exists s,
              getitem_close_ticker data (ticker (snd item)) =
              Ok (ItemSeries s))
         (pre ++ post) ->
  exists res,
    fetch_all_with catalog prov =
      (Ok res,
       Download (request_of catalog) ::
       (if caught e then [History (ticker info)] else [])) /\
    (caught e = true <->
     (exists key, e = KeyError key) \/ (exists msg, e = TypeError msg)) /\
    (caught e = true ->
     dict_get name res =
     Some (record_of info
             (fallback_closes prov [Download (request_of catalog)]
                (ticker info)))) /\
    (caught e = false ->
     dict_get name res = Some (Failure (str_exc e) (Some (category info)))) /\
    (forall n i, In (n, i) (pre ++ post) ->
       exists s,
         getitem_close_ticker data (ticker i) = Ok (ItemSeries s) /\
         dict_get n res = Some (record_of_closes i (dropna s))) /\
    (forall prov' res' qs',
       download prov' (request_of catalog) = Ok data ->
       fetch_all_with catalog prov' = (Ok res', qs') ->
       forall n i, In (n, i) (pre ++ post) ->
         dict_get n res' = dict_get n res).
Proof.
  intros catalog Hnd Hdl Hfail Hothers.
  assert (Hfb : needs_fallback data (ticker info) = caught e)
    by (unfold needs_fallback; now rewrite Hfail).
  assert (Hpre : fallback_queries data pre = []).
  { apply Forall_app in Hothers as [Hpre _].
    now apply fallback_queries_all_batch. }
  assert (Hq : fallback_queries data catalog =
               if caught e then [History (ticker info)] else []).
  { unfold catalog. rewrite fallback_queries_app, Hpre. simpl.
    apply Forall_app in Hothers as [_ Hpost].
    pose proof (fallback_queries_all_batch _ _ Hpost) as Hp.
    unfold fallback_queries in *. simpl. rewrite Hfb.
    destruct (caught e); simpl; now rewrite Hp. }
  assert (Hin : forall n i, In (n, i) (pre ++ post) -> In (n, i) catalog).
  { intros n i H. unfold catalog. apply in_app_or in H as [H | H];
      apply in_or_app; [now left | right; now right]. }
  assert (Hname :
            dict_get name
              (records_of prov data [Download (request_of catalog)] catalog) =
            Some (record_of info
                    (closes_of prov data [Download (request_of catalog)]
                       (ticker info)))).
  { unfold catalog at 2. rewrite records_of_lookup by exact Hnd.
    now rewrite Hpre, app_nil_r. }
  eexists. split; [| split; [| split; [| split; [| split]]]].
  - rewrite (fetch_all_run _ _ _ Hnd Hdl), Hq. reflexivity.
  - apply caught_spec.
  - intros Hc. rewrite Hname. unfold closes_of. now rewrite Hfail, Hc.
  - intros Hc. rewrite Hname. unfold closes_of. now rewrite Hfail, Hc.
  - intros n i Hni.
    rewrite Forall_forall in Hothers.
    destruct (Hothers _ Hni) as [s Hs]. simpl in Hs.
    exists s. split; [exact Hs |].
    apply records_of_lookup_batch; auto.
  - intros prov' res' qs' Hdl' Hrun' n i Hni.
    rewrite (fetch_all_run _ _ _ Hnd Hdl') in Hrun'.
    injection Hrun' as <- _.
    rewrite Forall_forall in Hothers.
    destruct (Hothers _ Hni) as [s Hs]. simpl in Hs.
    rewrite !(records_of_lookup_batch _ _ _ _ _ _ s Hnd (Hin _ _ Hni) Hs).
    reflexivity.
Qed.

Lemma C8_witness :
  exists res,
    fetch_all_with catalog_AB provider_AB =
      (Ok res,
       Download (request_of catalog_AB) ::
       (if caught (KeyError "B") then [History "B"] else [])) /\
    (caught (KeyError "B") = true <->
     (exists key, KeyError "B" = KeyError key) \/
     (exists msg, KeyError "B" = TypeError msg)) /\
    (caught (KeyError "B") = true ->
     dict_get "B" res =
     Some (record_of (mkInstrument "B" 4 secondary None)
             (fallback_closes provider_AB [Download (request_of catalog_AB)]
                "B"))) /\
    (caught (KeyError "B") = false ->
     dict_get "B" res = Some (Failure (str_exc (KeyError "B")) (Some secondary)))
    /\
    (forall n i, In (n, i) ([("A", instrument_A)] ++ []) ->
       exists s,
         getitem_close_ticker
           (MultiFrame [(("Close", "A"), two_days 100 102)]) (ticker i)
           = Ok (ItemSeries s) /\
         dict_get n res = Some (record_of_closes i (dropna s))) /\
    (forall prov' res' qs',
       download prov' (request_of catalog_AB) =
         Ok (MultiFrame [(("Close", "A"), two_days 100 102)]) ->
       fetch_all_with catalog_AB prov' = (Ok res', qs') ->
       forall n i, In (n, i) ([("A", instrument_A)] ++ []) ->
         dict_get n res' = dict_get n res).
Proof.
  apply (C8_fallback_isolation provider_AB
           (MultiFrame [(("Close", "A"), two_days 100 102)])
           [("A", instrument_A)] [] "B"
           (mkInstrument "B" 4 secondary None) (KeyError "B")).
  - apply distinct_NoDup. reflexivity.
  - reflexivity.
  - reflexivity.
  - repeat constructor. simpl. eexists. reflexivity.
Defined.

(** C8, counterexample to the single query on every failed extraction: a
    batch answer with one-level columns and the tickers "2026" and "MAR".
    Line 73 selects the rows of the year for the first and raises
    [OutOfBoundsDatetime] for the second, which line 74 does not catch: the
    second entry gets a failure record and no single query is sent. *)
Lemma C8_uncaught_extraction_counterexample :
  batch_closes flat_frame "2026" = Ok (two_days 100 102) /\
  (exists msg,
     batch_closes flat_frame "MAR" =
     Raise (OtherException "OutOfBoundsDatetime" msg)) /\
  exists msg,
    fetch_all_with catalog_dates provider_flat =
    (Ok [("Y", Observation
                 (mkObservation 102 100 2 "+2.00%" up "▲" primary
                    "2026-02-27"));
         ("M", Failure msg (Some secondary))],
     [Download ["2026"; "MAR"]]).
Proof.
  split; [reflexivity |]. split; eexists; vm_compute; reflexivity.
Qed.

Lemma select_field_get (field tick : string) (s : Series)
    (cols : list ((string * string) * Series)) :
  In ((field, tick), s) cols ->
  exists s', dict_get tick (select_field field cols) = Some s'.
Proof.
  induction cols as [| [[f t] s0] cols IH]; simpl; [easy |].
  intros [[= -> -> ->] | Hin].
  - unfold select_field. simpl. rewrite String.eqb_refl. simpl.
    rewrite String.eqb_refl. now eexists.
  - unfold select_field. simpl.
    destruct (String.eqb field f); simpl.
    + destruct (String.eqb tick t); [now eexists | now apply IH].
    + now apply IH.
Qed.

(** C9, corrected: the shape check of line 70 is true for every batch
    frame, and the value of [close_col] it selects has no effect on the loop
    body.  On one-level columns the try/except does not tell the shape by
    itself: the fallback runs exactly when the frame has no "Close" column
    or the lookup of the ticker among the dates raises [KeyError] or
    [TypeError]; when that lookup selects rows, they are the closes and no
    single query is sent; when it raises another exception, that exception
    is the failure of the entry and no single query is sent.  On two-level
    columns that hold the ticker's close series there is no fallback. *)
Theorem C9_shape_check_is_vacuous :
  (forall data : DataFrame, shape_check data = true) /\
  (forall (c1 c2 : CloseCol) prov data name info,
     loop_body_with c1 prov data name info =
     loop_body_with c2 prov data name info) /\
  (forall cols at_label tick,
     needs_fallback (FlatFrame cols at_label) tick = true <->
     dict_get "Close" cols = None \/
     exists s e,
       dict_get "Close" cols = Some s /\ at_label s tick = Raise e /\
       ((exists key, e = KeyError key) \/ (exists msg, e = TypeError msg))) /\
  (forall cols at_label tick s prov qs,
     dict_get "Close" cols = Some s ->
     (forall rows, at_label s tick = Ok (ItemSeries rows) ->
        needs_fallback (FlatFrame cols at_label) tick = false /\
        closes_of prov (FlatFrame cols at_label) qs tick =
        Ok (dropna rows)) /\
     (forall e, at_label s tick = Raise e -> caught e = false ->
        needs_fallback (FlatFrame cols at_label) tick = false /\
        closes_of prov (FlatFrame cols at_label) qs tick = Raise e)) /\
  (forall cols tick s,
     In (("Close", tick), s) cols ->
     needs_fallback (MultiFrame cols) tick = false).
Proof.
  split; [| split; [| split; [| split]]].
  - intros [cols | cols at_label]; reflexivity.
  - reflexivity.
  - intros cols at_label tick.
    unfold needs_fallback, batch_closes. simpl. unfold getitem.
    destruct (dict_get "Close" cols) as [s |]; simpl.
    + split.
      * destruct (at_label s tick) as [[rows | x] | e] eqn:Hat; simpl;
          try discriminate.
        intros Hc. right. exists s, e. split; [reflexivity |].
        split; [exact Hat |]. now apply caught_spec.
      * intros [H | (s' & e & [= <-] & -> & Hc)]; [discriminate |].
        now apply caught_spec.
    + split; [now left | reflexivity].
  - intros cols at_label tick s prov qs Hclose.
    unfold needs_fallback, closes_of, batch_closes. simpl. unfold getitem.
    rewrite Hclose. split.
    + intros rows ->. now split.
    + intros e -> Hc. rewrite Hc. now split.
  - intros cols tick s Hin.
    destruct (select_field_get _ _ _ _ Hin) as [s' Hs'].
    unfold needs_fallback, batch_closes. simpl.
    destruct (select_field "Close" cols) as [| c sub]; [discriminate |].
    unfold getitem. now rewrite Hs'.
Qed.

(** C9, counterexample to the fallback as what tells the shapes apart: a
    batch answer with one-level columns and the ticker "2026".  The shape
    check is true, the lookup of the ticker selects the rows of the year,
    no single query is sent and the observation is computed from the batch
    rows; for the ticker "MAR" the lookup raises an exception that is not
    caught at line 74, and there is no fallback either. *)
Lemma C9_date_like_ticker_counterexample :
  shape_check flat_frame = true /\
  needs_fallback flat_frame "2026" = false /\
  needs_fallback flat_frame "MAR" = false /\
  fetch_all_with [("Y", instrument_2026)] provider_flat =
    (Ok [("Y", Observation
                 (mkObservation 102 100 2 "+2.00%" up "▲" primary
                    "2026-02-27"))],
     [Download ["2026"]]).
Proof. repeat split; vm_compute; reflexivity. Qed.

End FetchPricesProofs.

(* ================================================================== *)
(** * Properties of verify *)
(* ================================================================== *)

Module VerifyProofs.
Import Verify.
Local Open Scope list_scope.

(** ** Cutting at the first ['>'] *)

Lemma split_gt_Some (s t rest : Text) :
  split_gt s = Some (t, rest) -> s = t ++ GT :: rest /\ ~ In GT t.
Proof.
  revert t. induction s as [| c s IH]; simpl; intros t; [discriminate |].
  destruct (Z.eqb_spec c GT) as [-> | Hc].
  - intros [= <- <-]. split; [reflexivity | intros []].
  - destruct (split_gt s) as [[t' rest'] |]; [| discriminate].
    intros [= <- <-]. destruct (IH t' eq_refl) as [-> Hnot].
    split; [reflexivity |]. intros [H | H]; [now apply Hc | now apply Hnot].
Qed.

Lemma split_gt_app (t rest : Text) :
  ~ In GT t -> split_gt (t ++ GT :: rest) = Some (t, rest).
Proof.
  induction t as [| c t IH]; simpl; intros Hnot.
  - reflexivity.
  - destruct (Z.eqb_spec c GT) as [-> | Hc].
    + exfalso. apply Hnot. now left.
    + rewrite IH; [reflexivity |]. intros H. apply Hnot. now right.
Qed.

Lemma split_gt_None (s : Text) : split_gt s = None <-> ~ In GT s.
Proof.
  induction s as [| c s IH]; simpl.
  - split; [intros _ [] | reflexivity].
  - destruct (Z.eqb_spec c GT) as [-> | Hc].
    + split; [discriminate | intros H; exfalso; apply H; now left].
    + destruct (split_gt s) as [[t rest] |].
      * split; [discriminate |]. intros H. exfalso.
        assert (~ In GT s) as Hs by (intros Hin; apply H; now right).
        apply IH in Hs. discriminate.
      * split; [| reflexivity]. intros _ [H | H]; [now apply Hc |].
        revert H. now apply IH.
Qed.

(** With no ['>'] in [t], the cut of [t ++ s] is the cut of [s]. *)
Lemma split_gt_skip (t s : Text) :
  ~ In GT t ->
  split_gt (t ++ s) =
  match split_gt s with
  | Some (t', rest) => Some (t ++ t', rest)
  | None => None
  end.
Proof.
  induction t as [| c t IH]; simpl; intros Hnot.
  - now destruct (split_gt s) as [[t' rest] |].
  - destruct (Z.eqb_spec c GT) as [-> | Hc].
    + exfalso. apply Hnot. now left.
    + rewrite IH by (intros H; apply Hnot; now right).
      now destruct (split_gt s) as [[t' rest] |].
Qed.

(** With a ['>'] in the first part, the cut falls there. *)
Lemma split_gt_first (s x t rest : Text) :
  split_gt s = Some (t, rest) -> split_gt (s ++ x) = Some (t, rest ++ x).
Proof.
  intros H. apply split_gt_Some in H as [-> Hnot].
  rewrite <- app_assoc. simpl. now apply split_gt_app.
Qed.

(** ** Removing tags *)

Lemma match_tag_shorter (s after : Text) :
  match_tag s = Some after -> (List.length after < List.length s)%nat.
Proof.
  unfold match_tag. destruct s as [| c rest]; [discriminate |].
  destruct (c =? LT); [| discriminate].
  destruct (split_gt rest) as [[[| c' t] after'] |] eqn:Hcut; try discriminate.
  intros [= <-]. apply split_gt_Some in Hcut as [-> _].
  simpl. rewrite length_app. simpl. lia.
Qed.

Lemma sub_tags_fuel (f1 f2 : nat) (s : Text) :
  (List.length s <= f1)%nat -> (List.length s <= f2)%nat ->
  sub_tags f1 s = sub_tags f2 s.
Proof.
  revert f2 s. induction f1 as [| f1 IH]; intros f2 s H1 H2.
  - destruct s; [| simpl in H1; lia]. now destruct f2.
  - destruct f2 as [| f2].
    + destruct s; [reflexivity | simpl in H2; lia].
    + cbn [sub_tags].
      destruct (match_tag s) as [after |] eqn:Hm.
      * apply match_tag_shorter in Hm. apply IH; lia.
      * destruct s as [| c s']; [reflexivity |].
        f_equal. simpl in H1, H2. apply IH; lia.
Qed.

(** The defining equation of [strip_tags]. *)
Lemma strip_tags_eq (s : Text) :
  strip_tags s =
  match match_tag s with
  | Some after => strip_tags after
  | None =>
      match s with
      | [] => []
      | c :: s' => c :: strip_tags s'
      end
  end.
Proof.
  unfold strip_tags. destruct s as [| c s']; [reflexivity |].
  cbn [sub_tags List.length].
  destruct (match_tag (c :: s')) as [after |] eqn:Hm.
  - apply match_tag_shorter in Hm. simpl in Hm. apply sub_tags_fuel; lia.
  - reflexivity.
Qed.

Lemma strip_tags_nil : strip_tags [] = [].
Proof. reflexivity. Qed.

Lemma strip_tags_text (c : Z) (s : Text) :
  c <> LT -> strip_tags (c :: s) = c :: strip_tags s.
Proof.
  intros Hc. rewrite strip_tags_eq. simpl.
  destruct (Z.eqb_spec c LT); [contradiction | reflexivity].
Qed.

Lemma strip_tags_tag (t s : Text) :
  t <> [] -> ~ In GT t -> strip_tags (LT :: t ++ GT :: s) = strip_tags s.
Proof.
  intros Ht Hnot. rewrite strip_tags_eq. simpl.
  rewrite split_gt_app by exact Hnot.
  destruct t; [contradiction | reflexivity].
Qed.

(** An empty pair of angle brackets is kept. *)
Lemma strip_tags_empty_pair (s : Text) :
  strip_tags (LT :: GT :: s) = LT :: GT :: strip_tags s.
Proof.
  rewrite strip_tags_eq. reflexivity.
Qed.

(** A ['<'] with no ['>'] after it is kept. *)
Lemma strip_tags_open (s : Text) :
  ~ In GT s -> strip_tags (LT :: s) = LT :: strip_tags s.
Proof.
  intros Hnot. rewrite strip_tags_eq. simpl.
  apply split_gt_None in Hnot. now rewrite Hnot.
Qed.

(** ** White space next to tags *)

Lemma space_not_angle (c : Z) : is_space c = true -> c <> LT /\ c <> GT.
Proof.
  intros H. split; intros ->; discriminate.
Qed.

Lemma all_space_no_GT (u : Text) : all_space u = true -> ~ In GT u.
Proof.
  unfold all_space. rewrite forallb_forall. intros H Hin.
  apply H in Hin. discriminate.
Qed.

Lemma strip_tags_spaces (u s : Text) :
  all_space u = true -> strip_tags (u ++ s) = u ++ strip_tags s.
Proof.
  induction u as [| c u IH]; simpl; intros H; [reflexivity |].
  apply andb_true_iff in H as [Hc Hu].
  rewrite strip_tags_text by (now apply space_not_angle).
  now rewrite IH.
Qed.

(** White space after the text: a pending ['<'] stays pending. *)
Lemma strip_tags_trailing_spaces (n : nat) (s u : Text) :
  (List.length s <= n)%nat ->
  all_space u = true -> strip_tags (s ++ u) = strip_tags s ++ u.
Proof.
  revert s. induction n as [| n IH]; intros s Hlen Hu.
  - destruct s; [| simpl in Hlen; lia]. simpl.
    rewrite <- (app_nil_r u) at 1. rewrite strip_tags_spaces by exact Hu.
    now rewrite app_nil_r.
  - destruct s as [| c s]; [apply (IH []); [simpl; lia | exact Hu] |].
    simpl in Hlen. destruct (Z.eqb_spec c LT) as [-> | Hc].
    + destruct (split_gt s) as [[t rest] |] eqn:Hcut.
      * pose proof (split_gt_Some _ _ _ Hcut) as [-> Hnot].
        destruct t as [| c' t].
        -- simpl. rewrite !strip_tags_empty_pair. simpl. f_equal. f_equal.
           apply IH; [| exact Hu]. simpl in Hlen. lia.
        -- replace ((LT :: (c' :: t) ++ GT :: rest) ++ u)
             with (LT :: (c' :: t) ++ GT :: (rest ++ u))
             by (simpl; now rewrite <- app_assoc).
           rewrite !strip_tags_tag by (auto; discriminate).
           apply IH; [| exact Hu].
           rewrite length_app in Hlen. simpl in Hlen. lia.
      * apply split_gt_None in Hcut.
        assert (~ In GT (s ++ u)) as Hnot.
        { intros H. apply in_app_or in H as [H | H]; [now apply Hcut |].
          revert H. now apply all_space_no_GT. }
        simpl. rewrite !strip_tags_open by assumption. simpl. f_equal.
        apply IH; [lia | exact Hu].
    + simpl. rewrite !strip_tags_text by exact Hc. simpl. f_equal.
      apply IH; [lia | exact Hu].
Qed.

(** ** Places where no ['<'] is pending *)

Lemma pending_from_true (a : Text) :
  pending_from true a =
  match split_gt a with
  | Some (_, rest) => pending_from false rest
  | None => true
  end.
Proof.
  induction a as [| c a IH]; simpl; [reflexivity |].
  destruct (Z.eqb_spec c GT) as [-> | Hc]; [reflexivity |].
  destruct (c =? LT); rewrite IH; now destruct (split_gt a) as [[t rest] |].
Qed.

Lemma strip_tags_closed_app (n : nat) (a r : Text) :
  (List.length a <= n)%nat ->
  closed a = true ->
  strip_tags (a ++ r) = strip_tags a ++ strip_tags r.
Proof.
  unfold closed. revert a. induction n as [| n IH]; intros a Hlen Hcl.
  - destruct a; [reflexivity | simpl in Hlen; lia].
  - destruct a as [| c a]; [reflexivity |].
    simpl in Hlen, Hcl. destruct (Z.eqb_spec c LT) as [-> | Hc].
    + rewrite pending_from_true in Hcl.
      destruct (split_gt a) as [[t rest] |] eqn:Hcut; [| discriminate].
      pose proof (split_gt_Some _ _ _ Hcut) as [-> Hnot].
      rewrite length_app in Hlen. simpl in Hlen.
      destruct t as [| c' t].
      * simpl. rewrite !strip_tags_empty_pair. simpl. f_equal. f_equal.
        apply IH; [lia | exact Hcl].
      * replace ((LT :: (c' :: t) ++ GT :: rest) ++ r)
          with (LT :: (c' :: t) ++ GT :: (rest ++ r))
          by (simpl; now rewrite <- app_assoc).
        rewrite !strip_tags_tag by (auto; discriminate).
        apply IH; [simpl in Hlen; lia | exact Hcl].
    + simpl. rewrite !strip_tags_text by exact Hc. simpl. f_equal.
      apply IH; [lia |].
      now destruct (c =? GT).
Qed.

(** Inserting a tag where no ['<'] is pending changes nothing. *)
Lemma strip_tags_insert_tag (a t b : Text) :
  t <> [] -> ~ In GT t -> closed a = true ->
  strip_tags (a ++ LT :: t ++ GT :: b) = strip_tags (a ++ b).
Proof.
  intros Ht Hnot Hcl.
  rewrite !(strip_tags_closed_app (List.length a)) by auto.
  now rewrite strip_tags_tag.
Qed.

(** Replacing a run of white space by another one: either both outputs
    hold the run at the same place, or the run was inside a tag. *)
Lemma strip_tags_space_edit (n : nat) (a u v b : Text) :
  (List.length a <= n)%nat ->
  u <> [] -> v <> [] -> all_space u = true -> all_space v = true ->
  (exists x y,
     strip_tags (a ++ u ++ b) = x ++ u ++ y /\
     strip_tags (a ++ v ++ b) = x ++ v ++ y) \/
  strip_tags (a ++ u ++ b) = strip_tags (a ++ v ++ b).
Proof.
  intros Hlen Hu Hv Hsu Hsv. revert a Hlen.
  induction n as [| n IH]; intros a Hlen.
  - destruct a; [| simpl in Hlen; lia]. left. exists [], (strip_tags b).
    simpl. now rewrite !strip_tags_spaces.
  - destruct a as [| c a]; [apply (IH []); simpl; lia |].
    simpl in Hlen.
    assert (Hkeep :
      forall c0 : Z,
        strip_tags (c0 :: a ++ u ++ b) = c0 :: strip_tags (a ++ u ++ b) ->
        strip_tags (c0 :: a ++ v ++ b) = c0 :: strip_tags (a ++ v ++ b) ->
        (exists x y,
           strip_tags ((c0 :: a) ++ u ++ b) = x ++ u ++ y /\
           strip_tags ((c0 :: a) ++ v ++ b) = x ++ v ++ y) \/
        strip_tags ((c0 :: a) ++ u ++ b) = strip_tags ((c0 :: a) ++ v ++ b)).
    { intros c0 Eu Ev. simpl. rewrite Eu, Ev.
      destruct (IH a ltac:(lia)) as [(x & y & Hx & Hy) | Heq].
      - left. exists (c0 :: x), y. simpl. now rewrite Hx, Hy.
      - right. now rewrite Heq. }
    destruct (Z.eqb_spec c LT) as [-> | Hc];
      [| apply Hkeep; now apply strip_tags_text].
    destruct (split_gt a) as [[t rest] |] eqn:Hcut.
    + pose proof (split_gt_Some _ _ _ Hcut) as [-> Hnot].
      rewrite length_app in Hlen. simpl in Hlen.
      destruct t as [| c' t].
      * simpl. rewrite !strip_tags_empty_pair.
        destruct (IH rest ltac:(lia)) as [(x & y & Hx & Hy) | Heq].
        -- left. exists (LT :: GT :: x), y. simpl. now rewrite Hx, Hy.
        -- right. now rewrite Heq.
      * replace ((LT :: (c' :: t) ++ GT :: rest) ++ u ++ b)
          with (LT :: (c' :: t) ++ GT :: (rest ++ u ++ b))
          by (simpl; now rewrite <- app_assoc).
        replace ((LT :: (c' :: t) ++ GT :: rest) ++ v ++ b)
          with (LT :: (c' :: t) ++ GT :: (rest ++ v ++ b))
          by (simpl; now rewrite <- app_assoc).
        rewrite !strip_tags_tag by (auto; discriminate).
        apply IH. simpl in Hlen. lia.
    + apply split_gt_None in Hcut.
      destruct (split_gt b) as [[t2 rest] |] eqn:Hb.
      * right. pose proof (split_gt_Some _ _ _ Hb) as [-> Hnot2].
        replace ((LT :: a) ++ u ++ t2 ++ GT :: rest)
          with (LT :: (a ++ u ++ t2) ++ GT :: rest)
          by (simpl; now rewrite <- !app_assoc).
        replace ((LT :: a) ++ v ++ t2 ++ GT :: rest)
          with (LT :: (a ++ v ++ t2) ++ GT :: rest)
          by (simpl; now rewrite <- !app_assoc).
        assert (Hin : forall w, all_space w = true -> ~ In GT (a ++ w ++ t2)).
        { intros w Hw H. apply in_app_or in H as [H | H]; [now apply Hcut |].
          apply in_app_or in H as [H | H]; [| now apply Hnot2].
          revert H. now apply all_space_no_GT. }
        assert (Hne : forall w, w <> [] -> a ++ w ++ t2 <> []).
        { intros w Hw H. apply app_eq_nil in H as [_ H].
          apply app_eq_nil in H as [H _]. contradiction. }
        rewrite !strip_tags_tag by auto. reflexivity.
      * apply split_gt_None in Hb.
        apply Hkeep; apply strip_tags_open; intros H;
          (apply in_app_or in H as [H | H]; [now apply Hcut |]);
          (apply in_app_or in H as [H | H]; [| now apply Hb]);
          revert H; now apply all_space_no_GT.
Qed.

(** ** Collapsing and trimming white space *)

Lemma collapse_from_true_spaces (u s : Text) :
  all_space u = true -> collapse_from true (u ++ s) = collapse_from true s.
Proof.
  induction u as [| c u IH]; simpl; intros H; [reflexivity |].
  apply andb_true_iff in H as [Hc Hu]. rewrite Hc. now apply IH.
Qed.

Lemma collapse_from_spaces (f : bool) (u s : Text) :
  u <> [] -> all_space u = true ->
  collapse_from f (u ++ s) =
  (if f then [] else [SPACE]) ++ collapse_from true s.
Proof.
  destruct u as [| c u]; [contradiction |]. simpl. intros _ H.
  apply andb_true_iff in H as [Hc Hu]. rewrite Hc.
  rewrite (collapse_from_true_spaces _ _ Hu). now destruct f.
Qed.

Lemma collapse_from_space_edit (x u v y : Text) (f : bool) :
  u <> [] -> v <> [] -> all_space u = true -> all_space v = true ->
  collapse_from f (x ++ u ++ y) = collapse_from f (x ++ v ++ y).
Proof.
  intros Hu Hv Hsu Hsv. revert f.
  induction x as [| c x IH]; intros f; simpl.
  - now rewrite !collapse_from_spaces.
  - destruct (is_space c); [destruct f |]; now rewrite IH.
Qed.

Lemma collapse_from_trailing (u : Text) :
  all_space u = true ->
  forall (y : Text) (f : bool),
    collapse_from f (y ++ u) = collapse_from f y \/
    collapse_from f (y ++ u) = collapse_from f y ++ [SPACE].
Proof.
  intros Hu. induction y as [| c y IH]; intros f; simpl.
  - destruct u as [| c u]; [now left |].
    rewrite <- (app_nil_r (c :: u)).
    rewrite collapse_from_spaces by (auto; discriminate).
    destruct f; [left | right]; reflexivity.
  - destruct (is_space c); [destruct f |].
    + apply IH.
    + destruct (IH true) as [-> | ->]; [now left | now right].
    + destruct (IH false) as [-> | ->]; [now left | now right].
Qed.

Lemma lstrip_collapse_from (y : Text) :
  lstrip (collapse_from true y) = lstrip (collapse_from false y).
Proof.
  destruct y as [| c y]; simpl; [reflexivity |].
  now destruct (is_space c).
Qed.

Lemma strip_leading_space (z : Text) : strip (SPACE :: z) = strip z.
Proof. reflexivity. Qed.

Lemma lstrip_snoc (z : Text) :
  lstrip (z ++ [SPACE]) = lstrip z ++ [SPACE] \/
  (lstrip z = [] /\ lstrip (z ++ [SPACE]) = []).
Proof.
  induction z as [| c z IH]; simpl.
  - right. now split.
  - destruct (is_space c); [exact IH | now left].
Qed.

Lemma strip_trailing_space (z : Text) : strip (z ++ [SPACE]) = strip z.
Proof.
  unfold strip, rstrip.
  destruct (lstrip_snoc z) as [-> | [-> ->]]; [| reflexivity].
  now rewrite rev_app_distr.
Qed.

(** ** The hashed text under edits of the body *)

Lemma normalize_edit (b1 b2 : Text) :
  body_edit b1 b2 -> normalize b1 = normalize b2.
Proof.
  unfold normalize.
  induction 1 as [a u v b Hu Hv Hsu Hsv | u b Hu | u b Hu
                  | a t b Ht Hnot Hcl | x y _ IH | x y z _ IH1 _ IH2].
  - destruct (strip_tags_space_edit (List.length a) a u v b)
      as [(x & y & -> & ->) | ->]; auto.
    unfold collapse. now rewrite (collapse_from_space_edit x u v y).
  - rewrite strip_tags_spaces by exact Hu.
    destruct u as [| c u]; [reflexivity |].
    unfold collapse. rewrite collapse_from_spaces by (auto; discriminate).
    simpl. rewrite strip_leading_space.
    unfold strip. now rewrite lstrip_collapse_from.
  - rewrite (strip_tags_trailing_spaces (List.length b)) by auto.
    unfold collapse.
    destruct (collapse_from_trailing u Hu (strip_tags b) false) as [-> | ->];
      [reflexivity |].
    now rewrite strip_trailing_space.
  - now rewrite strip_tags_insert_tag.
  - now symmetry.
  - now transitivity (strip (collapse (strip_tags y))).
Qed.

Import VerifyExamples.

(** C10, corrected: for two files whose articles are found with bodies
    that differ by edits of white space (a non-empty run replaced by
    another, white space added or removed at either end) or by tags
    ['<' t '>'], [t] non-empty and free of ['>'], inserted or removed where
    no ['<'] is pending, the hashed text and the computed SHA-256 are the
    same, and so is the status when both files publish the same hash. *)
Theorem C10_hash_invariant_under_body_edits
    (f1 f2 : string) (c1 c2 b1 b2 : Text) :
  search_article c1 = Some b1 ->
  search_article c2 = Some b2 ->
  body_edit b1 b2 ->
  normalize b1 = normalize b2 /\
  computed_of (verify f1 c1) = Some (SHA256.hexdigest (utf8 (normalize b1))) /\
  computed_of (verify f2 c2) = computed_of (verify f1 c1) /\
  (search_hash c1 = search_hash c2 ->
   status_of (verify f2 c2) = status_of (verify f1 c1)).
Proof.
  intros H1 H2 Hedit. pose proof (normalize_edit _ _ Hedit) as Hn.
  unfold verify, computed_of, status_of, computed_hash.
  rewrite H1, H2, Hn. split; [reflexivity |].
  split; [now destruct (search_hash c1) |].
  split.
  - now destruct (search_hash c1), (search_hash c2).
  - intros ->. now destruct (search_hash c2).
Qed.

Lemma plain_to_spaced : body_edit plain_body spaced_body.
Proof.
  apply edit_trans with (y := [10; 32; 32] ++ plain_body).
  { now apply edit_lead. }
  apply edit_trans with (y := [10; 32; 32] ++ txt "<em>" ++ plain_body).
  { apply (edit_tag [10; 32; 32] (txt "em") plain_body).
    - discriminate.
    - vm_compute. intuition discriminate.
    - reflexivity. }
  apply edit_trans
    with (y := [10; 32; 32] ++ txt "<em>" ++ plain_body ++ txt "</em>").
  { apply (edit_tag ([10; 32; 32] ++ txt "<em>" ++ plain_body)
                    (txt "/em") []).
    - discriminate.
    - vm_compute. intuition discriminate.
    - reflexivity. }
  apply (edit_trail [10]
           ([10; 32; 32] ++ txt "<em>" ++ plain_body ++ txt "</em>")).
  reflexivity.
Qed.

Lemma C10_witness :
  normalize plain_body = normalize spaced_body /\
  computed_of (verify "signal.html" (page plain_body)) =
    Some (SHA256.hexdigest (utf8 (normalize plain_body))) /\
  computed_of (verify "signal.html" (page spaced_body)) =
    computed_of (verify "signal.html" (page plain_body)) /\
  (search_hash (page plain_body) = search_hash (page spaced_body) ->
   status_of (verify "signal.html" (page spaced_body)) =
   status_of (verify "signal.html" (page plain_body))).
Proof.
  apply (C10_hash_invariant_under_body_edits "signal.html" "signal.html"
           (page plain_body) (page spaced_body) plain_body spaced_body).
  - vm_compute. reflexivity.
  - vm_compute. reflexivity.
  - exact plain_to_spaced.
Defined.

(** C10, counterexample to the invariance under any tag: wrapping the
    text of the article in a span whose attribute value holds a ['>'] leaves
    part of the tag in the hashed text; the computed hash changes and the
    file goes from VERIFIED to MISMATCH.  Likewise a tag inserted after a
    bare ['<'] takes the text in between away with it. *)
Lemma C10_tag_with_gt_counterexample :
  span_body = txt "<span title='a>b'>" ++ plain_body ++ txt "</span>" /\
  search_article (page plain_body) = Some plain_body /\
  search_article (page span_body) = Some span_body /\
  normalize span_body = txt "b'>hello" /\
  verify "signal.html" (page plain_body) =
    ("signal.html", Some hello_hash, Some hello_hash, "VERIFIED") /\
  verify "signal.html" (page span_body) =
    ("signal.html", Some hello_hash,
     Some (txt "bf9defce924ac78f7b84b8853fd29a1bd9727d5ac305b4fa72d06cab9d339169"),
     "MISMATCH") /\
  compare_bold_body = txt "1 < 2 " ++ txt "<b>" ++ txt "ok" ++ txt "</b>" /\
  normalize compare_body = txt "1 < 2 ok" /\
  normalize compare_bold_body = txt "1 ok" /\
  computed_of (verify "weekly.html" (page compare_body)) <>
  computed_of (verify "weekly.html" (page compare_bold_body)).
Proof.
  repeat split; try (vm_compute; reflexivity).
  vm_compute. discriminate.
Qed.

End VerifyProofs.

(* ================================================================== *)
(** * Further properties of fetch_all *)
(* ================================================================== *)

Module FetchPricesExtra.
Import Py FetchPrices FetchExamples FetchPricesProofs.
Local Open Scope list_scope.

(** ** The queries of a run *)

Lemma filter_nothing {A : Type} (l : list A) : filter (fun _ => false) l = [].
Proof. induction l as [| x l IH]; [reflexivity | exact IH]. Qed.

(** X1: a run sends the batch query first and once, then at most one single
    query per catalog entry: the single queries are those of a selection of
    the catalog entries, one for the ticker of each selected entry, in the
    order of the catalog; the selected entries are those for which line 73
    raises [KeyError] or [TypeError].  When the batch query raises, that
    exception ends the run and no single query is sent. *)
Theorem query_budget (catalog : Catalog) (prov : Provider) :
  NoDup (keys catalog) ->
  exists selected : string * InstrumentSpec -> bool,
    snd (fetch_all_with catalog prov) =
      Download (request_of catalog) ::
      map (fun item => History (ticker (snd item)))
          (filter selected catalog) /\
    (forall data, download prov (request_of catalog) = Ok data ->
       forall item, selected item = needs_fallback data (ticker (snd item))) /\
    (forall e, download prov (request_of catalog) = Raise e ->
       (forall item, selected item = false) /\
       fetch_all_with catalog prov =
         (Raise e, [Download (request_of catalog)])).
Proof.
  intros Hnd.
  destruct (download prov (request_of catalog)) as [data | e] eqn:Hdl.
  - exists (fun item => needs_fallback data (ticker (snd item))).
    rewrite (fetch_all_run _ _ _ Hnd Hdl). simpl.
    split; [reflexivity |]. split; [| discriminate].
    now intros data' [= <-].
  - exists (fun _ => false). rewrite (fetch_all_fatal _ _ _ Hdl). simpl.
    split; [| split; [discriminate |]].
    + now rewrite filter_nothing.
    + intros e' [= <-]. now split.
Qed.

Lemma query_budget_witness :
  exists selected : string * InstrumentSpec -> bool,
    snd (fetch_all_with INSTRUMENTS sample_provider) =
      Download (request_of INSTRUMENTS) ::
      map (fun item => History (ticker (snd item)))
          (filter selected INSTRUMENTS) /\
    (forall data,
       download sample_provider (request_of INSTRUMENTS) = Ok data ->
       forall item, selected item = needs_fallback data (ticker (snd item))) /\
    (forall e,
       download sample_provider (request_of INSTRUMENTS) = Raise e ->
       (forall item, selected item = false) /\
       fetch_all_with INSTRUMENTS sample_provider =
         (Raise e, [Download (request_of INSTRUMENTS)])).
Proof.
  apply (query_budget INSTRUMENTS sample_provider).
  apply distinct_NoDup. reflexivity.
Defined.

(** ** Failures of the single query *)

(** X2: for an entry that takes the fallback, an exception raised by the
    single query, or a single answer without a "Close" column, becomes that
    entry's failure record, with the exception's text as message and with
    the entry's category. *)
Theorem fallback_failure_is_recorded
    (catalog : Catalog) (prov : Provider) (data : DataFrame)
    (pre post : Catalog) (name : string) (info : InstrumentSpec) :
  catalog = pre ++ (name, info) :: post ->
  NoDup (keys catalog) ->
  download prov (request_of catalog) = Ok data ->
  needs_fallback data (ticker info) = true ->
  exists res qs,
    fetch_all_with catalog prov = (Ok res, qs) /\
    let sent := Download (request_of catalog) :: fallback_queries data pre in
    (forall e, history prov sent (ticker info) = Raise e ->
       dict_get name res =
       Some (Failure (str_exc e) (Some (category info)))) /\
    (forall single,
       history prov sent (ticker info) = Ok single ->
       dict_get "Close" single = None ->
       dict_get name res = Some (Failure "'Close'" (Some (category info)))).
Proof.
  intros Hcat Hnd Hdl Hfb.
  destruct (run_lookup _ _ _ _ _ _ _ Hcat Hnd Hdl) as (res & Hrun & Hget).
  rewrite (closes_of_fallback _ _ _ _ Hfb) in Hget.
  exists res. eexists. split; [exact Hrun |]. simpl. split.
  - intros e He. rewrite Hget. unfold fallback_closes. now rewrite He.
  - intros single Hs Hclose. rewrite Hget. unfold fallback_closes, getitem.
    now rewrite Hs, Hclose.
Qed.

Lemma fallback_failure_is_recorded_witness :
  exists res qs,
    fetch_all_with catalog_AB (provider_A (two_days 100 102)) = (Ok res, qs) /\
    let sent :=
      Download (request_of catalog_AB) ::
      fallback_queries (MultiFrame [(("Close", "A"), two_days 100 102)])
        [("A", instrument_A)] in
    (forall e,
       history (provider_A (two_days 100 102)) sent "B" = Raise e ->
       dict_get "B" res = Some (Failure (str_exc e) (Some secondary))) /\
    (forall single,
       history (provider_A (two_days 100 102)) sent "B" = Ok single ->
       dict_get "Close" single = None ->
       dict_get "B" res = Some (Failure "'Close'" (Some secondary))).
Proof.
  apply (fallback_failure_is_recorded catalog_AB
           (provider_A (two_days 100 102))
           (MultiFrame [(("Close", "A"), two_days 100 102)])
           [("A", instrument_A)] [] "B" (mkInstrument "B" 4 secondary None)).
  - reflexivity.
  - apply distinct_NoDup. reflexivity.
  - reflexivity.
  - reflexivity.
Defined.

(** ** Missing values and old rows *)

Lemma dropna_missing_row (s1 s2 : Series) (d : string) (x : float) :
  PrimFloat.is_nan x = true ->
  dropna (s1 ++ (d, x) :: s2) = dropna (s1 ++ s2).
Proof.
  intros Hx. unfold dropna. rewrite !filter_app. simpl. now rewrite Hx.
Qed.

(** X3: a day whose close is missing (NaN) has no effect: two batch answers
    whose series for an entry differ by one such row give the entry the same
    record. *)
Theorem missing_day_is_ignored
    (catalog : Catalog) (prov1 prov2 : Provider) (data1 data2 : DataFrame)
    (name : string) (info : InstrumentSpec)
    (s1 s2 : Series) (d : string) (x : float) :
  NoDup (keys catalog) ->
  In (name, info) catalog ->
  download prov1 (request_of catalog) = Ok data1 ->
  download prov2 (request_of catalog) = Ok data2 ->
  getitem_close_ticker data1 (ticker info) =
    Ok (ItemSeries (s1 ++ (d, x) :: s2)) ->
  getitem_close_ticker data2 (ticker info) = Ok (ItemSeries (s1 ++ s2)) ->
  PrimFloat.is_nan x = true ->
  exists res1 qs1 res2 qs2,
    fetch_all_with catalog prov1 = (Ok res1, qs1) /\
    fetch_all_with catalog prov2 = (Ok res2, qs2) /\
    dict_get name res1 = dict_get name res2.
Proof.
  intros Hnd Hin Hdl1 Hdl2 Hs1 Hs2 Hx.
  do 4 eexists.
  split; [apply fetch_all_run; eassumption |].
  split; [apply fetch_all_run; eassumption |].
  rewrite (records_of_lookup_batch _ _ _ _ _ _ _ Hnd Hin Hs1).
  rewrite (records_of_lookup_batch _ _ _ _ _ _ _ Hnd Hin Hs2).
  now rewrite dropna_missing_row.
Qed.

Lemma missing_day_is_ignored_witness :
  exists res1 qs1 res2 qs2,
    fetch_all_with catalog_A
      (provider_A ([("2026-02-25", 99%float)] ++
                   ("2026-02-26", nan) :: [("2026-02-27", 102%float)]))
      = (Ok res1, qs1) /\
    fetch_all_with catalog_A
      (provider_A ([("2026-02-25", 99%float)] ++ [("2026-02-27", 102%float)]))
      = (Ok res2, qs2) /\
    dict_get "A" res1 = dict_get "A" res2.
Proof.
  apply (missing_day_is_ignored catalog_A _ _
           (MultiFrame [(("Close", "A"),
                         [("2026-02-25", 99%float)] ++
                         ("2026-02-26", nan) :: [("2026-02-27", 102%float)])])
           (MultiFrame [(("Close", "A"),
                         [("2026-02-25", 99%float)] ++
                         [("2026-02-27", 102%float)])])
           "A" instrument_A
           [("2026-02-25", 99%float)] [("2026-02-27", 102%float)]
           "2026-02-26" nan).
  - apply distinct_NoDup. reflexivity.
  - left. reflexivity.
  - reflexivity.
  - reflexivity.
  - reflexivity.
  - reflexivity.
  - reflexivity.
Defined.

(** ** Signs *)

Lemma SFltb_leb (a b : spec_float) : SFltb a b = true -> SFleb a b = true.
Proof.
  unfold SFltb, SFleb. destruct (SFcompare a b) as [[| |] |]; easy.
Qed.

Lemma ltb_leb (a b : float) : (a <? b)%float = true -> (a <=? b)%float = true.
Proof. rewrite ltb_spec, leb_spec. apply SFltb_leb. Qed.

(** The sign of the change string against the direction. *)
Lemma format_change_sign (c : float) :
  (fst (classify c) = up -> exists rest, format_change c = "+" ++ rest)%string /\
  (fst (classify c) = down ->
   (exists rest, format_change c = "-" ++ rest)%string \/
   format_change c = "nan%").
Proof.
  destruct (classify_cases c) as (_ & Hup & Hdown). split.
  - intros H. apply Hup in H as [_ Hpos]. unfold format_change.
    rewrite (ltb_leb _ _ Hpos). now eexists.
  - intros H. apply Hdown in H as [Hflat Hpos]. unfold format_change, format_f.
    rewrite ltb_spec, abs_spec in Hflat. rewrite ltb_spec in Hpos.
    rewrite leb_spec.
    change (Prim2SF 0%float) with (S754_zero false) in *.
    set (k := Prim2SF 0.01%float) in *. vm_compute in k. subst k.
    destruct (Prim2SF c) as [s | s | | s m e]; simpl in *; try discriminate.
    + destruct s; [| discriminate]. left. now eexists.
    + now right.
    + destruct s; [| discriminate]. left. now eexists.
Qed.

(** X4: in every price observation of a run, a direction up comes with a
    change string that starts with "+", and a direction down with one that
    starts with "-" or is "nan%" (a change that is NaN, as that of the
    closes 0 and 0). *)
Theorem direction_agrees_with_sign
    (catalog : Catalog) (prov : Provider) (res : Results)
    (qs : list Query) (name : string) (o : PriceObservation) :
  NoDup (keys catalog) ->
  fetch_all_with catalog prov = (Ok res, qs) ->
  dict_get name res = Some (Observation o) ->
  (direction o = up -> exists rest, change_str o = "+" ++ rest)%string /\
  (direction o = down ->
   (exists rest, change_str o = "-" ++ rest)%string \/ change_str o = "nan%").
Proof.
  intros Hnd Hrun Hget.
  destruct (download prov (request_of catalog)) as [data | e] eqn:Hdl.
  - rewrite (fetch_all_run _ _ _ Hnd Hdl) in Hrun.
    injection Hrun as <- <-.
    destruct (records_of_inv _ _ _ _ _ _ Hget)
      as (pre & info & post & Hcat & Hrec).
    symmetry in Hrec.
    destruct (record_of_observation _ _ _ Hrec)
      as (front & prev & cur & _ & ->).
    apply format_change_sign.
  - rewrite (fetch_all_fatal _ _ _ Hdl) in Hrun. discriminate.
Qed.

Lemma direction_agrees_with_sign_witness :
  (direction observation_A = up ->
   exists rest, change_str observation_A = "+" ++ rest)%string /\
  (direction observation_A = down ->
   (exists rest, change_str observation_A = "-" ++ rest)%string \/
   change_str observation_A = "nan%").
Proof.
  apply (direction_agrees_with_sign catalog_A
           (provider_A (two_days 100 102))
           [("A", Observation observation_A)] [Download ["A"]] "A"
           observation_A).
  - apply distinct_NoDup. reflexivity.
  - vm_compute. reflexivity.
  - reflexivity.
Defined.

(** ** Unchanged negative prices *)

Lemma negative_finite (p : float) :
  (neg_infinity <? p)%float = true -> (p <? 0)%float = true ->
  exists m e, Prim2SF p = S754_finite true m e.
Proof.
  rewrite !ltb_spec.
  change (Prim2SF 0%float) with (S754_zero false).
  change (Prim2SF neg_infinity) with (S754_infinity true).
  unfold SFltb, SFcompare.
  destruct (Prim2SF p) as [s | s | | s m e]; try discriminate.
  - destruct s; discriminate.
  - destruct s; [| discriminate]. intros _ _. now exists m, e.
Qed.

Lemma pct_unchanged_negative (p : float) :
  (neg_infinity <? p)%float = true -> (p <? 0)%float = true ->
  pct p p = neg_zero.
Proof.
  intros Hlo Hneg. destruct (negative_finite p Hlo Hneg) as (m & e & Hp).
  apply Prim2SF_inj. unfold pct.
  rewrite mul_spec, div_spec, sub_spec, Hp.
  change (Prim2SF 100%float) with (S754_finite false 7036874417766400 (-46)).
  change (Prim2SF neg_zero) with (S754_zero true).
  unfold SF64sub, SFsub. rewrite Z.sub_diag. reflexivity.
Qed.

(** X5: when the last two closes are the same negative number, the change
    is the float -0.0: it is classified flat and, because -0.0 >= 0 holds,
    its change string is "+-0.00%". *)
Theorem unchanged_negative_price_change_string
    (catalog : Catalog) (prov : Provider) (data : DataFrame)
    (pre post : Catalog) (name : string) (info : InstrumentSpec)
    (front : Series) (d2 d1 : string) (p : float) :
  catalog = pre ++ (name, info) :: post ->
  NoDup (keys catalog) ->
  download prov (request_of catalog) = Ok data ->
  closes_of prov data
    (Download (request_of catalog) :: fallback_queries data pre)
    (ticker info) = Ok (front ++ [(d2, p); (d1, p)]) ->
  (neg_infinity <? p)%float = true ->
  (p <? 0)%float = true ->
  exists res qs o,
    fetch_all_with catalog prov = (Ok res, qs) /\
    dict_get name res = Some (Observation o) /\
    direction o = flat /\
    change_pct o = neg_zero /\
    change_str o = "+-0.00%".
Proof.
  intros Hcat Hnd Hdl Hcloses Hlo Hneg.
  destruct (run_lookup _ _ _ _ _ _ _ Hcat Hnd Hdl) as (res & Hrun & Hget).
  rewrite Hcloses in Hget. simpl in Hget. rewrite record_of_closes_two in Hget.
  exists res. eexists. eexists. split; [exact Hrun |]. split; [exact Hget |].
  unfold observe. simpl. rewrite (pct_unchanged_negative p Hlo Hneg).
  repeat split.
Qed.

Lemma unchanged_negative_price_change_string_witness :
  exists res qs o,
    fetch_all_with catalog_A (provider_A (two_days (-37.63) (-37.63)))
      = (Ok res, qs) /\
    dict_get "A" res = Some (Observation o) /\
    direction o = flat /\
    change_pct o = neg_zero /\
    change_str o = "+-0.00%".
Proof.
  apply (unchanged_negative_price_change_string catalog_A
           (provider_A (two_days (-37.63) (-37.63)))
           (MultiFrame [(("Close", "A"), two_days (-37.63) (-37.63))])
           [] [] "A" instrument_A [] "2026-02-26" "2026-02-27"
           (-37.63)%float).
  - reflexivity.
  - apply distinct_NoDup. reflexivity.
  - reflexivity.
  - vm_compute. reflexivity.
  - reflexivity.
  - reflexivity.
Defined.

End FetchPricesExtra.

(* ================================================================== *)
(** * Further properties of verify *)
(* ================================================================== *)

Module VerifyExtra.
Import Verify VerifyExamples VerifyNotions VerifyProofs.
Local Open Scope list_scope.

(** ** Prefixes and first occurrences *)

Lemma after_prefix_Some (pat s r : Text) :
  after_prefix pat s = Some r <-> s = pat ++ r.
Proof.
  revert s. induction pat as [| p pat IH]; intros s; simpl.
  - split; [now intros [= ->] | now intros ->].
  - destruct s as [| c s].
    + split; discriminate.
    + destruct (Z.eqb_spec p c) as [-> | Hne].
      * rewrite IH. split; [now intros -> | now intros [= ->]].
      * split; [discriminate | intros [= -> _]; contradiction].
Qed.

Lemma after_prefix_refl (pat r : Text) : after_prefix pat (pat ++ r) = Some r.
Proof. now apply after_prefix_Some. Qed.

(** Whether [pat] starts a text is decided by its first [length pat]
    characters. *)
Lemma after_prefix_None_app (pat x y : Text) :
  (List.length pat <= List.length x)%nat ->
  after_prefix pat x = None -> after_prefix pat (x ++ y) = None.
Proof.
  revert x. induction pat as [| p pat IH]; intros x Hlen; simpl.
  - discriminate.
  - destruct x as [| c x]; [simpl in Hlen; lia |]. simpl.
    destruct (p =? c); [| reflexivity].
    apply IH. simpl in Hlen. lia.
Qed.

Lemma after_prefix_None_cut (pat x y : Text) :
  (List.length pat <= List.length x)%nat ->
  after_prefix pat (x ++ y) = None -> after_prefix pat x = None.
Proof.
  revert x. induction pat as [| p pat IH]; intros x Hlen; simpl.
  - discriminate.
  - destruct x as [| c x]; [simpl in Hlen; lia |]. simpl.
    destruct (p =? c); [| reflexivity].
    apply IH. simpl in Hlen. lia.
Qed.

Lemma split_at_unfold (pat s : Text) :
  split_at pat s =
  match after_prefix pat s with
  | Some rest => Some ([], rest)
  | None =>
      match s with
      | [] => None
      | c :: s' =>
          match split_at pat s' with
          | Some (before, rest) => Some (c :: before, rest)
          | None => None
          end
      end
  end.
Proof. destruct s; reflexivity. Qed.

(** [split_at] cuts at the first occurrence. *)
Lemma split_at_Some (pat s a r : Text) :
  split_at pat s = Some (a, r) ->
  s = a ++ pat ++ r /\
  forall a1 a2, a = a1 ++ a2 -> a2 <> [] ->
    after_prefix pat (a2 ++ pat ++ r) = None.
Proof.
  revert a. induction s as [| c s IH]; intros a; rewrite split_at_unfold.
  - destruct (after_prefix pat []) as [rest |] eqn:Hp; [| discriminate].
    intros [= <- <-]. apply after_prefix_Some in Hp. split; [exact Hp |].
    intros a1 a2 H. symmetry in H. apply app_eq_nil in H as [_ ->].
    contradiction.
  - destruct (after_prefix pat (c :: s)) as [rest |] eqn:Hp.
    + intros [= <- <-]. apply after_prefix_Some in Hp. split; [exact Hp |].
      intros a1 a2 H. symmetry in H. apply app_eq_nil in H as [_ ->].
      contradiction.
    + destruct (split_at pat s) as [[before rest] |] eqn:Hs; [| discriminate].
      intros [= <- <-]. destruct (IH before eq_refl) as [-> Hfirst].
      split; [reflexivity |].
      intros a1 a2 Ha Hne. destruct a1 as [| c1 a1]; simpl in Ha.
      * subst a2. exact Hp.
      * injection Ha as <- ->. now apply (Hfirst a1 a2).
Qed.

Lemma split_at_first (pat a r : Text) :
  (forall a1 a2, a = a1 ++ a2 -> a2 <> [] ->
     after_prefix pat (a2 ++ pat ++ r) = None) ->
  split_at pat (a ++ pat ++ r) = Some (a, r).
Proof.
  induction a as [| c a IH]; intros Hfirst; rewrite split_at_unfold.
  - simpl. now rewrite after_prefix_refl.
  - rewrite (Hfirst [] (c :: a) eq_refl) by discriminate.
    cbn [app]. rewrite IH; [reflexivity |].
    intros a1 a2 -> Hne. apply (Hfirst (c :: a1) a2); auto.
Qed.

Lemma split_at_occurs (pat x y : Text) :
  exists a r, split_at pat (x ++ pat ++ y) = Some (a, r).
Proof.
  induction x as [| c x IH]; rewrite split_at_unfold.
  - simpl. rewrite after_prefix_refl. now eexists _, _.
  - destruct (after_prefix pat ((c :: x) ++ pat ++ y)); [now eexists _, _ |].
    cbn [app]. destruct IH as (a & r & ->). now eexists _, _.
Qed.

Lemma split_at_None (pat s : Text) :
  split_at pat s = None <-> ~ occurs pat s.
Proof.
  split.
  - intros H (x & y & ->). destruct (split_at_occurs pat x y) as (a & r & H').
    congruence.
  - intros H. destruct (split_at pat s) as [[a r] |] eqn:Hs; [| reflexivity].
    exfalso. apply H. apply split_at_Some in Hs as [-> _]. now exists a, r.
Qed.

(** [first_at] does not depend on what follows the pattern. *)
Lemma first_at_spec (pat a r : Text) :
  first_at pat a <->
  forall a1 a2, a = a1 ++ a2 -> a2 <> [] ->
    after_prefix pat (a2 ++ pat ++ r) = None.
Proof.
  unfold first_at. split; intros H a1 a2 Ha Hne.
  - rewrite app_assoc. apply after_prefix_None_app; [| now apply (H a1)].
    rewrite length_app. lia.
  - specialize (H a1 a2 Ha Hne). rewrite app_assoc in H.
    apply after_prefix_None_cut in H; [exact H |].
    rewrite length_app. lia.
Qed.

(** ** The article search *)

Lemma match_article_spec (s body : Text) :
  match_article s = Some body <->
  exists attrs post,
    s = OPEN ++ attrs ++ GT :: body ++ CLOSE ++ post /\
    ~ In GT attrs /\ first_at CLOSE body.
Proof.
  unfold match_article. fold OPEN CLOSE. split.
  - destruct (after_prefix OPEN s) as [rest |] eqn:Hp; [| discriminate].
    destruct (split_gt rest) as [[attrs inner] |] eqn:Hg; [| discriminate].
    destruct (split_at CLOSE inner) as [[b post] |] eqn:Hs; [| discriminate].
    intros [= <-].
    apply after_prefix_Some in Hp. apply split_gt_Some in Hg as [Hg Hnot].
    apply split_at_Some in Hs as [Hs Hfirst].
    exists attrs, post. subst. split; [reflexivity |]. split; [exact Hnot |].
    now apply (first_at_spec CLOSE b post).
  - intros (attrs & post & -> & Hnot & Hfirst).
    rewrite after_prefix_refl, (split_gt_app _ _ Hnot).
    rewrite split_at_first; [reflexivity |].
    now apply first_at_spec.
Qed.

Lemma split_gt_tail (l y : Text) :
  exists t z, split_gt (l ++ GT :: y) = Some (t, z ++ y).
Proof.
  induction l as [| c l IH]; simpl.
  - now exists [], [].
  - destruct (c =? GT).
    + exists [], (l ++ [GT]). now rewrite <- app_assoc.
    + destruct IH as (t & z & ->). now exists (c :: t), z.
Qed.

(** After an opening, any ['>'] followed later by a closing tag makes a
    match. *)
Lemma match_article_possible (l y post : Text) :
  exists body, match_article (OPEN ++ l ++ GT :: y ++ CLOSE ++ post) = Some body.
Proof.
  unfold match_article. fold OPEN CLOSE. rewrite after_prefix_refl.
  destruct (split_gt_tail l (y ++ CLOSE ++ post)) as (t & z & ->).
  rewrite (app_assoc z y).
  destruct (split_at_occurs CLOSE (z ++ y) post) as (a & r & ->).
  now exists a.
Qed.

Lemma search_article_unfold (s : Text) :
  search_article s =
  match match_article s with
  | Some body => Some body
  | None =>
      match s with
      | [] => None
      | _ :: s' => search_article s'
      end
  end.
Proof. destruct s; reflexivity. Qed.

Lemma search_article_leftmost (c body : Text) :
  search_article c = Some body ->
  exists pre rest,
    c = pre ++ rest /\ match_article rest = Some body /\
    forall p1 p2, pre = p1 ++ p2 -> p2 <> [] ->
      match_article (p2 ++ rest) = None.
Proof.
  induction c as [| x c IH]; rewrite search_article_unfold.
  - destruct (match_article []) eqn:Hm; [| discriminate].
    intros [= ->]. exists [], []. repeat split; auto.
    intros p1 p2 H. symmetry in H. apply app_eq_nil in H as [_ ->].
    contradiction.
  - destruct (match_article (x :: c)) eqn:Hm.
    + intros [= ->]. exists [], (x :: c). repeat split; auto.
      intros p1 p2 H. symmetry in H. apply app_eq_nil in H as [_ ->].
      contradiction.
    + intros H. destruct (IH H) as (pre & rest & -> & Hrest & Hleft).
      exists (x :: pre), rest. repeat split; auto.
      intros p1 p2 Hp Hne. destruct p1 as [| y p1]; simpl in Hp.
      * subst p2. exact Hm.
      * injection Hp as <- ->. now apply (Hleft p1 p2).
Qed.

(** An opening that comes before a matched article would itself be
    matched. *)
Lemma earlier_opening_matches (p2 attrs body post r : Text) :
  p2 <> [] ->
  after_prefix OPEN (p2 ++ OPEN ++ attrs ++ GT :: body ++ CLOSE ++ post)
    = Some r ->
  exists b,
    match_article (p2 ++ OPEN ++ attrs ++ GT :: body ++ CLOSE ++ post)
      = Some b.
Proof.
  intros Hne Hp. apply after_prefix_Some in Hp.
  assert (Hcut : exists l, r = l ++ GT :: body ++ CLOSE ++ post).
  { replace (p2 ++ OPEN ++ attrs ++ GT :: body ++ CLOSE ++ post)
      with ((p2 ++ OPEN ++ attrs) ++ GT :: body ++ CLOSE ++ post) in Hp
      by now rewrite <- !app_assoc.
    apply app_eq_app in Hp as [l [[Hw Hr] | [Ho Hr]]].
    - now exists l.
    - exfalso. assert (Hlen := f_equal (@List.length Z) Ho).
      rewrite !length_app in Hlen. change (List.length OPEN) with 8%nat in Hlen.
      destruct p2; [contradiction | simpl in Hlen; lia]. }
  destruct Hcut as [l ->]. rewrite Hp. apply match_article_possible.
Qed.

Lemma first_at_tail (pat : Text) (c : Z) (a : Text) :
  first_at pat (c :: a) -> first_at pat a.
Proof.
  intros H a1 a2 -> Hne. now apply (H (c :: a1) a2).
Qed.

Lemma search_article_sound (c body : Text) :
  search_article c = Some body ->
  exists pre attrs post,
    c = pre ++ OPEN ++ attrs ++ GT :: body ++ CLOSE ++ post /\
    first_at OPEN pre /\ ~ In GT attrs /\ first_at CLOSE body.
Proof.
  intros H.
  destruct (search_article_leftmost _ _ H) as (pre & rest & -> & Hm & Hleft).
  apply match_article_spec in Hm as (attrs & post & -> & Hnot & Hfirst).
  exists pre, attrs, post. repeat split; auto.
  apply (first_at_spec OPEN pre (attrs ++ GT :: body ++ CLOSE ++ post)).
  intros p1 p2 Hp Hne.
  destruct (after_prefix OPEN
              (p2 ++ OPEN ++ attrs ++ GT :: body ++ CLOSE ++ post))
    as [r |] eqn:Hr; [| reflexivity].
  destruct (earlier_opening_matches _ _ _ _ _ Hne Hr) as [b Hb].
  rewrite (Hleft p1 p2 Hp Hne) in Hb. discriminate.
Qed.

Lemma search_article_exact (pre attrs body post : Text) :
  first_at OPEN pre -> ~ In GT attrs -> first_at CLOSE body ->
  search_article (pre ++ OPEN ++ attrs ++ GT :: body ++ CLOSE ++ post)
    = Some body.
Proof.
  intros Hpre Hnot Hfirst.
  assert (Hm : match_article (OPEN ++ attrs ++ GT :: body ++ CLOSE ++ post)
               = Some body).
  { apply match_article_spec. now exists attrs, post. }
  induction pre as [| x pre IH]; rewrite search_article_unfold.
  - cbn [app]. now rewrite Hm.
  - assert (Hx : match_article
                   ((x :: pre) ++ OPEN ++ attrs ++ GT :: body ++ CLOSE ++ post)
                 = None).
    { unfold match_article. fold OPEN.
      pose proof (proj1 (first_at_spec OPEN (x :: pre)
                           (attrs ++ GT :: body ++ CLOSE ++ post)) Hpre
                    [] (x :: pre) eq_refl) as Hp.
      rewrite Hp by discriminate. reflexivity. }
    rewrite Hx. cbn [app]. apply IH. now apply first_at_tail in Hpre.
Qed.

(** X6: what the article pattern finds.  [search_article] answers [body]
    exactly when the content reads
    [pre ++ "<article" ++ attrs ++ ">" ++ body ++ "</article>" ++ post]
    where that "<article" is the first one of the content, [attrs] holds no
    ['>'] and no "</article>" begins inside [body]: the article is the text
    between the first ['>'] after the first "<article" and the first
    "</article>" after it. *)
Theorem search_article_spec (c body : Text) :
  search_article c = Some body <->
  exists pre attrs post,
    c = pre ++ OPEN ++ attrs ++ GT :: body ++ CLOSE ++ post /\
    first_at OPEN pre /\ ~ In GT attrs /\ first_at CLOSE body.
Proof.
  split.
  - apply search_article_sound.
  - intros (pre & attrs & post & -> & Hpre & Hnot & Hfirst).
    now apply search_article_exact.
Qed.

Lemma search_article_possible (pre l y post : Text) :
  exists body,
    search_article (pre ++ OPEN ++ l ++ GT :: y ++ CLOSE ++ post) = Some body.
Proof.
  induction pre as [| x pre IH]; rewrite search_article_unfold.
  - cbn [app]. destruct (match_article_possible l y post) as [b ->].
    now exists b.
  - destruct (match_article
                ((x :: pre) ++ OPEN ++ l ++ GT :: y ++ CLOSE ++ post)) as [b |].
    + now exists b.
    + exact IH.
Qed.

(** X7: [verify] answers "No <article> tag found" exactly when the content
    holds no "<article", later ['>'] and later "</article>" in this order;
    it then returns neither a published nor a computed hash, whether or not
    the file carries a data-hash attribute. *)
Theorem no_article_iff (filename : string) (c : Text) :
  (status_of (verify filename c) = "No <article> tag found" <->
   ~ exists pre l y post, c = pre ++ OPEN ++ l ++ GT :: y ++ CLOSE ++ post) /\
  (status_of (verify filename c) = "No <article> tag found" ->
   verify filename c = (filename, None, None, "No <article> tag found")).
Proof.
  unfold verify, status_of.
  destruct (search_article c) as [body |] eqn:Hs.
  - split.
    + split.
      * destruct (search_hash c) as [h |]; simpl; [| discriminate].
        destruct (text_eqb (computed_hash body) h); discriminate.
      * intros H. exfalso. apply H.
        apply search_article_sound in Hs as (pre & attrs & post & -> & _).
        now exists pre, attrs, body, post.
    + destruct (search_hash c) as [h |]; simpl; [| discriminate].
      destruct (text_eqb (computed_hash body) h); discriminate.
  - split; [| reflexivity]. split; [| reflexivity].
    intros _ (pre & l & y & post & ->).
    destruct (search_article_possible pre l y post) as [b Hb]. congruence.
Qed.

(** X8: what follows the closing tag plays no part in the article: text
    appended to a file whose article was found leaves the body found, and
    the computed hash, unchanged. *)
Theorem appended_text_is_not_hashed
    (filename : string) (c tail body : Text) :
  search_article c = Some body ->
  search_article (c ++ tail) = Some body /\
  computed_of (verify filename (c ++ tail)) = computed_of (verify filename c).
Proof.
  intros H.
  assert (H' : search_article (c ++ tail) = Some body).
  { pose proof (search_article_sound _ _ H)
      as (pre & attrs & post & -> & Hp & Ha & Hb).
    rewrite <- (search_article_exact pre attrs body (post ++ tail) Hp Ha Hb).
    f_equal. rewrite <- !app_assoc. simpl. now rewrite <- !app_assoc. }
  split; [exact H' |].
  unfold verify, computed_of. rewrite H, H'.
  now destruct (search_hash c), (search_hash (c ++ tail)).
Qed.

Lemma appended_text_is_not_hashed_witness :
  search_article (txt "<article>hello</article>" ++ footer)
    = Some plain_body /\
  computed_of (verify "signal.html" (txt "<article>hello</article>" ++ footer))
    = computed_of (verify "signal.html" (txt "<article>hello</article>")).
Proof.
  apply (appended_text_is_not_hashed "signal.html"
           (txt "<article>hello</article>") footer plain_body).
  vm_compute. reflexivity.
Defined.

(** ** The published hash *)

Lemma match_hash_spec (s h : Text) :
  match_hash s = Some h <->
  exists post,
    s = HASH_ATTR ++ h ++ QUOTE :: post /\
    List.length h = 64%nat /\ forallb is_hex h = true.
Proof.
  unfold match_hash. fold HASH_ATTR. split.
  - destruct (after_prefix HASH_ATTR s) as [rest |] eqn:Hp; [| discriminate].
    destruct (List.length (firstn 64 rest) =? 64)%nat eqn:Hlen;
      [| discriminate].
    destruct (forallb is_hex (firstn 64 rest)) eqn:Hhex; [| discriminate].
    cbn [andb].
    destruct (skipn 64 rest) as [| q tail] eqn:Hskip; [discriminate |].
    destruct (Z.eqb_spec q QUOTE) as [-> | _]; [| discriminate].
    intros Hh. assert (h = firstn 64 rest) as -> by congruence.
    apply after_prefix_Some in Hp. apply Nat.eqb_eq in Hlen.
    exists tail. split; [| split; [exact Hlen | exact Hhex]].
    rewrite Hp, <- Hskip. now rewrite firstn_skipn.
  - intros (post & -> & Hlen & Hhex). rewrite after_prefix_refl.
    assert (Hf : firstn 64 (h ++ QUOTE :: post) = h).
    { rewrite <- Hlen, firstn_app, Nat.sub_diag, firstn_all.
      cbn [firstn]. apply app_nil_r. }
    assert (Hs : skipn 64 (h ++ QUOTE :: post) = QUOTE :: post).
    { rewrite <- Hlen, skipn_app, Nat.sub_diag, skipn_all. reflexivity. }
    rewrite Hf, Hs, Hlen, Hhex. reflexivity.
Qed.

Lemma search_hash_unfold (s : Text) :
  search_hash s =
  match match_hash s with
  | Some h => Some h
  | None =>
      match s with
      | [] => None
      | _ :: s' => search_hash s'
      end
  end.
Proof. destruct s; reflexivity. Qed.

Lemma search_hash_sound (c h : Text) :
  search_hash c = Some h ->
  exists pre post,
    c = pre ++ HASH_ATTR ++ h ++ QUOTE :: post /\
    List.length h = 64%nat /\ forallb is_hex h = true /\
    forall p1 p2, pre = p1 ++ p2 -> p2 <> [] ->
      match_hash (p2 ++ HASH_ATTR ++ h ++ QUOTE :: post) = None.
Proof.
  revert h. induction c as [| x c IH]; intros h; rewrite search_hash_unfold.
  - destruct (match_hash []) eqn:Hm; [| discriminate]. intros [= ->].
    apply match_hash_spec in Hm as (post & Hc & Hlen & Hhex).
    exists [], post. repeat split; auto.
    intros p1 p2 H. symmetry in H. apply app_eq_nil in H as [_ ->].
    contradiction.
  - destruct (match_hash (x :: c)) eqn:Hm.
    + intros [= ->].
      apply match_hash_spec in Hm as (post & Hc & Hlen & Hhex).
      exists [], post. repeat split; auto.
      intros p1 p2 H. symmetry in H. apply app_eq_nil in H as [_ ->].
      contradiction.
    + intros H. destruct (IH h H) as (pre & post & -> & Hlen & Hhex & Hleft).
      exists (x :: pre), post. repeat split; auto.
      intros p1 p2 Hp Hne. destruct p1 as [| y p1]; simpl in Hp.
      * subst p2. exact Hm.
      * injection Hp as <- ->. now apply (Hleft p1 p2).
Qed.

Lemma search_hash_exact (pre h post : Text) :
  List.length h = 64%nat -> forallb is_hex h = true ->
  (forall p1 p2, pre = p1 ++ p2 -> p2 <> [] ->
     match_hash (p2 ++ HASH_ATTR ++ h ++ QUOTE :: post) = None) ->
  search_hash (pre ++ HASH_ATTR ++ h ++ QUOTE :: post) = Some h.
Proof.
  intros Hlen Hhex Hleft.
  induction pre as [| x pre IH]; rewrite search_hash_unfold.
  - cbn [app].
    assert (Hm : match_hash (HASH_ATTR ++ h ++ QUOTE :: post) = Some h)
      by (apply match_hash_spec; now exists post).
    now rewrite Hm.
  - rewrite (Hleft [] (x :: pre) eq_refl) by discriminate.
    cbn [app]. apply IH. intros p1 p2 -> Hne.
    now apply (Hleft (x :: p1) p2).
Qed.

(** X9: the published hash is the value of the first data-hash attribute
    that holds exactly 64 characters of 0-9 and a-f between its quotes; an
    attribute with fewer, more or other characters is passed over. *)
Theorem search_hash_spec (c h : Text) :
  search_hash c = Some h <->
  exists pre post,
    c = pre ++ HASH_ATTR ++ h ++ QUOTE :: post /\
    List.length h = 64%nat /\ forallb is_hex h = true /\
    forall p1 p2, pre = p1 ++ p2 -> p2 <> [] ->
      match_hash (p2 ++ HASH_ATTR ++ h ++ QUOTE :: post) = None.
Proof.
  split.
  - apply search_hash_sound.
  - intros (pre & post & -> & Hlen & Hhex & Hleft).
    now apply search_hash_exact.
Qed.

(** ** The computed hash *)

Lemma compress_length (h block : list Z) :
  List.length h = 8%nat -> List.length (SHA256.compress h block) = 8%nat.
Proof.
  intros Hh. unfold SHA256.compress.
  rewrite length_map, length_combine, Hh. reflexivity.
Qed.

Lemma blocks_length (fuel : nat) (h w : list Z) :
  List.length h = 8%nat -> List.length (SHA256.blocks fuel h w) = 8%nat.
Proof.
  revert h w. induction fuel as [| fuel IH]; intros h w Hh; simpl.
  - exact Hh.
  - destruct w; [exact Hh |]. apply IH. now apply compress_length.
Qed.

Lemma be_bytes_length (n : nat) (x : Z) :
  List.length (SHA256.be_bytes n x) = n.
Proof. induction n; simpl; auto. Qed.

Lemma be_bytes_range (n : nat) (x b : Z) :
  In b (SHA256.be_bytes n x) -> 0 <= b < 256.
Proof.
  induction n as [| n IH]; simpl; [easy |].
  intros [<- | H]; [| now apply IH].
  change 255 with (Z.ones 8). rewrite Z.land_ones by lia.
  apply Z.mod_pos_bound. lia.
Qed.

Lemma flat_map_length_const {A B : Type} (f : A -> list B) (k : nat)
    (l : list A) :
  (forall a, List.length (f a) = k) ->
  List.length (flat_map f l) = (k * List.length l)%nat.
Proof.
  intros Hf. induction l as [| a l IH]; simpl; [lia |].
  rewrite length_app, Hf, IH. lia.
Qed.

Lemma digest_length (msg : Bytes) : List.length (SHA256.digest msg) = 32%nat.
Proof.
  unfold SHA256.digest.
  rewrite (flat_map_length_const _ 4) by (intros; apply be_bytes_length).
  now rewrite blocks_length.
Qed.

Lemma digest_range (msg : Bytes) (b : Z) :
  In b (SHA256.digest msg) -> 0 <= b < 256.
Proof.
  unfold SHA256.digest. rewrite in_flat_map.
  intros (w & _ & Hb). now apply be_bytes_range in Hb.
Qed.

Lemma hex_pair_ok (b : Z) :
  0 <= b < 256 ->
  is_hex (SHA256.hex_digit (Z.shiftr b 4)) = true /\
  is_hex (SHA256.hex_digit (Z.land b 15)) = true.
Proof.
  intros Hb. rewrite Z.shiftr_div_pow2 by lia.
  change 15 with (Z.ones 4). rewrite Z.land_ones by lia.
  assert (0 <= b / 2 ^ 4 < 16) by (split; [apply Z.div_pos | apply Z.div_lt_upper_bound]; lia).
  assert (0 <= b mod 2 ^ 4 < 16) by (apply Z.mod_pos_bound; lia).
  unfold SHA256.hex_digit, is_hex.
  split.
  - destruct (Z.ltb_spec (b / 2 ^ 4) 10); lia.
  - destruct (Z.ltb_spec (b mod 2 ^ 4) 10); lia.
Qed.

Lemma hexdigest_length (msg : Bytes) :
  List.length (SHA256.hexdigest msg) = 64%nat.
Proof.
  unfold SHA256.hexdigest.
  rewrite (flat_map_length_const _ 2) by reflexivity.
  now rewrite digest_length.
Qed.

(** X10: the computed hash is always 64 characters of 0-9 and a-f, the form
    in which the pattern reads the published one. *)
Theorem computed_hash_shape (body : Text) :
  List.length (computed_hash body) = 64%nat /\
  forallb is_hex (computed_hash body) = true.
Proof.
  unfold computed_hash. split; [apply hexdigest_length |].
  unfold SHA256.hexdigest.
  - apply forallb_forall. intros x Hx. apply in_flat_map in Hx as (b & Hb & Hx).
    apply digest_range in Hb. destruct (hex_pair_ok b Hb) as [H1 H2].
    destruct Hx as [<- | [<- | []]]; assumption.
Qed.

(** ** The verdict *)

Lemma text_eqb_eq (a b : Text) : text_eqb a b = true <-> a = b.
Proof.
  revert b. induction a as [| x a IH]; intros [| y b]; simpl;
    try (split; [discriminate | discriminate]); [easy |].
  rewrite andb_true_iff, Z.eqb_eq, IH.
  split; [now intros [-> ->] | now intros [= -> ->]].
Qed.

(** X11: [verify] answers VERIFIED exactly when the file has an article and
    a published hash and the published hash is the SHA-256 of the UTF-8
    bytes of the normalized text of the article; it answers MISMATCH exactly
    when both are found and differ.  Either way it returns both hashes. *)
Theorem verdict_iff (filename : string) (c : Text) :
  (status_of (verify filename c) = "VERIFIED" <->
   exists body,
     search_article c = Some body /\
     search_hash c = Some (SHA256.hexdigest (utf8 (normalize body)))) /\
  (status_of (verify filename c) = "MISMATCH" <->
   exists body h,
     search_article c = Some body /\ search_hash c = Some h /\
     h <> SHA256.hexdigest (utf8 (normalize body))) /\
  (forall body h,
     search_article c = Some body -> search_hash c = Some h ->
     verify filename c =
     (filename, Some h, Some (SHA256.hexdigest (utf8 (normalize body))),
      if text_eqb (SHA256.hexdigest (utf8 (normalize body))) h
      then "VERIFIED" else "MISMATCH")).
Proof.
  unfold verify, status_of, computed_hash.
  destruct (search_article c) as [body |]; simpl.
  - destruct (search_hash c) as [h |]; simpl.
    + destruct (text_eqb (SHA256.hexdigest (utf8 (normalize body))) h) eqn:He.
      * apply text_eqb_eq in He. repeat split.
        -- intros _. exists body. now rewrite He.
        -- discriminate.
        -- intros (b & h' & [= <-] & [= <-] & Hne). now elim Hne.
        -- intros b h' [= <-] [= <-]. apply text_eqb_eq in He.
           now rewrite He.
      * repeat split.
        -- discriminate.
        -- intros (b & [= <-] & [= ->]).
           rewrite (proj2 (text_eqb_eq _ _) eq_refl) in He. discriminate.
        -- intros _. exists body, h. repeat split. intros ->.
           assert (text_eqb (SHA256.hexdigest (utf8 (normalize body)))
                            (SHA256.hexdigest (utf8 (normalize body))) = true)
             by now apply text_eqb_eq.
           congruence.
        -- intros b h' [= <-] [= <-]. now rewrite He.
    + repeat split; try discriminate.
      * intros (b & _ & H). discriminate.
      * intros (b & h & _ & H & _). discriminate.
  - repeat split; try discriminate.
    + intros (b & H & _). discriminate.
    + intros (b & h & H & _). discriminate.
Qed.

(** ** The hashed text is a fixed point *)

Lemma tag_free_tail (c : Z) (o : Text) : tag_free (c :: o) -> tag_free o.
Proof. intros H s1 s2 ->. now apply (H (c :: s1) s2). Qed.

Lemma tag_free_suffix (a b : Text) : tag_free (a ++ b) -> tag_free b.
Proof.
  induction a as [| c a IH]; [auto |]. intros H. apply IH.
  now apply tag_free_tail in H.
Qed.

Lemma tag_free_fixed (o : Text) : tag_free o -> strip_tags o = o.
Proof.
  induction o as [| c o IH]; intros H; [reflexivity |].
  rewrite strip_tags_eq, (H [] (c :: o) eq_refl).
  f_equal. apply IH. now apply tag_free_tail in H.
Qed.

Lemma strip_tags_In (n : nat) (s : Text) (x : Z) :
  (List.length s <= n)%nat -> In x (strip_tags s) -> In x s.
Proof.
  revert s. induction n as [| n IH]; intros s Hlen.
  - destruct s; [easy | simpl in Hlen; lia].
  - rewrite strip_tags_eq.
    destruct (match_tag s) as [after |] eqn:Hm.
    + pose proof (match_tag_shorter _ _ Hm) as Hshort.
      intros Hin. apply IH in Hin; [| lia].
      unfold match_tag in Hm. destruct s as [| c rest]; [discriminate |].
      destruct (c =? LT); [| discriminate].
      destruct (split_gt rest) as [[[| c' t] a] |] eqn:Hcut; try discriminate.
      injection Hm as ->. apply split_gt_Some in Hcut as [-> _].
      right. apply in_or_app. right. now right.
    + destruct s as [| c s]; [easy |]. simpl in Hlen.
      intros [-> | Hin]; [now left | right]. apply IH; [lia | exact Hin].
Qed.

Lemma match_tag_None (c : Z) (o : Text) :
  match_tag (c :: o) = None <->
  c <> LT \/ ~ In GT o \/ exists r, o = GT :: r.
Proof.
  unfold match_tag. destruct (Z.eqb_spec c LT) as [-> | Hc].
  - destruct (split_gt o) as [[[| c' t] a] |] eqn:Hcut.
    + apply split_gt_Some in Hcut as [-> _]. split; [| reflexivity].
      intros _. right. right. now eexists.
    + pose proof (split_gt_Some _ _ _ Hcut) as [-> Hnot]. split; [discriminate |].
      intros [H | [H | [r H]]].
      * contradiction.
      * exfalso. apply H. apply in_or_app. right. now left.
      * exfalso. injection H as -> _. apply Hnot. now left.
    + split; [| reflexivity]. intros _. right. left.
      now apply split_gt_None.
  - split; [now left | reflexivity].
Qed.

Lemma strip_tags_tag_free (n : nat) (s : Text) :
  (List.length s <= n)%nat -> tag_free (strip_tags s).
Proof.
  revert s. induction n as [| n IH]; intros s Hlen.
  - destruct s; [| simpl in Hlen; lia]. intros s1 s2 H.
    symmetry in H. apply app_eq_nil in H as [_ ->]. reflexivity.
  - rewrite strip_tags_eq.
    destruct (match_tag s) as [after |] eqn:Hm.
    + apply IH. apply match_tag_shorter in Hm. lia.
    + destruct s as [| c s].
      * intros s1 s2 H. symmetry in H. apply app_eq_nil in H as [_ ->].
        reflexivity.
      * simpl in Hlen. assert (Hfree := IH s ltac:(lia)).
        intros s1 s2 H. destruct s1 as [| c1 s1]; simpl in H.
        -- subst s2. apply match_tag_None. apply match_tag_None in Hm.
           destruct Hm as [Hc | [Hnot | [r ->]]].
           ++ now left.
           ++ right. left. intros Hin. apply Hnot.
              now apply (strip_tags_In (List.length s)) in Hin.
           ++ right. right. exists (strip_tags r).
              now apply strip_tags_text.
        -- injection H as _ H. now apply (Hfree s1 s2).
Qed.

(** Removing tags twice removes nothing more. *)
Lemma strip_tags_idempotent (s : Text) :
  strip_tags (strip_tags s) = strip_tags s.
Proof.
  apply tag_free_fixed. now apply (strip_tags_tag_free (List.length s)).
Qed.

Lemma collapse_from_idempotent (f : bool) (s : Text) :
  collapse_from f (collapse_from f s) = collapse_from f s.
Proof.
  revert f. induction s as [| c s IH]; intros f; simpl; [reflexivity |].
  destruct (is_space c) eqn:Hc.
  - destruct f; [apply IH |]. simpl. now rewrite IH.
  - simpl. now rewrite Hc, IH.
Qed.

Lemma collapse_from_length (f : bool) (s : Text) :
  (List.length (collapse_from f s) <= List.length s)%nat.
Proof.
  revert f. induction s as [| c s IH]; intros f; simpl; [lia |].
  pose proof (IH true). pose proof (IH false).
  destruct (is_space c); [destruct f |]; simpl; lia.
Qed.

Lemma collapse_from_app (f : bool) (x y : Text) :
  exists f',
    collapse_from f (x ++ y) = collapse_from f x ++ collapse_from f' y.
Proof.
  revert f. induction x as [| c x IH]; intros f; simpl.
  - now exists f.
  - destruct (is_space c); [destruct f |].
    + apply IH.
    + destruct (IH true) as [f' ->]. now exists f'.
    + destruct (IH false) as [f' ->]. now exists f'.
Qed.

Lemma collapse_from_In (f : bool) (s : Text) (x : Z) :
  In x (collapse_from f s) -> x = SPACE \/ In x s.
Proof.
  revert f. induction s as [| c s IH]; intros f; simpl; [easy |].
  destruct (is_space c); [destruct f |]; simpl.
  - intros H. apply IH in H as [-> | H]; auto.
  - intros [<- | H]; [now left |]. apply IH in H as [-> | H]; auto.
  - intros [<- | H]; [now right; left |]. apply IH in H as [-> | H]; auto.
Qed.

(** Where a character that is not white space sits in the collapsed text,
    it sat in the text, and what follows it is the collapse of what
    followed it. *)
Lemma collapse_from_cut (f : bool) (o s1' s2' : Text) (c : Z) :
  is_space c = false ->
  collapse_from f o = s1' ++ c :: s2' ->
  exists s1 s2, o = s1 ++ c :: s2 /\ s2' = collapse_from false s2.
Proof.
  intros Hc. revert f s1'.
  induction o as [| x o IH]; intros f s1'; simpl.
  - intros H. symmetry in H. apply app_eq_nil in H as [_ H]. discriminate.
  - destruct (is_space x) eqn:Hx; [destruct f |].
    + intros H. destruct (IH _ _ H) as (s1 & s2 & -> & ->).
      now exists (x :: s1), s2.
    + destruct s1' as [| y s1']; simpl.
      * intros [= <- _]. discriminate.
      * intros [= _ H]. destruct (IH _ _ H) as (s1 & s2 & -> & ->).
        now exists (x :: s1), s2.
    + destruct s1' as [| y s1']; simpl.
      * intros [= -> <-]. now exists [], o.
      * intros [= _ H]. destruct (IH _ _ H) as (s1 & s2 & -> & ->).
        now exists (x :: s1), s2.
Qed.

Lemma tag_free_alt (o : Text) :
  tag_free o <->
  forall s1 s2, o = s1 ++ LT :: s2 -> ~ In GT s2 \/ exists r, s2 = GT :: r.
Proof.
  split.
  - intros H s1 s2 Ho. specialize (H s1 (LT :: s2) Ho).
    apply match_tag_None in H as [H | H]; [now elim H | exact H].
  - intros H s1 s2 Ho. destruct s2 as [| c s2]; [reflexivity |].
    apply match_tag_None. destruct (Z.eq_dec c LT) as [-> | Hc]; [| now left].
    right. now apply (H s1).
Qed.

Lemma tag_free_collapse (o : Text) : tag_free o -> tag_free (collapse o).
Proof.
  rewrite !tag_free_alt. intros H s1' s2' Hc. unfold collapse in Hc.
  apply collapse_from_cut in Hc as (s1 & s2 & -> & ->); [| reflexivity].
  destruct (H s1 s2 eq_refl) as [Hnot | [r ->]].
  - left. intros Hin. apply collapse_from_In in Hin as [Heq | Hin];
      [discriminate | contradiction].
  - right. now eexists.
Qed.

Lemma lstrip_cut (s : Text) :
  exists u, all_space u = true /\ s = u ++ lstrip s.
Proof.
  induction s as [| c s IH]; simpl.
  - now exists [].
  - destruct (is_space c) eqn:Hc.
    + destruct IH as (u & Hu & Hs). exists (c :: u). simpl.
      rewrite Hc, Hu. split; [reflexivity | now f_equal].
    + now exists [].
Qed.

Lemma all_space_rev (u : Text) : all_space u = true -> all_space (rev u) = true.
Proof.
  unfold all_space. rewrite !forallb_forall. intros H x Hx.
  apply H. now apply in_rev.
Qed.

Lemma rstrip_cut (s : Text) :
  exists v, all_space v = true /\ s = rstrip s ++ v.
Proof.
  unfold rstrip. destruct (lstrip_cut (rev s)) as (u & Hu & Hs).
  exists (rev u). split; [now apply all_space_rev |].
  rewrite <- rev_app_distr, <- Hs. now rewrite rev_involutive.
Qed.

Lemma tag_free_strip (o : Text) : tag_free o -> tag_free (strip o).
Proof.
  intros H. unfold strip.
  destruct (lstrip_cut o) as (u & _ & Ho).
  assert (Hl : tag_free (lstrip o)) by (rewrite Ho in H; now apply tag_free_suffix in H).
  destruct (rstrip_cut (lstrip o)) as (v & Hv & Hr).
  revert Hl. rewrite !tag_free_alt. intros Hl s1 s2 Hs.
  rewrite Hr, Hs, <- app_assoc in Hl. simpl in Hl.
  destruct (Hl s1 (s2 ++ v) eq_refl) as [Hnot | [r Heq]].
  - left. intros Hin. apply Hnot. apply in_or_app. now left.
  - right. destruct s2 as [| c s2].
    + simpl in Heq. subst v. discriminate.
    + injection Heq as -> _. now eexists.
Qed.

Lemma lstrip_head (s : Text) :
  lstrip s = [] \/ exists c r, lstrip s = c :: r /\ is_space c = false.
Proof.
  induction s as [| c s IH]; simpl; [now left |].
  destruct (is_space c) eqn:Hc; [exact IH |]. right. now exists c, s.
Qed.

Lemma lstrip_fixed (z : Text) :
  z = [] \/ (exists c r, z = c :: r /\ is_space c = false) -> lstrip z = z.
Proof.
  intros [-> | (c & r & -> & Hc)]; simpl; [reflexivity | now rewrite Hc].
Qed.

Lemma lstrip_idempotent (s : Text) : lstrip (lstrip s) = lstrip s.
Proof. apply lstrip_fixed, lstrip_head. Qed.

Lemma lstrip_keeps_last (w : Text) (c : Z) :
  is_space c = false -> exists w', lstrip (w ++ [c]) = w' ++ [c].
Proof.
  intros Hc. induction w as [| x w IH]; simpl.
  - rewrite Hc. now exists [].
  - destruct (is_space x); [exact IH |]. now exists (x :: w).
Qed.

Lemma rstrip_keeps_head (c : Z) (r : Text) :
  is_space c = false -> exists r', rstrip (c :: r) = c :: r'.
Proof.
  intros Hc. unfold rstrip. simpl.
  destruct (lstrip_keeps_last (rev r) c Hc) as [w' ->].
  rewrite rev_app_distr. simpl. now eexists.
Qed.

Lemma strip_idempotent (s : Text) : strip (strip s) = strip s.
Proof.
  unfold strip.
  assert (Hl : lstrip (rstrip (lstrip s)) = rstrip (lstrip s)).
  { destruct (lstrip_head s) as [-> | (c & r & -> & Hc)]; [reflexivity |].
    destruct (rstrip_keeps_head c r Hc) as [r' ->].
    simpl. now rewrite Hc. }
  rewrite Hl. unfold rstrip at 1 2.
  now rewrite rev_involutive, lstrip_idempotent.
Qed.

Lemma app_same_length {A : Type} (a1 a2 b1 b2 : list A) :
  List.length a1 = List.length a2 -> a1 ++ b1 = a2 ++ b2 -> a1 = a2.
Proof.
  revert a2. induction a1 as [| x a1 IH]; intros [| y a2]; simpl;
    try discriminate; [reflexivity |].
  intros [= Hlen] [= -> H]. f_equal. now apply IH.
Qed.

Lemma collapse_lstrip (t : Text) :
  collapse t = t -> collapse (lstrip t) = lstrip t.
Proof.
  unfold collapse. destruct t as [| x t]; [reflexivity |]. simpl.
  destruct (is_space x) eqn:Hx; [| intros H; simpl; now rewrite Hx].
  intros [= _ Ht]. destruct t as [| y t]; [reflexivity |].
  simpl in *. destruct (is_space y) eqn:Hy.
  - exfalso. pose proof (collapse_from_length true t) as Hlen.
    rewrite Ht in Hlen. simpl in Hlen. lia.
  - simpl. rewrite Hy. exact Ht.
Qed.

Lemma collapse_rstrip (y : Text) :
  collapse y = y -> collapse (rstrip y) = rstrip y.
Proof.
  unfold collapse. destruct (rstrip_cut y) as (v & _ & Hy).
  intros H. rewrite Hy in H at 1 2.
  destruct (collapse_from_app false (rstrip y) v) as [f' Happ].
  rewrite Happ in H.
  pose proof (collapse_from_length false (rstrip y)) as H1.
  pose proof (collapse_from_length f' v) as H2.
  pose proof (f_equal (@List.length Z) H) as Hlen.
  rewrite !length_app in Hlen.
  assert (Heq : List.length (collapse_from false (rstrip y))
                = List.length (rstrip y)) by lia.
  exact (app_same_length _ _ _ _ Heq H).
Qed.

(** X12: the hashed text is a fixed point of the normalization: it holds no
    tag, no white space other than single spaces between words and none at
    its ends, so normalizing it again gives the same text, and an article
    whose body is that text has the same hash. *)
Theorem normalize_idempotent (body : Text) :
  normalize (normalize body) = normalize body /\
  tag_free (normalize body) /\
  collapse (normalize body) = normalize body /\
  strip (normalize body) = normalize body /\
  computed_hash (normalize body) = computed_hash body.
Proof.
  assert (Hfree : tag_free (normalize body)).
  { unfold normalize. apply tag_free_strip, tag_free_collapse.
    now apply (strip_tags_tag_free (List.length body)). }
  assert (Hcol : collapse (normalize body) = normalize body).
  { unfold normalize, strip. apply collapse_rstrip, collapse_lstrip.
    apply collapse_from_idempotent. }
  assert (Hstrip : strip (normalize body) = normalize body)
    by (unfold normalize; apply strip_idempotent).
  assert (Hn : normalize (normalize body) = normalize body).
  { unfold normalize at 1. rewrite (tag_free_fixed _ Hfree).
    now rewrite Hcol, Hstrip. }
  repeat split; auto.
  unfold computed_hash. now rewrite Hn.
Qed.

End VerifyExtra.

(* ================================================================== *)
(** * Properties of the command line of verify.py *)
(* ================================================================== *)

Module VerifyMainExtra.
Import Py Verify VerifyExamples VerifyNotions VerifyMain VerifyMainExamples.
Import VerifyProofs VerifyExtra.
Local Open Scope list_scope.

(** ** Sorting *)

Lemma insert_sorted_perm (x : string) (l : list string) :
  Permutation (insert_sorted x l) (x :: l).
Proof.
  induction l as [| y l IH]; simpl; [reflexivity |].
  destruct (String.leb x y); [reflexivity |].
  rewrite IH. apply perm_swap.
Qed.

Lemma sorted_perm (l : list string) : Permutation (sorted l) l.
Proof.
  induction l as [| x l IH]; simpl; [reflexivity |].
  rewrite insert_sorted_perm. now constructor.
Qed.

Lemma insert_sorted_Sorted (x : string) (l : list string) :
  Sorted le_str l -> Sorted le_str (insert_sorted x l).
Proof.
  induction 1 as [| y l Hs IH Hhd]; simpl.
  - repeat constructor.
  - destruct (String.leb x y) eqn:Hxy.
    + constructor; [now constructor | now constructor].
    + constructor; [exact IH |].
      assert (Hyx : le_str y x).
      { destruct (String.leb_total x y) as [H | H]; [congruence | exact H]. }
      destruct l as [| z l]; simpl.
      * now constructor.
      * destruct (String.leb x z); constructor; [exact Hyx |].
        now inversion Hhd.
Qed.

Lemma sorted_Sorted (l : list string) : Sorted le_str (sorted l).
Proof.
  induction l as [| x l IH]; simpl; [constructor |].
  now apply insert_sorted_Sorted.
Qed.

(** ** The three patterns *)

Lemma prefix_first (a b : ascii) (p s : string) :
  String.prefix (String a p) s = true -> String.prefix (String b p) s = true ->
  a = b.
Proof.
  destruct s as [| c s]; simpl; [discriminate |].
  destruct (ascii_dec a c) as [-> | _]; [| discriminate].
  destruct (ascii_dec b c) as [-> | _]; [reflexivity | discriminate].
Qed.

Lemma glob_match_prefix (pre suf name : string) :
  glob_match pre suf name = true -> String.prefix pre name = true.
Proof.
  unfold glob_match. rewrite !andb_true_iff. tauto.
Qed.

Lemma first_char_differs (a b : ascii) (p q suf1 suf2 name : string) :
  a <> b ->
  glob_match (String a p) suf1 name = true ->
  glob_match (String b q) suf2 name = true -> False.
Proof.
  intros Hab H1 H2. apply glob_match_prefix in H1, H2.
  destruct name as [| c s]; simpl in *; [discriminate |].
  destruct (ascii_dec a c) as [-> | _]; [| discriminate].
  destruct (ascii_dec b c) as [-> | _]; [contradiction | discriminate].
Qed.

Lemma patterns_disjoint (f : string) :
  (glob_match "signal-" ".html" f = true ->
   glob_match "weekly-" ".html" f = true -> False) /\
  (glob_match "signal-" ".html" f = true ->
   glob_match "q2-" ".html" f = true -> False) /\
  (glob_match "weekly-" ".html" f = true ->
   glob_match "q2-" ".html" f = true -> False).
Proof.
  repeat split; apply first_char_differs; discriminate.
Qed.

Lemma glob_In (fs : FileSystem) (pre suf f : string) :
  In f (glob fs pre suf) <-> In f (keys fs) /\ glob_match pre suf f = true.
Proof. unfold glob. apply filter_In. Qed.

Lemma keys_In_get {V : Type} (d : dict V) (k : string) :
  In k (keys d) -> exists v, dict_get k d = Some v.
Proof.
  induction d as [| [k' v'] d IH]; simpl; [easy |].
  destruct (String.eqb_spec k k') as [-> | Hne]; [now eexists |].
  intros [H | H]; [now elim Hne | now apply IH].
Qed.

(** ** The loop over the files *)

Lemma report_lines_of (fs : FileSystem) (f : string) (content : Text) :
  dict_get f fs = Some (TextFile content) ->
  path_exists fs f = true /\
  verify_file fs f = Ok (verify f content) /\
  report fs f = report_lines (verify f content).
Proof.
  intros H. unfold report, verify_file, read_text, path_exists.
  now rewrite H.
Qed.

Lemma for_files_step (fs : FileSystem) (f : string) (rest : list string) :
  unreadable fs f = false ->
  for_files fs (f :: rest) =
  (report fs f ++ fst (for_files fs rest), snd (for_files fs rest)).
Proof.
  intros H. simpl. unfold report, verify_file, read_text, path_exists.
  unfold unreadable in H.
  destruct (dict_get f fs) as [[content | e |] |]; simpl;
    try discriminate; now destruct (for_files fs rest).
Qed.

Lemma for_files_readable (fs : FileSystem) (files : list string) :
  (forall f, In f files -> unreadable fs f = false) ->
  for_files fs files = (flat_map (report fs) files, Returned).
Proof.
  induction files as [| f rest IH]; intros H; [reflexivity |].
  rewrite for_files_step by (apply H; now left).
  rewrite IH by (intros g Hg; apply H; now right). reflexivity.
Qed.

Lemma for_files_stops (fs : FileSystem) (before after : list string)
    (f : string) (e : PyExc) :
  (forall g, In g before -> unreadable fs g = false) ->
  dict_get f fs = Some (NoRead e) ->
  for_files fs (before ++ f :: after) =
  (flat_map (report fs) before, Traceback e).
Proof.
  intros Hb Hf. induction before as [| g before IH].
  - simpl. unfold path_exists, verify_file, read_text. now rewrite Hf.
  - rewrite <- app_comm_cons.
    rewrite for_files_step by (apply Hb; now left).
    rewrite IH by (intros h Hh; apply Hb; now right). reflexivity.
Qed.

(** X13: with [--all], the names treated are those of the working
    directory that match signal-*.html, weekly-*.html or q2-*.html, each
    once and in ascending order whatever the order of the directory.  When
    none of them is unreadable, each gets its report, a link to nothing
    being reported as not found, and the script reaches its end (status 0).
    Otherwise the first unreadable one, in that order, ends the process
    with its exception (status 1) after the reports of the names before
    it. *)
Theorem all_mode_files (prog : string) (rest : list string)
    (fs : FileSystem) :
  NoDup (keys fs) ->
  Sorted le_str (all_files fs) /\
  NoDup (all_files fs) /\
  (forall f,
     In f (all_files fs) <->
     In f (keys fs) /\
     (glob_match "signal-" ".html" f || glob_match "weekly-" ".html" f ||
      glob_match "q2-" ".html" f) = true) /\
  ((forall f, In f (all_files fs) -> unreadable fs f = false) ->
   main (prog :: "--all" :: rest) fs =
     (flat_map (report fs) (all_files fs), Returned)) /\
  (forall f, dict_get f fs = Some Dangling ->
     report fs f = ["  File not found: " ++ f]%string) /\
  (forall before f after e,
     all_files fs = before ++ f :: after ->
     (forall g, In g before -> unreadable fs g = false) ->
     dict_get f fs = Some (NoRead e) ->
     main (prog :: "--all" :: rest) fs =
       (flat_map (report fs) before, Traceback e) /\
     exit_status (snd (main (prog :: "--all" :: rest) fs)) = 1).
Proof.
  intros Hnd.
  assert (Hin : forall f,
     In f (all_files fs) <->
     In f (keys fs) /\
     (glob_match "signal-" ".html" f || glob_match "weekly-" ".html" f ||
      glob_match "q2-" ".html" f) = true).
  { intros f. unfold all_files. split.
    - intros H. apply (Permutation_in _ (sorted_perm _)) in H.
      rewrite !in_app_iff, !glob_In in H. rewrite !orb_true_iff. tauto.
    - intros [Hk Hm]. apply (Permutation_in _ (Permutation_sym (sorted_perm _))).
      rewrite !in_app_iff, !glob_In. rewrite !orb_true_iff in Hm. tauto. }
  split; [apply sorted_Sorted |].
  split; [| split; [exact Hin | split; [| split]]].
  - unfold all_files.
    apply (Permutation_NoDup (Permutation_sym (sorted_perm _))).
    apply NoDup_app; [now apply NoDup_filter | |].
    + apply NoDup_app; [now apply NoDup_filter | now apply NoDup_filter |].
      intros f H1 H2. apply glob_In in H1 as [_ H1], H2 as [_ H2].
      now apply (proj2 (proj2 (patterns_disjoint f))).
    + intros f H1 H2. apply glob_In in H1 as [_ H1].
      apply in_app_or in H2 as [H2 | H2]; apply glob_In in H2 as [_ H2].
      * now apply (proj1 (patterns_disjoint f)).
      * now apply (proj1 (proj2 (patterns_disjoint f))).
  - intros Hok. unfold main. rewrite String.eqb_refl.
    now apply for_files_readable.
  - intros f Hf. unfold report, path_exists. now rewrite Hf.
  - intros before f after e Hall Hb Hf.
    assert (Hmain : main (prog :: "--all" :: rest) fs =
                    (flat_map (report fs) before, Traceback e)).
    { unfold main. rewrite String.eqb_refl, Hall.
      now apply for_files_stops. }
    split; [exact Hmain |]. now rewrite Hmain.
Qed.

Lemma all_mode_files_witness :
  Sorted le_str (all_files site_with_directory) /\
  NoDup (all_files site_with_directory) /\
  (forall f,
     In f (all_files site_with_directory) <->
     In f (keys site_with_directory) /\
     (glob_match "signal-" ".html" f || glob_match "weekly-" ".html" f ||
      glob_match "q2-" ".html" f) = true) /\
  ((forall f, In f (all_files site_with_directory) ->
      unreadable site_with_directory f = false) ->
   main ("verify.py" :: "--all" :: []) site_with_directory =
     (flat_map (report site_with_directory) (all_files site_with_directory),
      Returned)) /\
  (forall f, dict_get f site_with_directory = Some Dangling ->
     report site_with_directory f = ["  File not found: " ++ f]%string) /\
  (forall before f after e,
     all_files site_with_directory = before ++ f :: after ->
     (forall g, In g before -> unreadable site_with_directory g = false) ->
     dict_get f site_with_directory = Some (NoRead e) ->
     main ("verify.py" :: "--all" :: []) site_with_directory =
       (flat_map (report site_with_directory) before, Traceback e) /\
     exit_status (snd (main ("verify.py" :: "--all" :: [])
                         site_with_directory)) = 1).
Proof.
  apply (all_mode_files "verify.py" [] site_with_directory).
  apply FetchPricesProofs.distinct_NoDup. reflexivity.
Defined.

(** ** One file *)

Lemma truthy_64 (h : Text) : List.length h = 64%nat -> truthy (Some h) = true.
Proof. destruct h; [discriminate | reflexivity]. Qed.

(** X14: with a file name as first argument, only that file is treated and
    later arguments are ignored.  A name that does not exist gives one
    "File not found" line and the script reaches its end; a name that
    exists but cannot be opened or decoded prints nothing and ends the
    process with the exception of [open] or [read] (status 1); a text file
    gives the status line, with the check mark exactly for VERIFIED and
    followed by the two hashes exactly for MISMATCH, and the script reaches
    its end (status 0) whatever the verdict. *)
Theorem single_file_run (prog f : string) (rest : list string)
    (fs : FileSystem) :
  f <> "--all" ->
  (path_exists fs f = false ->
   main (prog :: f :: rest) fs =
     (["  File not found: " ++ f]%string, Returned)) /\
  (forall e, dict_get f fs = Some (NoRead e) ->
     main (prog :: f :: rest) fs = ([], Traceback e) /\
     exit_status (snd (main (prog :: f :: rest) fs)) = 1) /\
  (forall content, dict_get f fs = Some (TextFile content) ->
     exists lines,
       main (prog :: f :: rest) fs = (lines, Returned) /\
       let status := status_of (verify f content) in
       (status = "VERIFIED" ->
        lines = ["  ✅ " ++ f ++ ": VERIFIED"]%string) /\
       (status = "MISMATCH" ->
        exists body h,
          search_article content = Some body /\
          search_hash content = Some h /\
          h <> computed_hash body /\
          lines =
          [("  ❌ " ++ f ++ ": MISMATCH")%string;
           ("     Published: " ++ show h)%string;
           ("     Computed:  " ++ show (computed_hash body))%string]) /\
       (status <> "VERIFIED" -> status <> "MISMATCH" ->
        lines = [("  ❌ " ++ f ++ ": " ++ status)%string])).
Proof.
  intros Hf. apply String.eqb_neq in Hf.
  assert (Hmain : main (prog :: f :: rest) fs = for_files fs [f])
    by (unfold main; now rewrite Hf).
  rewrite Hmain. split; [| split].
  - intros H. simpl. now rewrite H.
  - intros e He.
    assert (Hstop : for_files fs [f] = ([], Traceback e)).
    { apply (for_files_stops fs [] [] f e); [intros g [] | exact He]. }
    rewrite Hstop. now split.
  - intros content Hc.
    destruct (report_lines_of _ _ _ Hc) as (Hex & Hv & _).
    exists (report_lines (verify f content)). split.
    { simpl. rewrite Hex, Hv. simpl. now rewrite app_nil_r. }
    unfold report_lines, verify, status_of.
    destruct (search_article content) as [body |] eqn:Ha;
      [destruct (search_hash content) as [h |] eqn:Hh;
       [destruct (text_eqb (computed_hash body) h) eqn:He |] |];
      cbv beta iota zeta; cbn [snd].
    + rewrite andb_false_r. repeat split; try discriminate; try reflexivity.
      now intros H.
    + apply search_hash_sound in Hh as Hs.
      destruct Hs as (_ & _ & _ & Hlen & _).
      rewrite (truthy_64 h Hlen).
      rewrite (truthy_64 (computed_hash body) (hexdigest_length _)).
      repeat split; try discriminate.
      * intros _. exists body, h. repeat split.
        intros ->. rewrite (proj2 (text_eqb_eq _ _) eq_refl) in He.
        discriminate.
      * now intros _ H.
    + rewrite andb_false_r. repeat split; try discriminate.
    + repeat split; try discriminate.
Qed.

Lemma single_file_run_witness :
  (path_exists site "weekly-09.html" = false ->
   main ("verify.py" :: "weekly-09.html" :: ["index.html"]) site =
     (["  File not found: " ++ "weekly-09.html"]%string, Returned)) /\
  (forall e, dict_get "weekly-09.html" site = Some (NoRead e) ->
     main ("verify.py" :: "weekly-09.html" :: ["index.html"]) site =
       ([], Traceback e) /\
     exit_status
       (snd (main ("verify.py" :: "weekly-09.html" :: ["index.html"]) site))
       = 1) /\
  (forall content, dict_get "weekly-09.html" site = Some (TextFile content) ->
     exists lines,
       main ("verify.py" :: "weekly-09.html" :: ["index.html"]) site =
         (lines, Returned) /\
       let status := status_of (verify "weekly-09.html" content) in
       (status = "VERIFIED" ->
        lines = ["  ✅ " ++ "weekly-09.html" ++ ": VERIFIED"]%string) /\
       (status = "MISMATCH" ->
        exists body h,
          search_article content = Some body /\
          search_hash content = Some h /\
          h <> computed_hash body /\
          lines =
          [("  ❌ " ++ "weekly-09.html" ++ ": MISMATCH")%string;
           ("     Published: " ++ show h)%string;
           ("     Computed:  " ++ show (computed_hash body))%string]) /\
       (status <> "VERIFIED" -> status <> "MISMATCH" ->
        lines = [("  ❌ " ++ "weekly-09.html" ++ ": " ++ status)%string])).
Proof.
  apply (single_file_run "verify.py" "weekly-09.html" ["index.html"] site).
  discriminate.
Defined.

End VerifyMainExtra.

(* ================================================================== *)
(** * Properties of the table and of the CSV *)
(* ================================================================== *)

Module PrintingExtra.
Import Py FetchPrices FetchExamples FetchPricesProofs PyFloatStr Printing.
Local Open Scope list_scope.

(** ** The table *)

Lemma in_category_categorized (c : Category) (item : string * Record_) :
  in_category c (snd item) = true -> categorized item = true.
Proof.
  unfold in_category, categorized.
  now destruct (record_category (snd item)).
Qed.

Lemma section_rows_filter (c : Category) (results : Results) :
  flat_map (fun item =>
              if in_category c (snd item)
              then [table_row (fst item) (snd item)] else [])
           (filter categorized results) =
  flat_map (fun item =>
              if in_category c (snd item)
              then [table_row (fst item) (snd item)] else [])
           results.
Proof.
  induction results as [| item results IH]; simpl; [reflexivity |].
  destruct (categorized item) eqn:Hcat; simpl; [now rewrite IH |].
  destruct (in_category c (snd item)) eqn:Hin; [| exact IH].
  apply in_category_categorized in Hin. congruence.
Qed.

Lemma table_sections_filter (results : Results) :
  table_sections (filter categorized results) = table_sections results.
Proof.
  unfold table_sections, table_section. simpl.
  now rewrite !section_rows_filter.
Qed.

Lemma one_section (item : string * Record_) :
  (List.length (if in_category primary (snd item)
                then [table_row (fst item) (snd item)] else []) +
   List.length (if in_category secondary (snd item)
                then [table_row (fst item) (snd item)] else []) +
   List.length (if in_category supplementary (snd item)
                then [table_row (fst item) (snd item)] else []))%nat =
  if categorized item then 1%nat else 0%nat.
Proof.
  unfold in_category, categorized.
  destruct (record_category (snd item)) as [[| |] |]; reflexivity.
Qed.

Lemma table_sections_length (results : Results) :
  List.length (table_sections results) =
  (9 + List.length (filter categorized results))%nat.
Proof.
  unfold table_sections, table_section. simpl.
  rewrite !length_app. simpl. rewrite !length_app. simpl.
  rewrite !length_app. simpl.
  induction results as [| item results IH]; simpl; [reflexivity |].
  rewrite !length_app. pose proof (one_section item) as H1.
  destruct (categorized item); simpl; lia.
Qed.

Lemma section_rows_map (c : Category) (results : Results) :
  flat_map (fun item =>
              if in_category c (snd item)
              then [table_row (fst item) (snd item)] else [])
           results =
  map (fun item => table_row (fst item) (snd item))
      (filter (fun item => in_category c (snd item)) results).
Proof.
  induction results as [| item results IH]; simpl; [reflexivity |].
  destruct (in_category c (snd item)); simpl; now rewrite IH.
Qed.

(** X15: the table shows a record under the heading of its category only,
    and a record without a "category" key under no heading: the sections
    are those of the records that have the key, each section lists the
    records of its category in the order of the results, and the sections
    hold one line per record that has the key besides the three lines of
    each heading. *)
Theorem table_shows_categorized_records_only (results : Results) :
  table_sections results = table_sections (filter categorized results) /\
  (forall c,
     table_section c results =
     [("  " ++ label c)%string; ("  " ++ repeat_str "─" 66)%string] ++
     map (fun item => table_row (fst item) (snd item))
         (filter (fun item => in_category c (snd item)) results) ++
     [""%string]) /\
  List.length (table_sections results) =
    (9 + List.length (filter categorized results))%nat.
Proof.
  split; [symmetry; apply table_sections_filter |].
  split; [| apply table_sections_length].
  intros c. unfold table_section. now rewrite section_rows_map.
Qed.

Lemma filter_filter_absorb {A : Type} (p q : A -> bool) (l : list A) :
  (forall x, In x l -> q x = false -> p x = false) ->
  filter p (filter q l) = filter p l.
Proof.
  induction l as [| x l IH]; simpl; intros H; [reflexivity |].
  assert (IH' := IH (fun y Hy => H y (or_intror Hy))).
  destruct (q x) eqn:Hq; simpl.
  - now rewrite IH'.
  - rewrite (H x (or_introl eq_refl) Hq). exact IH'.
Qed.

(** X16: an instrument left with fewer than two closes is absent from the
    table printed for the run: the sections are those of the results
    without it.  The CSV printed for the same results still has its row,
    marked ERROR. *)
Theorem insufficient_data_is_not_in_the_table
    (catalog : Catalog) (prov : Provider) (data : DataFrame)
    (pre post : Catalog) (name : string) (info : InstrumentSpec)
    (closes : Series) :
  catalog = pre ++ (name, info) :: post ->
  NoDup (keys catalog) ->
  download prov (request_of catalog) = Ok data ->
  closes_of prov data
    (Download (request_of catalog) :: fallback_queries data pre)
    (ticker info) = Ok closes ->
  (List.length closes < 2)%nat ->
  exists res qs,
    fetch_all_with catalog prov = (Ok res, qs) /\
    table_sections res =
      table_sections
        (filter (fun item => negb (String.eqb (fst item) name)) res) /\
    In (name ++ ",ERROR,,,,,")%string (print_csv res).
Proof.
  intros Hcat Hnd Hdl Hcloses Hlen.
  pose proof (fetch_all_run _ _ _ Hnd Hdl) as Hrun.
  set (res := records_of prov data [Download (request_of catalog)] catalog)
    in *.
  assert (Hget : dict_get name res = Some (Failure "Insufficient data" None)).
  { unfold res. rewrite Hcat at 2. rewrite Hcat in Hnd.
    rewrite records_of_lookup by exact Hnd. simpl.
    rewrite Hcloses. simpl. unfold record_of_closes.
    apply Nat.ltb_lt in Hlen. now rewrite Hlen. }
  assert (Hres : NoDup (keys res))
    by (unfold res; now rewrite records_of_keys).
  exists res. eexists. split; [exact Hrun |]. split.
  - transitivity (table_sections (filter categorized res));
      [symmetry; apply table_sections_filter |].
    transitivity
      (table_sections
         (filter categorized
            (filter (fun item => negb (String.eqb (fst item) name)) res)));
      [| apply table_sections_filter].
    f_equal.
    symmetry. apply filter_filter_absorb.
    intros [k v] Hin Hk. simpl in Hk. apply negb_false_iff in Hk.
    apply String.eqb_eq in Hk. subst k.
    apply (In_dict_get _ _ _ Hres) in Hin.
    rewrite Hget in Hin. injection Hin as <-. reflexivity.
  - unfold print_csv. right.
    apply dict_get_In in Hget.
    apply (in_map (fun item => csv_row (fst item) (snd item))) in Hget.
    exact Hget.
Qed.

Lemma insufficient_data_is_not_in_the_table_witness :
  exists res qs,
    fetch_all_with catalog_A (provider_A [("2026-02-27", 97.5%float)]) =
      (Ok res, qs) /\
    table_sections res =
      table_sections
        (filter (fun item => negb (String.eqb (fst item) "A")) res) /\
    In ("A" ++ ",ERROR,,,,,")%string (print_csv res).
Proof.
  apply (insufficient_data_is_not_in_the_table catalog_A
           (provider_A [("2026-02-27", 97.5%float)])
           (MultiFrame [(("Close", "A"), [("2026-02-27", 97.5%float)])])
           [] [] "A" instrument_A [("2026-02-27", 97.5%float)]).
  - reflexivity.
  - apply distinct_NoDup. reflexivity.
  - reflexivity.
  - vm_compute. reflexivity.
  - simpl. lia.
Defined.

(** X17: the table printed for a run never raises as long as the catalog
    has an entry, and its "Data date" is read from the record of the first
    catalog entry alone: "N/A" when that entry failed, whatever the dates of
    the others.  On an empty mapping [print_table] raises StopIteration
    after the headings. *)
Theorem data_date_is_that_of_the_first_entry
    (name : string) (info : InstrumentSpec) (others : Catalog)
    (prov : Provider) (res : Results) (qs : list Query) (now : string) :
  NoDup (keys ((name, info) :: others)) ->
  fetch_all_with ((name, info) :: others) prov = (Ok res, qs) ->
  (exists first,
     dict_get name res = Some first /\
     print_table now res =
     (table_header now ++ table_sections res ++ [repeat_str "═" 72] ++
      [ ("  Data date: " ++ record_date first)%string;
        "  Source: Yahoo Finance via yfinance"%string;
        (repeat_str "═" 72 ++ nl)%string ],
      None) /\
     ((exists msg cat, first = Failure msg cat) ->
      record_date first = "N/A")) /\
  snd (print_table now []) = Some (OtherException "StopIteration" "").
Proof.
  intros Hnd Hrun. split; [| reflexivity].
  destruct (download prov (request_of ((name, info) :: others)))
    as [data | e] eqn:Hdl.
  - rewrite (fetch_all_run _ _ _ Hnd Hdl) in Hrun.
    injection Hrun as <- _. simpl records_of.
    eexists. split; [simpl; now rewrite String.eqb_refl |].
    split.
    + unfold print_table. rewrite <- !app_assoc. reflexivity.
    + now intros (msg & cat & ->).
  - rewrite (fetch_all_fatal _ _ _ Hdl) in Hrun. discriminate.
Qed.

Lemma data_date_is_that_of_the_first_entry_witness :
  (exists first,
     dict_get "A" [("A", Observation observation_A)] = Some first /\
     print_table "2026-02-27 18:00:00" [("A", Observation observation_A)] =
     (table_header "2026-02-27 18:00:00" ++
      table_sections [("A", Observation observation_A)] ++
      [repeat_str "═" 72] ++
      [ ("  Data date: " ++ record_date first)%string;
        "  Source: Yahoo Finance via yfinance"%string;
        (repeat_str "═" 72 ++ nl)%string ],
      None) /\
     ((exists msg cat, first = Failure msg cat) ->
      record_date first = "N/A")) /\
  snd (print_table "2026-02-27 18:00:00" []) =
    Some (OtherException "StopIteration" "").
Proof.
  apply (data_date_is_that_of_the_first_entry "A" instrument_A []
           (provider_A (two_days 100 102))
           [("A", Observation observation_A)] [Download ["A"]]
           "2026-02-27 18:00:00").
  - apply distinct_NoDup. reflexivity.
  - vm_compute. reflexivity.
Defined.

(** ** The CSV *)

Lemma commas_app (a b : string) :
  commas (a ++ b) = (commas a + commas b)%nat.
Proof.
  induction a as [| c a IH]; simpl; [reflexivity |].
  rewrite IH. lia.
Qed.

Lemma commas_substring (s : string) :
  commas s = 0%nat -> forall n m, commas (substring n m s) = 0%nat.
Proof.
  induction s as [| c s IH]; intros H n m.
  - now destruct n, m.
  - simpl in H.
    assert (Hc : (if Ascii.eqb c "," then 1 else 0)%nat = 0%nat) by lia.
    assert (Hs : commas s = 0%nat) by lia.
    destruct n as [| n]; [destruct m as [| m] |]; simpl; auto.
    rewrite Hc. now apply IH.
Qed.

Lemma commas_zeros (n : nat) : commas (zeros n) = 0%nat.
Proof. induction n as [| n IH]; simpl; [reflexivity | exact IH]. Qed.

Lemma commas_uint (d : Decimal.uint) :
  commas (NilEmpty.string_of_uint d) = 0%nat.
Proof. induction d; simpl; auto. Qed.

Lemma commas_string_of_Z (n : Z) : commas (string_of_Z n) = 0%nat.
Proof.
  unfold string_of_Z, NilZero.string_of_uint.
  destruct (N.to_uint (Z.to_N n)) eqn:E; try reflexivity;
    rewrite <- E; apply commas_uint.
Qed.

Lemma commas_exponent_str (x : Z) : commas (exponent_str x) = 0%nat.
Proof.
  unfold exponent_str, zero_pad.
  rewrite !commas_app, commas_zeros, commas_string_of_Z.
  now destruct (x <? 0).
Qed.

Lemma commas_shortest_digits (m : positive) (e : Z) :
  commas (fst (shortest_digits m e)) = 0%nat.
Proof.
  unfold shortest_digits.
  destruct (fraction_of m e) as [num den].
  destruct (shortest 17 m e num den (decpt_of num den) 1) as [c nd].
  apply commas_string_of_Z.
Qed.

Lemma commas_float_str (x : float) : commas (float_str x) = 0%nat.
Proof.
  unfold float_str.
  destruct (Prim2SF x) as [s | s | | s m e]; try (now destruct s);
    [reflexivity |].
  pose proof (commas_shortest_digits m e) as Hds.
  destruct (shortest_digits m e) as [ds decpt]. simpl in Hds.
  assert (Hsign : commas (if s then "-" else "") = 0%nat) by now destruct s.
  rewrite commas_app, Hsign.
  destruct ((decpt <=? -4) || (16 <? decpt)).
  - rewrite !commas_app, commas_substring, commas_exponent_str by exact Hds.
    destruct (1 <? Z.of_nat (String.length ds)); [| reflexivity].
    rewrite commas_app, commas_substring by exact Hds. reflexivity.
  - destruct (decpt <=? 0).
    + now rewrite !commas_app, commas_zeros, Hds.
    + destruct (decpt <? Z.of_nat (String.length ds)).
      * now rewrite !commas_app, !commas_substring by exact Hds.
      * now rewrite !commas_app, commas_zeros, Hds.
Qed.

Lemma commas_csv_row (name : string) (r : Record_) :
  commas (csv_row name r) =
  (6 + commas name +
   match r with
   | Observation o => commas (date o)
   | Failure _ _ => 0
   end)%nat.
Proof.
  destruct r as [o | msg cat]; unfold csv_row.
  - rewrite !commas_app, !commas_float_str.
    assert (Hd : commas (direction_str (direction o)) = 0%nat)
      by now destruct (direction o).
    assert (Hc : commas (category_str (obs_category o)) = 0%nat)
      by now destruct (obs_category o).
    rewrite Hd, Hc. simpl. lia.
  - rewrite commas_app. simpl. lia.
Qed.

(** X18: the CSV has one line per record after its heading, in the order of
    the results, and nothing is quoted: when no instrument name and no date
    holds a comma, every line, the heading and the ERROR lines included, has
    exactly six commas, whatever the floats printed. *)
Theorem csv_lines_have_seven_fields (results : Results) :
  (forall name r, In (name, r) results -> commas name = 0%nat) ->
  (forall name o, In (name, Observation o) results ->
     commas (date o) = 0%nat) ->
  List.length (print_csv results) = S (List.length results) /\
  map (fun line => commas line) (print_csv results) =
    repeat 6%nat (S (List.length results)).
Proof.
  intros Hname Hdate. unfold print_csv. simpl.
  rewrite length_map. split; [reflexivity |]. f_equal.
  induction results as [| [name r] results IH]; simpl; [reflexivity |].
  rewrite IH.
  - f_equal. rewrite commas_csv_row, (Hname name r) by now left.
    destruct r as [o | msg cat]; [| reflexivity].
    now rewrite (Hdate name o) by now left.
  - intros n' r' Hin. apply (Hname n' r'). now right.
  - intros n' o' Hin. apply (Hdate n' o'). now right.
Qed.

Lemma csv_lines_have_seven_fields_witness :
  List.length
    (print_csv [("A", Observation observation_A);
                ("B", Failure "Insufficient data" None)]) = 3%nat /\
  map (fun line => commas line)
    (print_csv [("A", Observation observation_A);
                ("B", Failure "Insufficient data" None)]) =
    repeat 6%nat 3.
Proof.
  apply (csv_lines_have_seven_fields
           [("A", Observation observation_A);
            ("B", Failure "Insufficient data" None)]).
  - intros name r [H | [H | []]]; injection H as <- _; reflexivity.
  - intros name o [H | [H | []]]; [| discriminate].
    injection H as _ <-. reflexivity.
Defined.

End PrintingExtra.
